(** * cpovc_access.decorators: login lockout, a shallow embedding

    The module wraps a login view: it resolves the client address, looks
    up the AccessAttempt rows kept for that client, decides whether the
    client is locked out and updates the rows after each login outcome.

    Strings are Python [str] values whose characters are code points
    below 256 (WSGI hands request headers over decoded as latin-1), so a
    character is an [ascii].  Integers and time stamps are [Z].  The
    AccessAttempt table is a finite map from primary keys to rows.
    Logging has no effect on any value and is left out. *)

From Stdlib Require Import ZArith Ascii String List Bool Lia.
From stdpp Require Import base option gmap strings list fin_maps.

Local Open Scope Z_scope.

(** ** Python string operations used by the module *)

Module Py.

(** [str.isspace] on one code point below 256. *)
Definition isspace (c : ascii) : bool :=
  let n := N.to_nat (N_of_ascii c) in
  ((9 <=? n)%nat && (n <=? 13)%nat) || ((28 <=? n)%nat && (n <=? 32)%nat)
  || (n =? 133)%nat || (n =? 160)%nat.

Fixpoint lstrip (s : string) : string :=
  match s with
  | EmptyString => EmptyString
  | String c s' => if isspace c then lstrip s' else s
  end.

Fixpoint rstrip (s : string) : string :=
  match s with
  | EmptyString => EmptyString
  | String c s' =>
      match rstrip s' with
      | EmptyString => if isspace c then EmptyString else String c EmptyString
      | r => String c r
      end
  end.

(** [s.strip()] *)
Definition strip (s : string) : string := rstrip (lstrip s).

(** [s.startswith(p)] *)
Definition startswith (s p : string) : bool := String.prefix p s.

(** [s.startswith(ps)] for a tuple [ps] of prefixes. *)
Definition startswith_any (s : string) (ps : list string) : bool :=
  existsb (startswith s) ps.

(** [c in s] for a one-character string [c]. *)
Fixpoint contains (c : ascii) (s : string) : bool :=
  match s with
  | EmptyString => false
  | String d s' => Ascii.eqb c d || contains c s'
  end.

(** [s.split(sep)] for a one-character separator: never the empty list. *)
Fixpoint split (sep : ascii) (s : string) : list string :=
  match s with
  | EmptyString => [EmptyString]
  | String c s' =>
      if Ascii.eqb c sep then EmptyString :: split sep s'
      else match split sep s' with
           | h :: t => String c h :: t
           | [] => [String c EmptyString]
           end
  end.

(** [s.split(sep, 1)[0]]: the text before the first separator. *)
Fixpoint before_first (sep : ascii) (s : string) : string :=
  match s with
  | EmptyString => EmptyString
  | String c s' => if Ascii.eqb c sep then EmptyString else String c (before_first sep s')
  end.

(** [sep.join(l)] *)
Fixpoint join (sep : string) (l : list string) : string :=
  match l with
  | [] => EmptyString
  | [x] => x
  | x :: l' => x +:+ sep +:+ join sep l'
  end.

(** [s[:n]] *)
Definition slice_to (n : nat) (s : string) : string := String.substring 0 n s.

(** Truth value of a string: the empty string is false. *)
Definition truthy (s : string) : bool :=
  match s with EmptyString => false | _ => true end.

(** A dict of strings read with [d.get(k, default)]. *)
Definition dict_get (d : gmap string string) (k default : string) : string :=
  match d !! k with Some v => v | None => default end.

End Py.

(** ** The C library's [inet_aton], reached through [socket.inet_aton]

    [socket.inet_aton] hands its argument to the platform's [inet_aton]
    and raises when that returns 0.  The function below follows glibc's
    loop (resolv/inet_addr.c): numbers are read by [strtoul] with base 0,
    at most three of them may be followed by a dot, and the text may go
    on after one white-space character. *)

Module Inet.

Definition is_digit (c : ascii) : bool :=
  let n := N_of_ascii c in (48 <=? n)%N && (n <=? 57)%N.

(** C's [isascii(c) && isspace(c)]. *)
Definition c_isspace (c : ascii) : bool :=
  let n := N_of_ascii c in ((9 <=? n)%N && (n <=? 13)%N) || (n =? 32)%N.

(** The value of [c] as a digit of [base] (8, 10 or 16), if it is one. *)
Definition digit_val (base : Z) (c : ascii) : option Z :=
  let n := Z.of_N (N_of_ascii c) in
  if (48 <=? n) && (n <=? 57) then
    if n - 48 <? base then Some (n - 48) else None
  else if (base =? 16) && (97 <=? n) && (n <=? 102) then Some (n - 87)
  else if (base =? 16) && (65 <=? n) && (n <=? 70) then Some (n - 55)
  else None.

(** The longest run of digits of [base] at the head of [s], read as a
    number on top of [acc], and what follows it. *)
Fixpoint digits (base acc : Z) (s : string) : Z * string :=
  match s with
  | EmptyString => (acc, EmptyString)
  | String c s' =>
      match digit_val base c with
      | Some d => digits base (acc * base + d) s'
      | None => (acc, s)
      end
  end.

Definition is_x (c : ascii) : bool := Ascii.eqb c "x" || Ascii.eqb c "X".

(** [strtoul(cp, &endp, 0)] on text that starts with a digit: the value
    (unbounded here; the caller rejects what does not fit) and [endp].
    A [0x] that no hexadecimal digit follows is the number 0 followed by
    an [x]. *)
Definition strtoul0 (s : string) : Z * string :=
  match s with
  | String z rest =>
      if Ascii.eqb z "0" then
        match rest with
        | String x (String h t) =>
            if is_x x && bool_decide (is_Some (digit_val 16 h))
            then digits 16 0 (String h t)
            else digits 8 0 rest
        | _ => digits 8 0 rest
        end
      else digits 10 0 s
  | EmptyString => (0, EmptyString)
  end.

(** The largest last number when [pp] numbers were stored before it. *)
Definition max_last (pp : nat) : Z :=
  match pp with
  | 0%nat => 4294967295
  | 1%nat => 16777215
  | 2%nat => 65535
  | _ => 255
  end.

(** The loop of [inet_aton]; [room] is how many more numbers the four
    byte buffer takes before the last one, so [pp = 3 - room]. *)
Fixpoint aton_loop (room : nat) (s : string) : bool :=
  match s with
  | EmptyString => false
  | String c _ =>
      if negb (is_digit c) then false
      else
        let '(val, rest) := strtoul0 s in
        if 4294967295 <? val then false
        else
          match rest with
          | String d rest' =>
              if Ascii.eqb d "." then
                match room with
                | O => false
                | S room' => if 255 <? val then false else aton_loop room' rest'
                end
              else c_isspace d && (val <=? max_last (3 - room))
          | EmptyString => val <=? max_last (3 - room)
          end
  end.

(** [socket.inet_aton(s)] returns rather than raises: the text has no NUL
    character (Python refuses to pass one to C) and the C function
    accepts it. *)
Definition inet_aton (s : string) : bool :=
  negb (Py.contains zero s) && aton_loop 3 s.

End Inet.

(** ** Settings, as the module reads them when it is loaded *)

Record Settings := {
  FAILURE_LIMIT : Z;
  LOCK_OUT_AT_FAILURE : bool;
  USE_USER_AGENT : bool;
  USERNAME_FORM_FIELD : string;
  PASSWORD_FORM_FIELD : string;
  BEHIND_REVERSE_PROXY : bool;
  BEHIND_REVERSE_PROXY_WITH_DIRECT_ACCESS : bool;
  REVERSE_PROXY_HEADER : string;
  AXES_LOCK_OUT_BY_COMBINATION_USER_AND_IP : bool;
  (** a [timedelta], in microseconds; [None] when the setting is absent *)
  COOLOFF_TIME : option Z;
  LOCKOUT_TEMPLATE : option string;
  AXES_LOCKOUT_URL : option string;
  ONLY_WHITELIST : bool;
  IP_WHITELIST : option (list string);
  IP_BLACKLIST : option (list string);
  (** [hasattr(settings, 'AUTH_PROFILE_MODULE')] *)
  AUTH_PROFILE_MODULE : bool;
}.

(** The values the module falls back on when a setting is absent. *)
Definition default_settings : Settings := {|
  FAILURE_LIMIT := 3;
  LOCK_OUT_AT_FAILURE := true;
  USE_USER_AGENT := false;
  USERNAME_FORM_FIELD := "username";
  PASSWORD_FORM_FIELD := "password";
  BEHIND_REVERSE_PROXY := false;
  BEHIND_REVERSE_PROXY_WITH_DIRECT_ACCESS := false;
  REVERSE_PROXY_HEADER := "HTTP_X_FORWARDED_FOR";
  AXES_LOCK_OUT_BY_COMBINATION_USER_AND_IP := false;
  COOLOFF_TIME := None;
  LOCKOUT_TEMPLATE := None;
  AXES_LOCKOUT_URL := None;
  ONLY_WHITELIST := false;
  IP_WHITELIST := None;
  IP_BLACKLIST := None;
  AUTH_PROFILE_MODULE := false;
|}.

Definition should_lock_out_by_combination_user_and_ip (cfg : Settings) : bool :=
  AXES_LOCK_OUT_BY_COMBINATION_USER_AND_IP cfg.

(** [if COOLOFF_TIME:] a [timedelta] is true unless it is zero. *)
Definition cooloff_enabled (cfg : Settings) : option Z :=
  match COOLOFF_TIME cfg with
  | Some c => if c =? 0 then None else Some c
  | None => None
  end.

(** ** Requests *)

Record HttpRequest := {
  META : gmap string string;
  (** [POST.items()] and [GET.items()]: each key with its value *)
  POST : list (string * string);
  GET : list (string * string);
  method : string;
  (** [request.user.is_authenticated], [None] without a [user]; the
      attribute is a boolean, not a method *)
  user_is_authenticated : option bool;
}.

(** [request.POST.get(key, None)] *)
Definition POST_get (request : HttpRequest) (key : string) : option string :=
  snd <$> List.find (fun kv => String.eqb (fst kv) key) (POST request).

(** ** Resolving the client address *)

Definition PRIVATE_IPS_PREFIX : list string := ["10."; "172."; "192."; "127."].

(** [is_valid_ip]: the bare [except] turns every failure of
    [socket.inet_aton] into [False]. *)
Definition is_valid_ip (ip_address : string) : bool :=
  Inet.inet_aton (Py.strip ip_address).

(** The [for ip in ips] loop of [get_ip_address_from_request]: the first
    entry that is kept, or the empty string. *)
Fixpoint scan_ips (ips : list string) : string :=
  match ips with
  | [] => EmptyString
  | ip :: ips' =>
      if Py.startswith_any ip PRIVATE_IPS_PREFIX then scan_ips ips'
      else if negb (is_valid_ip ip) then scan_ips ips'
      else ip
  end.

Definition get_ip_address_from_request (request : HttpRequest) : string :=
  let ip_address := EmptyString in
  let x_forwarded_for := Py.dict_get (META request) "HTTP_X_FORWARDED_FOR" "" in
  let ip_address :=
    if Py.truthy x_forwarded_for && negb (Py.contains "," x_forwarded_for) then
      let private_ip := Py.startswith_any x_forwarded_for PRIVATE_IPS_PREFIX in
      if negb private_ip && is_valid_ip x_forwarded_for
      then Py.strip x_forwarded_for else ip_address
    else
      let ips := List.map Py.strip (Py.split "," x_forwarded_for) in
      scan_ips ips in
  let ip_address :=
    if negb (Py.truthy ip_address) then
      let x_real_ip := Py.dict_get (META request) "HTTP_X_REAL_IP" "" in
      if Py.truthy x_real_ip then
        let private_pref := Py.startswith_any x_real_ip PRIVATE_IPS_PREFIX in
        if negb private_pref && is_valid_ip x_real_ip
        then Py.strip x_real_ip else ip_address
      else ip_address
    else ip_address in
  let ip_address :=
    if negb (Py.truthy ip_address) then
      let remote_addr := Py.dict_get (META request) "REMOTE_ADDR" "" in
      if Py.truthy remote_addr then
        let remote_ip := Py.startswith_any remote_addr PRIVATE_IPS_PREFIX in
        let ip_address :=
          if negb remote_ip && is_valid_ip remote_addr
          then Py.strip remote_addr else ip_address in
        if remote_ip && is_valid_ip remote_addr
        then Py.strip remote_addr else ip_address
      else ip_address
    else ip_address in
  if negb (Py.truthy ip_address) then "127.0.0.1" else ip_address.

(** Exceptions the module lets escape. *)
Inductive exn :=
| Warning (msg : string)
| TypeError.

Definition header_missing_msg (cfg : Settings) : string :=
  "Axes is configured for operation behind a reverse proxy but could not find an HTTP header value "
  +:+ REVERSE_PROXY_HEADER cfg
  +:+ ". Check your proxy server settings to make sure this header value is being passed.".

Definition not_whitelisted_msg (ip : string) : string :=
  "Axes is configured for operation behind a reverse proxy and to allow someIP addresses to have direct access. "
  +:+ ip +:+ " is not on the white list".

(** [get_ip]: [ip not in IP_WHITELIST] raises [TypeError] when the list is
    [None]. *)
Definition get_ip (cfg : Settings) (request : HttpRequest) : exn + string :=
  if negb (BEHIND_REVERSE_PROXY cfg) then
    inr (get_ip_address_from_request request)
  else
    let ip := Py.dict_get (META request) (REVERSE_PROXY_HEADER cfg) "" in
    let ip := Py.strip (Py.before_first "," ip) in
    if String.eqb ip "" then
      if negb (BEHIND_REVERSE_PROXY_WITH_DIRECT_ACCESS cfg) then
        inl (Warning (header_missing_msg cfg))
      else
        let ip := Py.dict_get (META request) "REMOTE_ADDR" "" in
        match IP_WHITELIST cfg with
        | None => inl TypeError
        | Some whitelist =>
            if negb (bool_decide (ip ∈ whitelist))
            then inl (Warning (not_whitelisted_msg ip))
            else inr ip
        end
    else inr ip.

(** ** Stored records *)

(** Modelled from the spec: the model classes of [cpovc_access/models.py]
    are not among the sources.  The fields are the ones [decorators.py]
    reads and writes (spec section 3); a new AccessAttempt is untrusted
    unless created with [trusted=True], and its [attempt_time] defaults
    to the time of creation. *)
Record AccessAttempt := {
  user_agent : string;
  ip_address : string;
  username : option string;
  trusted : bool;
  http_accept : string;
  path_info : string;
  attempt_time : Z;
  get_data : string;
  post_data : string;
  failures_since_start : Z;
}.

(** Modelled from the spec: the audit entry of [cpovc_access/models.py],
    with the fields [watch_login] fills in. *)
Record AccessLog := {
  log_user_agent : string;
  log_ip_address : string;
  log_username : option string;
  log_http_accept : string;
  log_path_info : string;
  log_trusted : bool;
}.

(** What [user.get_profile()] does: raise one of the exceptions
    [is_user_lockable] catches, or return a profile that may carry a
    [nolockout] attribute. *)
Inductive Profile :=
| ProfileUnavailable
| ProfileObject (profile_nolockout : option bool).

(** A row of the user model: its own [nolockout] attribute, if it has
    one, and its profile. *)
Record User := {
  nolockout : option bool;
  get_profile : Profile;
}.

(** The tables.  [retired] holds the primary keys of deleted rows: keys
    are handed out by the database in increasing order and never used
    twice.  [lookups] is a ghost counter of the calls of
    [_get_user_attempts]; [signals] keeps what [user_locked_out.send]
    was given, [logouts] counts the calls of [logout(request)]. *)
#[projections(primitive)]
Record Store := {
  attempts : gmap positive AccessAttempt;
  retired : gset positive;
  access_log : list AccessLog;
  lookups : nat;
  signals : list (option string * string);
  logouts : nat;
}.

Definition set_attempts (f : gmap positive AccessAttempt -> gmap positive AccessAttempt)
    (s : Store) : Store :=
  {| attempts := f (attempts s); retired := retired s; access_log := access_log s;
     lookups := lookups s; signals := signals s; logouts := logouts s |}.

Definition empty_store : Store :=
  {| attempts := ∅; retired := ∅; access_log := []; lookups := 0; signals := [];
     logouts := 0 |}.

(** ** A state and exception monad for code that uses the tables *)

Definition M (A : Type) : Type := Store -> (exn + A) * Store.

Definition ret {A} (a : A) : M A := fun s => (inr a, s).

Definition raise {A} (e : exn) : M A := fun s => (inl e, s).

Definition bind {A B} (m : M A) (k : A -> M B) : M B :=
  fun s => match m s with
           | (inr a, s') => k a s'
           | (inl e, s') => (inl e, s')
           end.

Definition lift {A} (r : exn + A) : M A :=
  match r with inr a => ret a | inl e => raise e end.

Definition modify (f : Store -> Store) : M unit := fun s => (inr tt, f s).

Notation "x <- c1 ;; c2" := (bind c1 (fun x => c2))
  (at level 100, c1 at next level, right associativity).
Notation "c1 ;; c2" := (bind c1 (fun _ => c2))
  (at level 100, right associativity).

(** [for x in l: body(x)], collecting what each round leaves of [x]. *)
Fixpoint for_each {A B} (body : A -> M B) (l : list A) : M (list B) :=
  match l with
  | [] => ret []
  | x :: l' => y <- body x ;; ys <- for_each body l' ;; ret (y :: ys)
  end.

(** An instance in memory: the row and its primary key. *)
Abbreviation Attempt := (positive * AccessAttempt)%type.

(** [AccessAttempt.objects.filter(...)], evaluated.  (A QuerySet is
    evaluated when it is first tested or iterated; the module never
    writes between building one and evaluating it.) *)
Definition objects_filter (p : AccessAttempt -> bool) : M (list Attempt) :=
  fun s => (inr (List.filter (fun ka => p ka.2) (map_to_list (attempts s))), s).

(** [attempt.save()]: update the row of that key, insert it if gone. *)
Definition save (pk : positive) (attempt : AccessAttempt) : M unit :=
  modify (set_attempts (insert pk attempt)).

(** The store without the row of key [pk]. *)
Definition retire (pk : positive) (s : Store) : Store :=
  {| attempts := delete pk (attempts s); retired := {[pk]} ∪ retired s;
     access_log := access_log s; lookups := lookups s;
     signals := signals s; logouts := logouts s |}.

(** [attempt.delete()] *)
Definition delete_attempt (pk : positive) : M unit := modify (retire pk).

(** The key the database gives the next row. *)
Definition next_pk (s : Store) : positive := fresh (dom (attempts s) ∪ retired s).

(** [AccessAttempt.objects.create(...)] *)
Definition objects_create (attempt : AccessAttempt) : M unit :=
  modify (fun s => set_attempts (insert (next_pk s) attempt) s).

Definition AccessLog_create (entry : AccessLog) : M unit :=
  modify (fun s => {| attempts := attempts s; retired := retired s;
                      access_log := entry :: access_log s;
                      lookups := lookups s; signals := signals s; logouts := logouts s |}).

Definition count_lookup : M unit :=
  modify (fun s => {| attempts := attempts s; retired := retired s;
                      access_log := access_log s;
                      lookups := S (lookups s); signals := signals s; logouts := logouts s |}).

Definition user_locked_out_send (username : option string) (ip : string) : M unit :=
  modify (fun s => {| attempts := attempts s; retired := retired s;
                      access_log := access_log s;
                      lookups := lookups s; signals := (username, ip) :: signals s;
                      logouts := logouts s |}).

Definition logout : M unit :=
  modify (fun s => {| attempts := attempts s; retired := retired s;
                      access_log := access_log s;
                      lookups := lookups s; signals := signals s; logouts := S (logouts s) |}).

Definition set_failures_since_start (n : Z) (a : AccessAttempt) : AccessAttempt :=
  {| user_agent := user_agent a; ip_address := ip_address a; username := username a;
     trusted := trusted a; http_accept := http_accept a; path_info := path_info a;
     attempt_time := attempt_time a; get_data := get_data a; post_data := post_data a;
     failures_since_start := n |}.

(** ** The lockout policy *)

Section Policy.

Context (cfg : Settings) (users : gmap string User).

Definition newline : string := String (ascii_of_nat 10) EmptyString.

(** [query2str]: [key=value] lines without the password field, cut at
    [max_length] characters. *)
Definition query2str (items : list (string * string)) : string :=
  let kvs := List.map (fun kv => fst kv +:+ "=" +:+ snd kv)
               (List.filter (fun kv => negb (String.eqb (fst kv) (PASSWORD_FORM_FIELD cfg))) items) in
  Py.slice_to 1024 (Py.join newline kvs).

Definition ip_in_whitelist (ip : string) : bool :=
  match IP_WHITELIST cfg with
  | Some whitelist => bool_decide (ip ∈ whitelist)
  | None => false
  end.

Definition ip_in_blacklist (ip : string) : bool :=
  match IP_BLACKLIST cfg with
  | Some blacklist => bool_decide (ip ∈ blacklist)
  | None => false
  end.

(** [is_user_lockable]: [User.objects.get] raises [DoesNotExist] when
    no user has the submitted name (or no name was submitted). *)
Definition is_user_lockable (request : HttpRequest) : bool :=
  match POST_get request (USERNAME_FORM_FIELD cfg) ≫= (fun name => users !! name) with
  | None => true
  | Some user =>
      match nolockout user with
      | Some b => negb b
      | None =>
          if AUTH_PROFILE_MODULE cfg then
            match get_profile user with
            | ProfileObject (Some b) => negb b
            | ProfileObject None => true
            | ProfileUnavailable => true
            end
          else true
      end
  end.

Definition request_user_agent (request : HttpRequest) : string :=
  Py.slice_to 255 (Py.dict_get (META request) "HTTP_USER_AGENT" "<unknown>").

(** The keyword arguments of the first [filter] of [_get_user_attempts]. *)
Definition trusted_query (request : HttpRequest) (ip : string) (a : AccessAttempt) : bool :=
  let username_ := POST_get request (USERNAME_FORM_FIELD cfg) in
  (if USE_USER_AGENT cfg
   then String.eqb (user_agent a) (request_user_agent request) else true)
  && String.eqb (ip_address a) ip
  && bool_decide (username a = username_)
  && trusted a.

(** The [params] dict of the second [filter]. *)
Definition untrusted_query (request : HttpRequest) (ip : string) (a : AccessAttempt) : bool :=
  let username_ := POST_get request (USERNAME_FORM_FIELD cfg) in
  String.eqb (ip_address a) ip
  && negb (trusted a)
  && (if USE_USER_AGENT cfg
      then String.eqb (user_agent a) (request_user_agent request) else true)
  && (if should_lock_out_by_combination_user_and_ip cfg
      then bool_decide (username a = username_) else true).

Definition _get_user_attempts (request : HttpRequest) : M (list Attempt) :=
  ip <- lift (get_ip cfg request) ;;
  count_lookup ;;
  attempts <- objects_filter (trusted_query request ip) ;;
  match attempts with
  | [] => objects_filter (untrusted_query request ip)
  | _ => ret attempts
  end.

(** The loop of [get_user_attempts] over the records found, for a
    cool-off time [c]: the records as they are in memory afterwards, and
    [objects_deleted]. *)
Fixpoint cooloff_loop (c now : Z) (attempts : list Attempt) (objects_deleted : bool)
    : M (list Attempt * bool) :=
  match attempts with
  | [] => ret ([], objects_deleted)
  | (pk, attempt) :: rest =>
      if attempt_time attempt + c <? now then
        if trusted attempt then
          let attempt := set_failures_since_start 0 attempt in
          save pk attempt ;;
          r <- cooloff_loop c now rest objects_deleted ;;
          ret ((pk, attempt) :: fst r, snd r)
        else
          delete_attempt pk ;;
          r <- cooloff_loop c now rest true ;;
          ret ((pk, attempt) :: fst r, snd r)
      else
        r <- cooloff_loop c now rest objects_deleted ;;
        ret ((pk, attempt) :: fst r, snd r)
  end.

Definition get_user_attempts (now : Z) (request : HttpRequest) : M (list Attempt) :=
  attempts <- _get_user_attempts request ;;
  r <- match cooloff_enabled cfg with
       | Some c => cooloff_loop c now attempts false
       | None => ret (attempts, false)
       end ;;
  if snd r then _get_user_attempts request else ret (fst r).

Definition create_new_failure_records (now : Z) (request : HttpRequest) (failures : Z) : M unit :=
  ip <- lift (get_ip cfg request) ;;
  objects_create
    {| user_agent := request_user_agent request;
       ip_address := ip;
       username := POST_get request (USERNAME_FORM_FIELD cfg);
       trusted := false;
       http_accept := Py.dict_get (META request) "HTTP_ACCEPT" "<unknown>";
       path_info := Py.dict_get (META request) "PATH_INFO" "<unknown>";
       attempt_time := now;
       get_data := query2str (GET request);
       post_data := query2str (POST request);
       failures_since_start := failures |}.

(** [if not username: return False]: no record for an absent or an empty
    user name. *)
Definition create_new_trusted_record (now : Z) (request : HttpRequest) : M unit :=
  ip <- lift (get_ip cfg request) ;;
  match POST_get request (USERNAME_FORM_FIELD cfg) with
  | None => ret tt
  | Some name =>
      if negb (Py.truthy name) then ret tt
      else
        objects_create
          {| user_agent := request_user_agent request;
             ip_address := ip;
             username := Some name;
             trusted := true;
             http_accept := Py.dict_get (META request) "HTTP_ACCEPT" "<unknown>";
             path_info := Py.dict_get (META request) "PATH_INFO" "<unknown>";
             attempt_time := now;
             get_data := query2str (GET request);
             post_data := query2str (POST request);
             failures_since_start := 0 |}
  end.

Definition is_already_locked (now : Z) (request : HttpRequest) : M bool :=
  ip <- lift (get_ip cfg request) ;;
  if ONLY_WHITELIST cfg && negb (ip_in_whitelist ip) then ret true
  else if ip_in_blacklist ip then ret true
  else
    attempts <- get_user_attempts now request ;;
    let user_lockable := is_user_lockable request in
    ret (existsb (fun ka =>
                    let all_failures := FAILURE_LIMIT cfg <=? failures_since_start (snd ka) in
                    all_failures && LOCK_OUT_AT_FAILURE cfg && user_lockable)
           attempts).

(** What a repeated failure writes into a record it found. *)
Definition record_failure (now : Z) (request : HttpRequest) (failures : Z)
    (a : AccessAttempt) : AccessAttempt :=
  {| user_agent := user_agent a; ip_address := ip_address a; username := username a;
     trusted := trusted a;
     http_accept := Py.dict_get (META request) "HTTP_ACCEPT" "<unknown>";
     path_info := Py.dict_get (META request) "PATH_INFO" "<unknown>";
     attempt_time := now;
     get_data := get_data a +:+ newline +:+ "---------" +:+ newline +:+ query2str (GET request);
     post_data := post_data a +:+ newline +:+ "---------" +:+ newline +:+ query2str (POST request);
     failures_since_start := failures |}.

(** The loop over the records after a successful login: the records as
    they are in memory afterwards, and [trusted_record_exists]. *)
Fixpoint forget_failures (attempts : list Attempt) (trusted_record_exists : bool)
    : M (list Attempt * bool) :=
  match attempts with
  | [] => ret ([], trusted_record_exists)
  | (pk, attempt) :: rest =>
      if negb (trusted attempt) then
        delete_attempt pk ;;
        r <- forget_failures rest trusted_record_exists ;;
        ret ((pk, attempt) :: fst r, snd r)
      else
        let attempt := set_failures_since_start 0 attempt in
        save pk attempt ;;
        r <- forget_failures rest true ;;
        ret ((pk, attempt) :: fst r, snd r)
  end.

(** [check_request].  Where the lockout trips, the code evaluates
    [hasattr(request, 'user') and request.user.is_authenticated()]: in
    the Django this module imports from, [is_authenticated] is a
    boolean, and calling it raises [TypeError]; so a request that
    carries a [user] raises there, after the rows were written and
    before the signal is sent, and [logout] is only reached on paper. *)
Definition check_request (now : Z) (request : HttpRequest) (login_unsuccessful : bool) : M bool :=
  ip_address_ <- lift (get_ip cfg request) ;;
  let username_ := POST_get request (USERNAME_FORM_FIELD cfg) in
  let failures := 0 in
  attempts <- get_user_attempts now request ;;
  let failures := fold_left (fun f ka => Z.max f (failures_since_start (snd ka))) attempts failures in
  r <- (if login_unsuccessful then
          let failures := failures + 1 in
          match attempts with
          | _ :: _ =>
              attempts <- for_each (fun ka =>
                                      let attempt := record_failure now request failures (snd ka) in
                                      save (fst ka) attempt ;; ret (fst ka, attempt))
                            attempts ;;
              ret (failures, attempts)
          | [] =>
              create_new_failure_records now request failures ;;
              ret (failures, attempts)
          end
        else
          let failures := 0 in
          r <- forget_failures attempts false ;;
          (if negb (snd r) then create_new_trusted_record now request else ret tt) ;;
          ret (failures, fst r)) ;;
  let failures := fst r in
  let attempts := snd r in
  let user_lockable := is_user_lockable request in
  if (FAILURE_LIMIT cfg <=? failures) && LOCK_OUT_AT_FAILURE cfg && user_lockable then
    authenticated <- match user_is_authenticated request with
                     | Some _ => raise TypeError
                     | None => ret false
                     end ;;
    (if authenticated then logout else ret tt) ;;
    user_locked_out_send username_ ip_address_ ;;
    for_each (fun ka => delete_attempt (fst ka) ;;
                        create_new_failure_records now request failures)
      (List.filter (fun ka => trusted (snd ka)) attempts) ;;
    ret false
  else ret true.

(** ** The decorator *)

(** A response of the wrapped view, as far as [watch_login] looks at it. *)
Record HttpResponse := {
  has_location_header : bool;
  status_code : Z;
}.

(** What [decorated_login] returns: what the view returned ([None]
    included), or one of the lockout responses. *)
Inductive Response :=
| FromView (response : option HttpResponse)
| LockoutRedirect (url : string)
| LockoutText (text : string).

(** [lockout_response].  With a lockout template the code calls
    [render(LOCKOUT_TEMPLATE, context, context_instance=...)]: [render]
    takes no such keyword (and is handed the template name where the
    request goes), so the call raises [TypeError] and no page is ever
    rendered. *)
Definition lockout_response (request : HttpRequest) : exn + Response :=
  match LOCKOUT_TEMPLATE cfg with
  | Some (String c t) => inl TypeError
  | _ =>
      match AXES_LOCKOUT_URL cfg with
      | Some (String c t) => inr (LockoutRedirect (String c t))
      | _ =>
          match cooloff_enabled cfg with
          | Some _ =>
              inr (LockoutText "Account locked: too many login attempts.  Please try again later.")
          | None =>
              inr (LockoutText "Account locked: too many login attempts.  Contact an admin to unlock your account.")
          end
      end
  end.

(** The wrapped view: its [__name__] and what calling it does. *)
Record View := {
  view_name : string;
  view_call : HttpRequest -> M (option HttpResponse);
}.

Definition decorated_login (func : View) (now : Z) (request : HttpRequest) : M Response :=
  locked <- is_already_locked now request ;;
  if locked then lift (lockout_response request)
  else
    response <- view_call func request ;;
    if String.eqb (view_name func) "decorated_login" then ret (FromView response)
    else if String.eqb (method request) "POST" then
      let login_unsuccessful :=
        match response with
        | Some resp => negb (has_location_header resp) && negb (status_code resp =? 302)
        | None => false
        end in
      ip <- lift (get_ip cfg request) ;;
      AccessLog_create
        {| log_user_agent := request_user_agent request;
           log_ip_address := ip;
           log_username := POST_get request (USERNAME_FORM_FIELD cfg);
           log_http_accept := Py.dict_get (META request) "HTTP_ACCEPT" "<unknown>";
           log_path_info := Py.dict_get (META request) "PATH_INFO" "<unknown>";
           log_trusted := negb login_unsuccessful |} ;;
      allowed <- check_request now request login_unsuccessful ;;
      if allowed then ret (FromView response) else lift (lockout_response request)
    else ret (FromView response).

(** [watch_login(func)] is the function [decorated_login] above. *)
Definition watch_login (func : View) : Z -> HttpRequest -> M Response :=
  decorated_login func.

End Policy.

(** A POST request with the given [META] and form fields. *)
Definition mk_request (meta : list (string * string)) (post : list (string * string))
    : HttpRequest :=
  {| META := list_to_map meta; POST := post; GET := []; method := "POST";
     user_is_authenticated := None |}.

(** * Definitions used to state the properties *)

(** ** Addresses *)

(** What [get_ip] reads from the proxy header: the text before the first
    comma, stripped. *)
Definition proxy_header_ip (cfg : Settings) (request : HttpRequest) : string :=
  Py.strip (Py.before_first "," (Py.dict_get (META request) (REVERSE_PROXY_HEADER cfg) "")).

(** Settings for examples: behind a reverse proxy, without and with
    direct access, and with an allow-list that alone is let in. *)
Definition proxy_settings : Settings :=
  {| FAILURE_LIMIT := 3; LOCK_OUT_AT_FAILURE := true; USE_USER_AGENT := false;
     USERNAME_FORM_FIELD := "username"; PASSWORD_FORM_FIELD := "password";
     BEHIND_REVERSE_PROXY := true; BEHIND_REVERSE_PROXY_WITH_DIRECT_ACCESS := false;
     REVERSE_PROXY_HEADER := "HTTP_X_FORWARDED_FOR";
     AXES_LOCK_OUT_BY_COMBINATION_USER_AND_IP := false; COOLOFF_TIME := None;
     LOCKOUT_TEMPLATE := None; AXES_LOCKOUT_URL := None; ONLY_WHITELIST := false;
     IP_WHITELIST := None; IP_BLACKLIST := None; AUTH_PROFILE_MODULE := false |}.

Definition direct_access_settings : Settings :=
  {| FAILURE_LIMIT := 3; LOCK_OUT_AT_FAILURE := true; USE_USER_AGENT := false;
     USERNAME_FORM_FIELD := "username"; PASSWORD_FORM_FIELD := "password";
     BEHIND_REVERSE_PROXY := true; BEHIND_REVERSE_PROXY_WITH_DIRECT_ACCESS := true;
     REVERSE_PROXY_HEADER := "HTTP_X_FORWARDED_FOR";
     AXES_LOCK_OUT_BY_COMBINATION_USER_AND_IP := false; COOLOFF_TIME := None;
     LOCKOUT_TEMPLATE := None; AXES_LOCKOUT_URL := None; ONLY_WHITELIST := false;
     IP_WHITELIST := None; IP_BLACKLIST := None; AUTH_PROFILE_MODULE := false |}.

Definition whitelist_only_settings : Settings :=
  {| FAILURE_LIMIT := 3; LOCK_OUT_AT_FAILURE := true; USE_USER_AGENT := false;
     USERNAME_FORM_FIELD := "username"; PASSWORD_FORM_FIELD := "password";
     BEHIND_REVERSE_PROXY := false; BEHIND_REVERSE_PROXY_WITH_DIRECT_ACCESS := false;
     REVERSE_PROXY_HEADER := "HTTP_X_FORWARDED_FOR";
     AXES_LOCK_OUT_BY_COMBINATION_USER_AND_IP := false; COOLOFF_TIME := None;
     LOCKOUT_TEMPLATE := None; AXES_LOCKOUT_URL := None; ONLY_WHITELIST := true;
     IP_WHITELIST := Some ["203.0.113.9"]; IP_BLACKLIST := None;
     AUTH_PROFILE_MODULE := false |}.

(** A view that returns [None] and leaves the tables alone. *)
Definition silent_view : View :=
  {| view_name := "login"; view_call := fun _ => ret None |}.

(** A candidate read from a header is kept when it does not start with a
    private prefix and is valid. *)
Definition kept (candidate : string) : bool :=
  negb (Py.startswith_any candidate PRIVATE_IPS_PREFIX) && is_valid_ip candidate.

(** The candidates of the forwarded-for header, in the order they are
    tried: the value itself when it is not empty and has no comma, else
    its comma-separated entries, stripped. *)
Definition forwarded_candidates (request : HttpRequest) : list string :=
  let x_forwarded_for := Py.dict_get (META request) "HTTP_X_FORWARDED_FOR" "" in
  if Py.truthy x_forwarded_for && negb (Py.contains "," x_forwarded_for)
  then [x_forwarded_for]
  else List.map Py.strip (Py.split "," x_forwarded_for).

(** The resolution order in the words of the specification: the first
    forwarded candidate that is kept, else the real-client-IP header if
    kept, else the connection address if valid (private or not), else
    the loopback address; what is taken is taken stripped. *)
Definition resolve_in_order (request : HttpRequest) : string :=
  match List.find kept (forwarded_candidates request) with
  | Some ip => Py.strip ip
  | None =>
      let x_real_ip := Py.dict_get (META request) "HTTP_X_REAL_IP" "" in
      let remote_addr := Py.dict_get (META request) "REMOTE_ADDR" "" in
      if kept x_real_ip then Py.strip x_real_ip
      else if is_valid_ip remote_addr then Py.strip remote_addr
      else "127.0.0.1"
  end.

(** ** The notation [inet_aton] reads *)

(** The value of [s] on top of [acc] when every character of [s] is a
    digit of [base]. *)
Fixpoint value_of (base acc : Z) (s : string) : option Z :=
  match s with
  | EmptyString => Some acc
  | String c s' =>
      match Inet.digit_val base c with
      | Some d => value_of base (acc * base + d) s'
      | None => None
      end
  end.

(** A number as C writes it: [0x] or [0X] and hexadecimal digits, or [0]
    and octal digits, or decimal digits that do not start with [0]. *)
Definition c_number (p : string) (v : Z) : Prop :=
  (exists x h, p = String "0" (String x h) /\ Inet.is_x x = true
               /\ h <> "" /\ value_of 16 0 h = Some v)
  \/ (exists o, p = String "0" o /\ value_of 8 0 o = Some v)
  \/ (exists c t, p = String c t /\ Inet.is_digit c = true /\ c <> "0"%char
                  /\ value_of 10 0 p = Some v).

(** What may follow the numbers: nothing, or a white-space character of
    C and then any text. *)
Definition trailer_ok (t : string) : Prop :=
  t = "" \/ exists c t', t = String c t' /\ Inet.c_isspace c = true.

(** One to four numbers; all but the last are bytes and the last fills
    the bytes that are left. *)
Definition bounds (vs : list Z) : Prop :=
  match vs with
  | [a] => a <= 4294967295
  | [a; b] => a <= 255 /\ b <= 16777215
  | [a; b; c] => a <= 255 /\ b <= 255 /\ c <= 65535
  | [a; b; c; d] => a <= 255 /\ b <= 255 /\ c <= 255 /\ d <= 255
  | _ => False
  end.

(** The numbers-and-dots notation of inet(3). *)
Definition numbers_and_dots (s : string) : Prop :=
  exists (nums : list (string * Z)) (trailer : string),
    s = Py.join "." (fst <$> nums) +:+ trailer
    /\ trailer_ok trailer
    /\ Forall (fun pv => c_number (fst pv) (snd pv)) nums
    /\ bounds (snd <$> nums).

(** [bounds] when [room] dots may still come. *)
Fixpoint shape (room : nat) (vs : list Z) {struct vs} : Prop :=
  match vs with
  | [] => False
  | v :: vs' =>
      match vs' with
      | [] => v <= Inet.max_last (3 - room)
      | _ => match room with
             | O => False
             | S room' => v <= 255 /\ shape room' vs'
             end
      end
  end.

(** A dotted quad is four of these, separated by dots: a run of decimal
    digits worth at most 255. *)
Definition decimal_byte (p : string) : bool :=
  match p with
  | EmptyString => false
  | _ => match value_of 10 0 p with Some v => v <=? 255 | None => false end
  end.

(** The text is a dotted quad. *)
Definition dotted_quad (s : string) : bool :=
  match Py.split "." s with
  | [a; b; c; d] => decimal_byte a && decimal_byte b && decimal_byte c && decimal_byte d
  | _ => false
  end.

(** Characters that end a number: the dot and C's white space. *)
Definition stops (d : ascii) : bool := Ascii.eqb d "." || Inet.c_isspace d.

(** The text after a number lets the number end there. *)
Definition ends_number (rest : string) : Prop :=
  rest = "" \/ exists d t, rest = String d t /\ stops d = true.

(** ** Tables and lookups *)

(** The rows of a table that satisfy [p], with their keys. *)
Definition rows (p : AccessAttempt -> bool) (m : gmap positive AccessAttempt) : list Attempt :=
  List.filter (fun ka => p ka.2) (map_to_list m).

(** What [_get_user_attempts] finds in a table for a request from [ip]. *)
Definition found (cfg : Settings) (request : HttpRequest) (ip : string)
    (m : gmap positive AccessAttempt) : list Attempt :=
  match rows (trusted_query cfg request ip) m with
  | [] => rows (untrusted_query cfg request ip) m
  | l => l
  end.

(** The store after one more lookup was counted. *)
Definition counted (s : Store) : Store :=
  {| attempts := attempts s; retired := retired s; access_log := access_log s;
     lookups := S (lookups s); signals := signals s; logouts := logouts s |}.

(** Two rows with the same key fields answer every query alike. *)
Definition same_key (a b : AccessAttempt) : Prop :=
  user_agent a = user_agent b /\ ip_address a = ip_address b
  /\ username a = username b /\ trusted a = trusted b.

(** The first query, as a proposition: a trusted row of this address and
    this user name, and of this user agent when user agents count. *)
Definition trusted_match (cfg : Settings) (request : HttpRequest) (ip : string)
    (a : AccessAttempt) : Prop :=
  trusted a = true /\ ip_address a = ip
  /\ username a = POST_get request (USERNAME_FORM_FIELD cfg)
  /\ (USE_USER_AGENT cfg = true -> user_agent a = request_user_agent request).

(** The second query: an untrusted row of this address, of this user
    agent when user agents count, and of this user name when lockout is
    by user and address. *)
Definition untrusted_match (cfg : Settings) (request : HttpRequest) (ip : string)
    (a : AccessAttempt) : Prop :=
  trusted a = false /\ ip_address a = ip
  /\ (USE_USER_AGENT cfg = true -> user_agent a = request_user_agent request)
  /\ (should_lock_out_by_combination_user_and_ip cfg = true ->
      username a = POST_get request (USERNAME_FORM_FIELD cfg)).

(** The lookup in the words of the claim: one identity key, with the
    user name in it under lockout by user and address only, tried on
    trusted rows first and on untrusted rows next. *)
Definition identity_key_query (cfg : Settings) (request : HttpRequest) (ip : string)
    (want_trusted : bool) (a : AccessAttempt) : bool :=
  String.eqb (ip_address a) ip
  && (if should_lock_out_by_combination_user_and_ip cfg
      then bool_decide (username a = POST_get request (USERNAME_FORM_FIELD cfg)) else true)
  && (if USE_USER_AGENT cfg
      then String.eqb (user_agent a) (request_user_agent request) else true)
  && Bool.eqb (trusted a) want_trusted.

Definition lookup_by_identity_key (cfg : Settings) (request : HttpRequest) : M (list Attempt) :=
  ip <- lift (get_ip cfg request) ;;
  count_lookup ;;
  attempts <- objects_filter (identity_key_query cfg request ip true) ;;
  match attempts with
  | [] => objects_filter (identity_key_query cfg request ip false)
  | _ => ret attempts
  end.

(** A trusted row kept for alice at 198.51.100.4. *)
Definition alice_trusted : AccessAttempt :=
  {| user_agent := "<unknown>"; ip_address := "198.51.100.4"; username := Some "alice";
     trusted := true; http_accept := "<unknown>"; path_info := "<unknown>";
     attempt_time := 0; get_data := ""; post_data := ""; failures_since_start := 0 |}.

Definition alice_store : Store := set_attempts (insert 1%positive alice_trusted) empty_store.

(** A login of bob from 198.51.100.4. *)
Definition bob_request : HttpRequest :=
  mk_request [("REMOTE_ADDR", "198.51.100.4")] [("username", "bob"); ("password", "x")].

(** [attempt.attempt_time + COOLOFF_TIME < datetime.now()] *)
Definition expired (c now : Z) (a : AccessAttempt) : bool := attempt_time a + c <? now.

(** One round of the cool-off loop: the store after it, and the record
    in memory after it. *)
Definition cool_store (c now : Z) (s : Store) (ka : Attempt) : Store :=
  if expired c now ka.2 then
    if trusted ka.2 then set_attempts (insert ka.1 (set_failures_since_start 0 ka.2)) s
    else retire ka.1 s
  else s.

Definition cool (c now : Z) (ka : Attempt) : Attempt :=
  if expired c now ka.2 && trusted ka.2
  then (ka.1, set_failures_since_start 0 ka.2) else ka.

(** Some record of the list is deleted by the loop. *)
Definition purged (c now : Z) (l : list Attempt) : bool :=
  existsb (fun ka => expired c now ka.2 && negb (trusted ka.2)) l.

Definition cool_row (c now : Z) (a : AccessAttempt) : AccessAttempt :=
  if expired c now a && trusted a then set_failures_since_start 0 a else a.

(** An untrusted record with three failures, last updated at time 5. *)
Definition stale_record : AccessAttempt :=
  {| user_agent := "<unknown>"; ip_address := "198.51.100.4"; username := Some "bob";
     trusted := false; http_accept := "<unknown>"; path_info := "<unknown>";
     attempt_time := 5; get_data := ""; post_data := ""; failures_since_start := 3 |}.

Definition stale_store : Store := set_attempts (insert 1%positive stale_record) empty_store.

Definition cooloff_settings (c : Z) : Settings :=
  {| FAILURE_LIMIT := 3; LOCK_OUT_AT_FAILURE := true; USE_USER_AGENT := false;
     USERNAME_FORM_FIELD := "username"; PASSWORD_FORM_FIELD := "password";
     BEHIND_REVERSE_PROXY := false; BEHIND_REVERSE_PROXY_WITH_DIRECT_ACCESS := false;
     REVERSE_PROXY_HEADER := "HTTP_X_FORWARDED_FOR";
     AXES_LOCK_OUT_BY_COMBINATION_USER_AND_IP := false; COOLOFF_TIME := Some c;
     LOCKOUT_TEMPLATE := None; AXES_LOCKOUT_URL := None; ONLY_WHITELIST := false;
     IP_WHITELIST := None; IP_BLACKLIST := None; AUTH_PROFILE_MODULE := false |}.

(** The row [create_new_failure_records] creates. *)
Definition failure_record (cfg : Settings) (now : Z) (request : HttpRequest) (ip : string)
    (failures : Z) : AccessAttempt :=
  {| user_agent := request_user_agent request;
     ip_address := ip;
     username := POST_get request (USERNAME_FORM_FIELD cfg);
     trusted := false;
     http_accept := Py.dict_get (META request) "HTTP_ACCEPT" "<unknown>";
     path_info := Py.dict_get (META request) "PATH_INFO" "<unknown>";
     attempt_time := now;
     get_data := query2str cfg (GET request);
     post_data := query2str cfg (POST request);
     failures_since_start := failures |}.

(** The row [create_new_trusted_record] creates for a user name. *)
Definition trusted_record (cfg : Settings) (now : Z) (request : HttpRequest) (ip : string)
    (name : string) : AccessAttempt :=
  {| user_agent := request_user_agent request;
     ip_address := ip;
     username := Some name;
     trusted := true;
     http_accept := Py.dict_get (META request) "HTTP_ACCEPT" "<unknown>";
     path_info := Py.dict_get (META request) "PATH_INFO" "<unknown>";
     attempt_time := now;
     get_data := query2str cfg (GET request);
     post_data := query2str cfg (POST request);
     failures_since_start := 0 |}.

(** The store with one more row. *)
Definition with_new_row (a : AccessAttempt) (s : Store) : Store :=
  set_attempts (insert (next_pk s) a) s.

(** [failures = max(failures, attempt.failures_since_start)] over the
    records. *)
Definition max_failures (l : list Attempt) : Z :=
  fold_left (fun f ka => Z.max f (failures_since_start (snd ka))) l 0.

Definition save_row (g : AccessAttempt -> AccessAttempt) (s : Store) (ka : Attempt) : Store :=
  set_attempts (insert ka.1 (g ka.2)) s.

Definition forget_store (s : Store) (ka : Attempt) : Store :=
  if negb (trusted ka.2) then retire ka.1 s
  else set_attempts (insert ka.1 (set_failures_since_start 0 ka.2)) s.

Definition forget_row (a : AccessAttempt) : AccessAttempt :=
  if negb (trusted a) then a else set_failures_since_start 0 a.

Definition revoke_store (a : AccessAttempt) (s : Store) (ka : Attempt) : Store :=
  with_new_row a (retire ka.1 s).

(** The store after the [user_locked_out] signal was sent. *)
Definition told (username_ : option string) (ip : string) (s : Store) : Store :=
  {| attempts := attempts s; retired := retired s; access_log := access_log s;
     lookups := lookups s; signals := (username_, ip) :: signals s; logouts := logouts s |}.

(** Whether the failure count trips the lockout. *)
Definition trips (cfg : Settings) (users : gmap string User) (request : HttpRequest)
    (failures : Z) : bool :=
  (FAILURE_LIMIT cfg <=? failures) && LOCK_OUT_AT_FAILURE cfg
  && is_user_lockable cfg users request.

(** The store after [create_new_trusted_record]. *)
Definition with_trusted_record (cfg : Settings) (now : Z) (request : HttpRequest)
    (ip : string) (s : Store) : Store :=
  match POST_get request (USERNAME_FORM_FIELD cfg) with
  | Some name => if Py.truthy name
                 then with_new_row (trusted_record cfg now request ip name) s else s
  | None => s
  end.

(** Keys the database has handed out so far. *)
Definition known (s : Store) : gset positive := dom (attempts s) ∪ retired s.

(** Another login of bob from the same address, with another password. *)
Definition bob_retry : HttpRequest :=
  mk_request [("REMOTE_ADDR", "198.51.100.4"); ("HTTP_ACCEPT", "text/html")]
    [("username", "bob"); ("password", "y")].

(** The login of bob as the authentication middleware hands it over:
    with a [request.user], here an anonymous one. *)
Definition bob_with_user : HttpRequest :=
  {| META := list_to_map [("REMOTE_ADDR", "198.51.100.4")];
     POST := [("username", "bob"); ("password", "x")]; GET := []; method := "POST";
     user_is_authenticated := Some false |}.

(** A login form sent with an empty user name. *)
Definition blank_request : HttpRequest :=
  mk_request [("REMOTE_ADDR", "198.51.100.4")] [("username", ""); ("password", "x")].

(** No cool-off time is in force, or a record last written at [t] has
    not cooled off at [now]. *)
Definition still_counts (cfg : Settings) (t now : Z) : Prop :=
  forall c, COOLOFF_TIME cfg = Some c -> c <> 0 -> ~ t + c < now.

(** The address passes the allow-list and deny-list checks. *)
Definition passes_lists (cfg : Settings) (ip : string) : Prop :=
  (ONLY_WHITELIST cfg = true -> ip_in_whitelist cfg ip = true)
  /\ ip_in_blacklist cfg ip = false.

(** The records found for the request all carry [f] failures and were
    all written at [t], and there is one. *)
Definition counting (cfg : Settings) (request : HttpRequest) (ip : string) (f t : Z)
    (m : gmap positive AccessAttempt) : Prop :=
  found cfg request ip m <> []
  /\ forall k a, (k, a) ∈ found cfg request ip m ->
                 failures_since_start a = f /\ attempt_time a = t.

(** Two requests of one client: the same address, the same user name,
    and the same user agent when user agents are tracked. *)
Definition same_client (cfg : Settings) (r r' : HttpRequest) : Prop :=
  get_ip cfg r = get_ip cfg r'
  /\ POST_get r (USERNAME_FORM_FIELD cfg) = POST_get r' (USERNAME_FORM_FIELD cfg)
  /\ (USE_USER_AGENT cfg = true -> request_user_agent r = request_user_agent r').

(** No failure is counted for the request. *)
Definition nothing_counted (cfg : Settings) (request : HttpRequest) (ip : string)
    (m : gmap positive AccessAttempt) : Prop :=
  forall k a, (k, a) ∈ found cfg request ip m -> failures_since_start a <= 0.

(** ** Further examples and notions *)

(** Two requests that differ at most in what was entered in the password
    field: the same headers, query string, method and session, and the
    same form fields with the same values except under the password
    field's name. *)
Definition same_but_password (cfg : Settings) (r r' : HttpRequest) : Prop :=
  META r = META r' /\ GET r = GET r' /\ method r = method r'
  /\ user_is_authenticated r = user_is_authenticated r'
  /\ Forall2 (fun kv kv' : string * string =>
                fst kv = fst kv'
                /\ (fst kv <> PASSWORD_FORM_FIELD cfg -> snd kv = snd kv'))
       (POST r) (POST r').

(** The login of bob from 198.51.100.4 with another password. *)
Definition bob_other_password : HttpRequest :=
  mk_request [("REMOTE_ADDR", "198.51.100.4")] [("username", "bob"); ("password", "y")].

(** No character of the text is white space. *)
Fixpoint no_space (s : string) : bool :=
  match s with
  | EmptyString => true
  | String c t => negb (Py.isspace c) && no_space t
  end.

(** A text with a colon and no white space, as every IPv6 address is. *)
Definition colon_text (s : string) : bool := Py.contains ":" s && no_space s.

(** A byte written in decimal without a leading zero. *)
Definition plain_byte (p : string) : bool :=
  decimal_byte p && (String.eqb p "0" || negb (Py.startswith p "0")).

(** A request that arrives over IPv6 with no forwarding header. *)
Definition ipv6_request : HttpRequest :=
  mk_request [("REMOTE_ADDR", "2001:db8::1")] [("username", "bob"); ("password", "x")].

(** A request through a proxy whose header carries a host name. *)
Definition proxied_request : HttpRequest :=
  mk_request [("HTTP_X_FORWARDED_FOR", " gateway.example , 10.0.0.1");
              ("REMOTE_ADDR", "10.0.0.1")] [].

(** Settings with a failure limit of zero. *)
Definition zero_limit_settings : Settings :=
  {| FAILURE_LIMIT := 0; LOCK_OUT_AT_FAILURE := true; USE_USER_AGENT := false;
     USERNAME_FORM_FIELD := "username"; PASSWORD_FORM_FIELD := "password";
     BEHIND_REVERSE_PROXY := false; BEHIND_REVERSE_PROXY_WITH_DIRECT_ACCESS := false;
     REVERSE_PROXY_HEADER := "HTTP_X_FORWARDED_FOR";
     AXES_LOCK_OUT_BY_COMBINATION_USER_AND_IP := false; COOLOFF_TIME := None;
     LOCKOUT_TEMPLATE := None; AXES_LOCKOUT_URL := None; ONLY_WHITELIST := false;
     IP_WHITELIST := None; IP_BLACKLIST := None; AUTH_PROFILE_MODULE := false |}.

(** A user model in which bob carries [nolockout = True]. *)
Definition bob_exempt : gmap string User :=
  {[ "bob" := {| nolockout := Some true; get_profile := ProfileUnavailable |} ]}.

(** A trusted row kept for bob at 198.51.100.4, with one failure. *)
Definition bob_trusted : AccessAttempt :=
  {| user_agent := "<unknown>"; ip_address := "198.51.100.4"; username := Some "bob";
     trusted := true; http_accept := "<unknown>"; path_info := "<unknown>";
     attempt_time := 5; get_data := ""; post_data := ""; failures_since_start := 1 |}.

(** The table with bob's trusted row and the untrusted row of three
    failures from the same address. *)
Definition shadowed_store : Store :=
  set_attempts (insert 2%positive bob_trusted) stale_store.

(** The settings with another allow-list. *)
Definition with_whitelist (whitelist : option (list string)) (cfg : Settings) : Settings :=
  {| FAILURE_LIMIT := FAILURE_LIMIT cfg;
     LOCK_OUT_AT_FAILURE := LOCK_OUT_AT_FAILURE cfg;
     USE_USER_AGENT := USE_USER_AGENT cfg;
     USERNAME_FORM_FIELD := USERNAME_FORM_FIELD cfg;
     PASSWORD_FORM_FIELD := PASSWORD_FORM_FIELD cfg;
     BEHIND_REVERSE_PROXY := BEHIND_REVERSE_PROXY cfg;
     BEHIND_REVERSE_PROXY_WITH_DIRECT_ACCESS := BEHIND_REVERSE_PROXY_WITH_DIRECT_ACCESS cfg;
     REVERSE_PROXY_HEADER := REVERSE_PROXY_HEADER cfg;
     AXES_LOCK_OUT_BY_COMBINATION_USER_AND_IP := AXES_LOCK_OUT_BY_COMBINATION_USER_AND_IP cfg;
     COOLOFF_TIME := COOLOFF_TIME cfg;
     LOCKOUT_TEMPLATE := LOCKOUT_TEMPLATE cfg;
     AXES_LOCKOUT_URL := AXES_LOCKOUT_URL cfg;
     ONLY_WHITELIST := ONLY_WHITELIST cfg;
     IP_WHITELIST := whitelist;
     IP_BLACKLIST := IP_BLACKLIST cfg;
     AUTH_PROFILE_MODULE := AUTH_PROFILE_MODULE cfg |}.

(** The audit entry [decorated_login] writes for a request from [ip]. *)
Definition audit_entry (cfg : Settings) (request : HttpRequest) (ip : string)
    (success : bool) : AccessLog :=
  {| log_user_agent := request_user_agent request;
     log_ip_address := ip;
     log_username := POST_get request (USERNAME_FORM_FIELD cfg);
     log_http_accept := Py.dict_get (META request) "HTTP_ACCEPT" "<unknown>";
     log_path_info := Py.dict_get (META request) "PATH_INFO" "<unknown>";
     log_trusted := success |}.

(** The store with one more audit entry. *)
Definition logged (entry : AccessLog) (s : Store) : Store :=
  {| attempts := attempts s; retired := retired s; access_log := entry :: access_log s;
     lookups := lookups s; signals := signals s; logouts := logouts s |}.

(** How [decorated_login] ends once [check_request] has ended: with
    the view's response if the request was allowed, as
    [lockout_response] does if it was blocked, and with the exception
    if one was raised. *)
Definition answer (cfg : Settings) (request : HttpRequest) (response : option HttpResponse)
    (r : exn + bool) : exn + Response :=
  match r with
  | inr true => inr (FromView response)
  | inr false => lockout_response cfg request
  | inl e => inl e
  end.

(** A plain page: status 200 and no Location header. *)
Definition form_page : option HttpResponse :=
  Some {| has_location_header := false; status_code := 200 |}.

(** A view that answers every request with that page and leaves the
    tables alone, as a login form shown again does. *)
Definition form_again_view : View :=
  {| view_name := "login"; view_call := fun _ => ret form_page |}.

(** The same request sent to the decorated view at the given times, one
    after the other: what each call returned or raised, and the store in
    the end. *)
Fixpoint send_all (cfg : Settings) (users : gmap string User) (func : View)
    (request : HttpRequest) (times : list Z) (s : Store) : list (exn + Response) * Store :=
  match times with
  | [] => ([], s)
  | t :: times' =>
      let (r, s1) := watch_login cfg users func t request s in
      let (rs, s2) := send_all cfg users func request times' s1 in
      (r :: rs, s2)
  end.

(** No row written at one of the times has cooled off at a later one. *)
Fixpoint within_cooloff (cfg : Settings) (times : list Z) : Prop :=
  match times with
  | [] => True
  | t :: times' => Forall (still_counts cfg t) times' /\ within_cooloff cfg times'
  end.

(** A row found for the request, written at [t], trips the lockout. *)
Definition locked_since (cfg : Settings) (users : gmap string User) (request : HttpRequest)
    (ip : string) (t : Z) (m : gmap positive AccessAttempt) : Prop :=
  exists k a, (k, a) ∈ found cfg request ip m /\ attempt_time a = t
              /\ trips cfg users request (failures_since_start a) = true.

(** An untrusted row of two failures from 198.51.100.4, and the table
    that holds it. *)
Definition two_failures_record : AccessAttempt :=
  {| user_agent := "<unknown>"; ip_address := "198.51.100.4"; username := Some "bob";
     trusted := false; http_accept := "<unknown>"; path_info := "<unknown>";
     attempt_time := 5; get_data := ""; post_data := ""; failures_since_start := 2 |}.

Definition two_failures_store : Store :=
  set_attempts (insert 1%positive two_failures_record) empty_store.

(** A login of carol from 198.51.100.4. *)
Definition carol_request : HttpRequest :=
  mk_request [("REMOTE_ADDR", "198.51.100.4")] [("username", "carol"); ("password", "z")].

(** Settings that lock out by user name and address together. *)
Definition combination_settings : Settings :=
  {| FAILURE_LIMIT := 3; LOCK_OUT_AT_FAILURE := true; USE_USER_AGENT := false;
     USERNAME_FORM_FIELD := "username"; PASSWORD_FORM_FIELD := "password";
     BEHIND_REVERSE_PROXY := false; BEHIND_REVERSE_PROXY_WITH_DIRECT_ACCESS := false;
     REVERSE_PROXY_HEADER := "HTTP_X_FORWARDED_FOR";
     AXES_LOCK_OUT_BY_COMBINATION_USER_AND_IP := true; COOLOFF_TIME := None;
     LOCKOUT_TEMPLATE := None; AXES_LOCKOUT_URL := None; ONLY_WHITELIST := false;
     IP_WHITELIST := None; IP_BLACKLIST := None; AUTH_PROFILE_MODULE := false |}.

(** * Properties *)

(** ** Running monadic code *)

Lemma bind_inr {A B} (m : M A) (k : A -> M B) s a s' :
  m s = (inr a, s') -> bind m k s = k a s'.
Proof. intros H. unfold bind. by rewrite H. Qed.

Lemma bind_inl {A B} (m : M A) (k : A -> M B) s e s' :
  m s = (inl e, s') -> bind m k s = (inl e, s').
Proof. intros H. unfold bind. by rewrite H. Qed.

(** ** The address of a request behind a reverse proxy *)

Lemma get_ip_proxy_empty cfg request :
  BEHIND_REVERSE_PROXY cfg = true ->
  proxy_header_ip cfg request = "" ->
  get_ip cfg request =
    if negb (BEHIND_REVERSE_PROXY_WITH_DIRECT_ACCESS cfg) then
      inl (Warning (header_missing_msg cfg))
    else
      match IP_WHITELIST cfg with
      | None => inl TypeError
      | Some whitelist =>
          if negb (bool_decide (Py.dict_get (META request) "REMOTE_ADDR" "" ∈ whitelist))
          then inl (Warning (not_whitelisted_msg (Py.dict_get (META request) "REMOTE_ADDR" "")))
          else inr (Py.dict_get (META request) "REMOTE_ADDR" "")
      end.
Proof.
  unfold proxy_header_ip, get_ip. intros -> ->. reflexivity.
Qed.

(** When [get_ip] raises, so does everything that starts by calling it,
    and the tables are as they were. *)
Lemma get_ip_raises_everywhere cfg users request e :
  get_ip cfg request = inl e ->
  forall now s,
    _get_user_attempts cfg request s = (inl e, s)
    /\ get_user_attempts cfg now request s = (inl e, s)
    /\ is_already_locked cfg users now request s = (inl e, s)
    /\ (forall login_unsuccessful,
          check_request cfg users now request login_unsuccessful s = (inl e, s))
    /\ (forall failures, create_new_failure_records cfg now request failures s = (inl e, s))
    /\ create_new_trusted_record cfg now request s = (inl e, s)
    /\ (forall func, decorated_login cfg users func now request s = (inl e, s)).
Proof.
  intros Hip now s.
  assert (H1 : _get_user_attempts cfg request s = (inl e, s)).
  { unfold _get_user_attempts. by rewrite Hip. }
  assert (H3 : is_already_locked cfg users now request s = (inl e, s)).
  { unfold is_already_locked. by rewrite Hip. }
  repeat split; try done.
  - unfold get_user_attempts. by rewrite (bind_inl _ _ _ _ _ H1).
  - intros b. unfold check_request. by rewrite Hip.
  - intros f. unfold create_new_failure_records. by rewrite Hip.
  - unfold create_new_trusted_record. by rewrite Hip.
  - intros func. unfold decorated_login. by rewrite (bind_inl _ _ _ _ _ H3).
Qed.

(** C8.  Behind a reverse proxy, with direct access not permitted, a
    request whose proxy header gives no address makes [get_ip] raise the
    "could not find an HTTP header value" warning; no address is
    returned in its place, and the exception escapes from every function
    of the module that resolves the address, the decorated view
    included, with nothing written to the tables. *)
Theorem reverse_proxy_header_missing_raises cfg users request :
  BEHIND_REVERSE_PROXY cfg = true ->
  BEHIND_REVERSE_PROXY_WITH_DIRECT_ACCESS cfg = false ->
  proxy_header_ip cfg request = "" ->
  let e := Warning (header_missing_msg cfg) in
  get_ip cfg request = inl e
  /\ (forall ip, get_ip cfg request <> inr ip)
  /\ forall now s,
       get_user_attempts cfg now request s = (inl e, s)
       /\ is_already_locked cfg users now request s = (inl e, s)
       /\ (forall login_unsuccessful,
             check_request cfg users now request login_unsuccessful s = (inl e, s))
       /\ (forall func, decorated_login cfg users func now request s = (inl e, s)).
Proof.
  intros Hproxy Hdirect Hempty e.
  assert (Hip : get_ip cfg request = inl e).
  { rewrite get_ip_proxy_empty by done. by rewrite Hdirect. }
  split; [done|]. split; [intros ip; by rewrite Hip|].
  intros now s.
  destruct (get_ip_raises_everywhere cfg users request e Hip now s)
    as (_ & H2 & H3 & H4 & _ & _ & H7).
  done.
Qed.

Lemma reverse_proxy_header_missing_witness :
  get_ip proxy_settings (mk_request [("REMOTE_ADDR", "198.51.100.4")] [])
  = inl (Warning (header_missing_msg proxy_settings)).
Proof.
  exact (proj1 (reverse_proxy_header_missing_raises proxy_settings ∅
                  (mk_request [("REMOTE_ADDR", "198.51.100.4")] [])
                  eq_refl eq_refl eq_refl)).
Defined.

(** C10.  Behind a reverse proxy with direct access permitted, a request
    whose proxy header gives no address is tested against [IP_WHITELIST]
    as it is: with no list configured the test raises [TypeError], not
    the "not on the white list" warning; with a list configured the
    connection address is returned when it is on the list and the
    warning is raised when it is not. *)
Theorem direct_access_needs_a_whitelist cfg request :
  BEHIND_REVERSE_PROXY cfg = true ->
  BEHIND_REVERSE_PROXY_WITH_DIRECT_ACCESS cfg = true ->
  proxy_header_ip cfg request = "" ->
  let remote_addr := Py.dict_get (META request) "REMOTE_ADDR" "" in
  (IP_WHITELIST cfg = None ->
     get_ip cfg request = inl TypeError
     /\ forall msg, get_ip cfg request <> inl (Warning msg))
  /\ (forall whitelist, IP_WHITELIST cfg = Some whitelist ->
        (remote_addr ∈ whitelist -> get_ip cfg request = inr remote_addr)
        /\ (remote_addr ∉ whitelist ->
              get_ip cfg request = inl (Warning (not_whitelisted_msg remote_addr)))).
Proof.
  intros Hproxy Hdirect Hempty remote_addr.
  rewrite get_ip_proxy_empty by done. rewrite Hdirect. simpl.
  split.
  - intros ->. split; [done|]. intros msg. discriminate.
  - intros whitelist ->. fold remote_addr. split; intros Hin.
    + by rewrite bool_decide_true.
    + by rewrite bool_decide_false.
Qed.

Lemma direct_access_needs_a_whitelist_witness :
  get_ip direct_access_settings (mk_request [("REMOTE_ADDR", "198.51.100.4")] [])
  = inl TypeError.
Proof.
  exact (proj1 (proj1 (direct_access_needs_a_whitelist direct_access_settings
                         (mk_request [("REMOTE_ADDR", "198.51.100.4")] [])
                         eq_refl eq_refl eq_refl) eq_refl)).
Defined.

(** ** The address lists *)

Lemma ip_in_whitelist_false cfg ip :
  ip_in_whitelist cfg ip = false <->
  forall whitelist, IP_WHITELIST cfg = Some whitelist -> ip ∉ whitelist.
Proof.
  unfold ip_in_whitelist. destruct (IP_WHITELIST cfg) as [wl|]; split.
  - intros H ? [= <-]. by apply bool_decide_eq_false in H.
  - intros H. apply bool_decide_eq_false. by apply H.
  - by intros _ ? [=].
  - done.
Qed.

Lemma ip_in_blacklist_true cfg ip :
  ip_in_blacklist cfg ip = true <->
  exists blacklist, IP_BLACKLIST cfg = Some blacklist /\ ip ∈ blacklist.
Proof.
  unfold ip_in_blacklist. destruct (IP_BLACKLIST cfg) as [bl|]; split.
  - intros H. exists bl. split; [done|]. by apply bool_decide_eq_true in H.
  - intros (? & [= <-] & H). by apply bool_decide_eq_true.
  - done.
  - by intros (? & [=] & _).
Qed.

(** C7.  Whatever the tables hold, [is_already_locked] answers [True]
    for a request whose address is not on the allow-list while
    [ONLY_WHITELIST] is set (an absent list has no address on it), and
    for a request whose address is on the deny-list.  It answers before
    any lookup of attempt records: the tables, the count of lookups
    included, are as they were. *)
Theorem exemption_checks_come_first cfg users now request ip s :
  get_ip cfg request = inr ip ->
  (ONLY_WHITELIST cfg = true
   /\ forall whitelist, IP_WHITELIST cfg = Some whitelist -> ip ∉ whitelist)
  \/ (exists blacklist, IP_BLACKLIST cfg = Some blacklist /\ ip ∈ blacklist) ->
  is_already_locked cfg users now request s = (inr true, s)
  /\ lookups (snd (is_already_locked cfg users now request s)) = lookups s.
Proof.
  intros Hip Hlist.
  assert (H : is_already_locked cfg users now request s = (inr true, s)).
  { unfold is_already_locked. rewrite Hip. simpl. unfold bind at 1. simpl.
    destruct Hlist as [[Honly Hwl] | Hbl].
    - apply ip_in_whitelist_false in Hwl. by rewrite Honly, Hwl.
    - apply ip_in_blacklist_true in Hbl. rewrite Hbl.
      by destruct (ONLY_WHITELIST cfg && negb (ip_in_whitelist cfg ip)). }
  by rewrite H.
Qed.

Lemma exemption_checks_come_first_witness :
  is_already_locked whitelist_only_settings ∅ 0
    (mk_request [("REMOTE_ADDR", "203.0.113.10")] []) empty_store
  = (inr true, empty_store).
Proof.
  refine (proj1 (exemption_checks_come_first whitelist_only_settings ∅ 0
                   (mk_request [("REMOTE_ADDR", "203.0.113.10")] []) "203.0.113.10"
                   empty_store _ _)).
  - vm_compute. reflexivity.
  - left. split; [reflexivity|]. intros whitelist [= <-].
    intros Hin. apply list_elem_of_In in Hin. simpl in Hin.
    destruct Hin as [Hin | []]. discriminate Hin.
Defined.

(** ** Stripping *)

Global Arguments Py.startswith_any : simpl never.
Global Arguments Py.strip : simpl never.
Global Arguments Py.dict_get : simpl never.
Global Arguments is_valid_ip : simpl never.

Lemma lstrip_head s :
  Py.lstrip s = "" \/ exists c t, Py.lstrip s = String c t /\ Py.isspace c = false.
Proof.
  induction s as [|c s IH]; simpl; [by left|].
  destruct (Py.isspace c) eqn:Hc; [done|]. right. by exists c, s.
Qed.

Lemma rstrip_head c t :
  Py.isspace c = false -> exists t', Py.rstrip (String c t) = String c t'.
Proof.
  intros Hc. simpl. rewrite Hc. destruct (Py.rstrip t); eauto.
Qed.

Lemma rstrip_idemp s : Py.rstrip (Py.rstrip s) = Py.rstrip s.
Proof.
  induction s as [|c s IH]; simpl; [done|].
  destruct (Py.rstrip s) as [|d r] eqn:Hr.
  - destruct (Py.isspace c) eqn:Hc; simpl; [done|]. by rewrite Hc.
  - change (Py.rstrip (String c (String d r))) with
      (match Py.rstrip (String d r) with
       | "" => if Py.isspace c then "" else String c ""
       | r' => String c r'
       end).
    by rewrite IH.
Qed.

Lemma strip_idemp s : Py.strip (Py.strip s) = Py.strip s.
Proof.
  unfold Py.strip.
  destruct (lstrip_head s) as [-> | (c & t & -> & Hc)]; [done|].
  destruct (rstrip_head c t Hc) as [t' Ht']. rewrite Ht'.
  simpl Py.lstrip. rewrite Hc, <- Ht'. apply rstrip_idemp.
Qed.

(** ** Resolving the address without a proxy *)

Lemma is_valid_ip_strip s : is_valid_ip (Py.strip s) = is_valid_ip s.
Proof. unfold is_valid_ip. by rewrite strip_idemp. Qed.

Lemma is_valid_ip_truthy s : is_valid_ip s = true -> Py.truthy (Py.strip s) = true.
Proof.
  unfold is_valid_ip. destruct (Py.strip s); [discriminate|done].
Qed.

Lemma scan_ips_find ips :
  scan_ips ips = match List.find kept ips with Some ip => ip | None => "" end.
Proof.
  induction ips as [|ip ips IH]; [done|].
  cbn [scan_ips List.find]. unfold kept at 1.
  destruct (Py.startswith_any ip PRIVATE_IPS_PREFIX); cbn [negb andb]; [done|].
  by destruct (is_valid_ip ip).
Qed.

Lemma find_kept_stripped l ip :
  List.find kept (List.map Py.strip l) = Some ip ->
  Py.strip ip = ip /\ Py.truthy ip = true.
Proof.
  intros H. apply find_some in H as [Hin Hk].
  apply in_map_iff in Hin as (x & <- & _).
  rewrite strip_idemp. split; [done|].
  apply andb_true_iff in Hk as [_ Hv]. rewrite is_valid_ip_strip in Hv.
  by apply is_valid_ip_truthy.
Qed.

Lemma kept_truthy s : kept s = true -> Py.truthy s = true /\ Py.truthy (Py.strip s) = true.
Proof.
  intros [_ Hv]%andb_true_iff. split; [|by apply is_valid_ip_truthy].
  destruct s; [discriminate Hv|done].
Qed.

Lemma get_ip_address_from_request_in_order request :
  get_ip_address_from_request request = resolve_in_order request.
Proof.
  unfold get_ip_address_from_request, resolve_in_order, forwarded_candidates.
  set (xff := Py.dict_get (META request) "HTTP_X_FORWARDED_FOR" "").
  set (real := Py.dict_get (META request) "HTTP_X_REAL_IP" "").
  set (remote := Py.dict_get (META request) "REMOTE_ADDR" "").
  assert (Htail : forall ip0, Py.truthy ip0 = false ->
    (let ip1 := if negb (Py.truthy ip0) then
                  if Py.truthy real then
                    if negb (Py.startswith_any real PRIVATE_IPS_PREFIX) && is_valid_ip real
                    then Py.strip real else ip0
                  else ip0
                else ip0 in
     let ip2 := if negb (Py.truthy ip1) then
                  if Py.truthy remote then
                    let ip3 := if negb (Py.startswith_any remote PRIVATE_IPS_PREFIX)
                                  && is_valid_ip remote
                               then Py.strip remote else ip1 in
                    if Py.startswith_any remote PRIVATE_IPS_PREFIX && is_valid_ip remote
                    then Py.strip remote else ip3
                  else ip1
                else ip1 in
     if negb (Py.truthy ip2) then "127.0.0.1" else ip2)
    = if kept real then Py.strip real
      else if is_valid_ip remote then Py.strip remote else "127.0.0.1").
  { intros ip0 H0. simpl. rewrite H0. simpl. fold (kept real).
    destruct (kept real) eqn:Hk.
    - destruct (kept_truthy _ Hk) as [-> Hs]. simpl. by repeat (rewrite Hs; simpl).
    - assert ((if Py.truthy real then ip0 else ip0) = ip0) as -> by by destruct (Py.truthy real).
      rewrite H0. simpl.
      destruct (is_valid_ip remote) eqn:Hv.
      + pose proof (is_valid_ip_truthy _ Hv) as Hs.
        assert (Py.truthy remote = true) as -> by (destruct remote; [discriminate Hv|done]).
        destruct (Py.startswith_any remote PRIVATE_IPS_PREFIX); simpl;
          by repeat (rewrite Hs; simpl).
      + rewrite !andb_false_r.
        assert ((if Py.truthy remote then ip0 else ip0) = ip0) as -> by by destruct (Py.truthy remote).
        by rewrite H0. }
  destruct (Py.truthy xff && negb (Py.contains "," xff)) eqn:Hsingle.
  - simpl List.find. fold (kept xff).
    destruct (kept xff) eqn:Hk.
    + destruct (kept_truthy _ Hk) as [_ Ht]. simpl. by repeat (rewrite Ht; simpl).
    + by apply Htail.
  - rewrite scan_ips_find.
    destruct (List.find kept _) as [ip|] eqn:Hf.
    + destruct (find_kept_stripped _ _ Hf) as [-> Ht]. simpl. by repeat (rewrite Ht; simpl).
    + by apply Htail.
Qed.

Lemma find_kept_first (skipped : list string) ip rest :
  Forall (fun c => kept c = false) skipped -> kept ip = true ->
  List.find kept (skipped ++ ip :: rest) = Some ip.
Proof.
  induction 1 as [|c skipped Hc _ IH]; intros Hk; simpl.
  - by rewrite Hk.
  - rewrite Hc. by apply IH.
Qed.

Lemma find_kept_none (candidates : list string) :
  Forall (fun c => kept c = false) candidates -> List.find kept candidates = None.
Proof.
  induction 1 as [|c l Hc _ IH]; simpl; [done|]. by rewrite Hc.
Qed.

Lemma resolve_in_order_nonempty request : resolve_in_order request <> "".
Proof.
  unfold resolve_in_order.
  destruct (List.find kept _) as [ip|] eqn:Hf.
  - apply find_some in Hf as [_ Hk]. apply kept_truthy in Hk as [_ Hk].
    by destruct (Py.strip ip).
  - simpl. destruct (kept _) eqn:Hk.
    + apply kept_truthy in Hk as [_ Hk]. by destruct (Py.strip _).
    + destruct (is_valid_ip _) eqn:Hv; [|done].
      apply is_valid_ip_truthy in Hv. by destruct (Py.strip _).
Qed.

(** C3.  Without a reverse proxy [get_ip] never raises and never
    returns the empty string.  Its result is the first candidate of the
    forwarded-for header that is kept (the single value, or the
    comma-separated entries in order; [kept] means: no private prefix
    and valid), taken stripped; with no such candidate, the
    real-client-IP header if it is kept; else the connection address if
    it is valid, private prefix or not; else 127.0.0.1. *)
Theorem ip_resolution_without_proxy cfg request :
  BEHIND_REVERSE_PROXY cfg = false ->
  let result := get_ip_address_from_request request in
  let x_real_ip := Py.dict_get (META request) "HTTP_X_REAL_IP" "" in
  let remote_addr := Py.dict_get (META request) "REMOTE_ADDR" "" in
  get_ip cfg request = inr result
  /\ result <> ""
  /\ result = resolve_in_order request
  /\ (forall skipped ip rest,
        forwarded_candidates request = skipped ++ ip :: rest ->
        Forall (fun c => kept c = false) skipped ->
        kept ip = true ->
        result = Py.strip ip)
  /\ (Forall (fun c => kept c = false) (forwarded_candidates request) ->
        (kept x_real_ip = true -> result = Py.strip x_real_ip)
        /\ (kept x_real_ip = false -> is_valid_ip remote_addr = true ->
              result = Py.strip remote_addr)
        /\ (kept x_real_ip = false -> is_valid_ip remote_addr = false ->
              result = "127.0.0.1")).
Proof.
  intros Hproxy result x_real_ip remote_addr.
  assert (Hres : result = resolve_in_order request)
    by apply get_ip_address_from_request_in_order.
  split; [unfold get_ip; by rewrite Hproxy|].
  split; [rewrite Hres; apply resolve_in_order_nonempty|].
  split; [done|]. rewrite Hres. unfold resolve_in_order. split.
  - intros skipped ip rest -> Hskipped Hk.
    by rewrite (find_kept_first _ _ _ Hskipped Hk).
  - intros Hnone. rewrite (find_kept_none _ Hnone).
    fold x_real_ip remote_addr. cbv zeta.
    repeat split.
    + by intros ->.
    + by intros -> ->.
    + by intros -> ->.
Qed.

Lemma ip_resolution_without_proxy_witness :
  get_ip default_settings
    (mk_request [("HTTP_X_FORWARDED_FOR", "10.0.0.5, 203.0.113.9")] [])
  = inr "203.0.113.9".
Proof.
  exact (proj1 (ip_resolution_without_proxy default_settings
                  (mk_request [("HTTP_X_FORWARDED_FOR", "10.0.0.5, 203.0.113.9")] [])
                  eq_refl)).
Defined.

(** ** The texts [inet_aton] accepts *)

Lemma app_nil_l_s (s : string) : "" +:+ s = s.
Proof. reflexivity. Qed.

Lemma app_cons_s c (s t : string) : String c s +:+ t = String c (s +:+ t).
Proof. reflexivity. Qed.

Lemma app_assoc_s (s t u : string) : (s +:+ t) +:+ u = s +:+ (t +:+ u).
Proof. induction s as [|c s IH]; [done|]. by rewrite !app_cons_s, IH. Qed.

Lemma stops_no_digit d base :
  stops d = true -> Inet.digit_val base d = None /\ Inet.is_x d = false.
Proof.
  destruct d as [[] [] [] [] [] [] [] []]; intros H; try discriminate H;
    unfold Inet.digit_val; (split; [destruct (base =? 16)|]); reflexivity.
Qed.

Lemma is_digit_val c : Inet.is_digit c = true -> is_Some (Inet.digit_val 10 c).
Proof.
  destruct c as [[] [] [] [] [] [] [] []]; intros H; try discriminate H;
    vm_compute; eauto.
Qed.

Lemma digit_val_not_x c base d :
  Inet.digit_val base c = Some d -> base = 8 \/ base = 10 \/ base = 16 -> Inet.is_x c = false.
Proof.
  intros H Hb.
  destruct c as [[] [] [] [] [] [] [] []]; try reflexivity;
    destruct Hb as [-> | [-> | ->]]; vm_compute in H; discriminate H.
Qed.

Lemma digits_value_of base p : forall acc v rest,
  value_of base acc p = Some v ->
  (forall c t, rest = String c t -> Inet.digit_val base c = None) ->
  Inet.digits base acc (p +:+ rest) = (v, rest).
Proof.
  induction p as [|c p IH]; intros acc v rest Hv Hrest.
  - injection Hv as <-. rewrite app_nil_l_s.
    destruct rest as [|d t]; [done|]. simpl. by rewrite (Hrest d t).
  - rewrite app_cons_s. simpl in *.
    destruct (Inet.digit_val base c); [|discriminate]. by apply IH.
Qed.

Lemma digits_inv base s : forall acc v rest,
  Inet.digits base acc s = (v, rest) ->
  exists p, s = p +:+ rest /\ value_of base acc p = Some v
            /\ (forall c t, s = String c t -> is_Some (Inet.digit_val base c) -> p <> "").
Proof.
  induction s as [|c s IH]; intros acc v rest H; simpl in H.
  - injection H as <- <-. exists "". repeat split. by intros ? ? [=].
  - destruct (Inet.digit_val base c) as [d|] eqn:Hd.
    + apply IH in H as (p & -> & Hp & _). exists (String c p).
      rewrite app_cons_s. split; [done|]. split; [simpl; by rewrite Hd|done].
    + injection H as <- <-. exists "". repeat split.
      intros ? ? [= <- <-] [? Hsome]. rewrite Hd in Hsome. discriminate.
Qed.

Lemma value_of_head base acc c t v :
  value_of base acc (String c t) = Some v -> is_Some (Inet.digit_val base c).
Proof. simpl. destruct (Inet.digit_val base c); [eauto|discriminate]. Qed.

Lemma c_number_head p v :
  c_number p v -> exists c t, p = String c t /\ Inet.is_digit c = true.
Proof.
  intros [(x & h & -> & _) | [(o & -> & _) | (c & t & -> & Hc & _)]]; eauto.
Qed.

Lemma ends_number_digit rest base c t :
  ends_number rest -> rest = String c t -> Inet.digit_val base c = None.
Proof.
  intros [-> | (d & t' & -> & Hd)] [=]; subst. by apply stops_no_digit.
Qed.

Lemma strtoul0_complete p v rest :
  c_number p v -> ends_number rest -> Inet.strtoul0 (p +:+ rest) = (v, rest).
Proof.
  intros [(x & h & -> & Hx & Hh & Hv) | [(o & -> & Hv) | (c & t & -> & Hc & Hz & Hv)]] Hrest.
  - destruct h as [|h0 h]; [done|]. rewrite !app_cons_s.
    unfold Inet.strtoul0. rewrite Ascii.eqb_refl, Hx.
    rewrite (bool_decide_true _ (value_of_head _ _ _ _ _ Hv)). simpl andb. cbv iota.
    rewrite <- app_cons_s. apply digits_value_of; [done|].
    intros. by eapply ends_number_digit.
  - rewrite app_cons_s. unfold Inet.strtoul0. rewrite Ascii.eqb_refl.
    assert (Hd : Inet.digits 8 0 (o +:+ rest) = (v, rest)).
    { apply digits_value_of; [done|]. intros. by eapply ends_number_digit. }
    destruct (o +:+ rest) as [|x [|h t]] eqn:Hor; [done..|].
    assert (Inet.is_x x = false) as ->; [|done].
    destruct o as [|x' o].
    + rewrite app_nil_l_s in Hor. destruct Hrest as [-> | (d & t' & -> & Hd')]; [done|].
      injection Hor as -> _. by apply (stops_no_digit _ 8).
    + rewrite app_cons_s in Hor. injection Hor as -> _.
      destruct (value_of_head _ _ _ _ _ Hv) as [d Hd']. eapply digit_val_not_x; eauto.
  - rewrite app_cons_s. unfold Inet.strtoul0.
    apply Ascii.eqb_neq in Hz. rewrite Hz. rewrite <- app_cons_s.
    apply digits_value_of; [done|]. intros. by eapply ends_number_digit.
Qed.

Lemma strtoul0_sound c t v rest :
  Inet.is_digit c = true -> Inet.strtoul0 (String c t) = (v, rest) ->
  exists p, String c t = p +:+ rest /\ c_number p v.
Proof.
  intros Hc H. unfold Inet.strtoul0 in H.
  destruct (Ascii.eqb c "0") eqn:Hz.
  - apply Ascii.eqb_eq in Hz as ->.
    assert (Hoct : Inet.digits 8 0 t = (v, rest) ->
            exists p, String "0" t = p +:+ rest /\ c_number p v).
    { intros (p & -> & Hp & _)%digits_inv. exists (String "0" p).
      split; [done|]. right; left. eauto. }
    destruct t as [|x [|h t]]; [by apply Hoct..|].
    destruct (Inet.is_x x && bool_decide (is_Some (Inet.digit_val 16 h))) eqn:Hcond;
      [|by apply Hoct].
    apply andb_true_iff in Hcond as [Hx Hh]. apply bool_decide_eq_true in Hh.
    apply digits_inv in H as (p & Heq & Hp & Hne).
    exists (String "0" (String x p)). rewrite !app_cons_s, <- Heq. split; [done|].
    left. exists x, p. repeat split; try done. by eapply Hne.
  - apply digits_inv in H as (p & Heq & Hp & Hne).
    exists p. split; [done|]. right; right.
    destruct p as [|c' p']; [by destruct (Hne c t eq_refl (is_digit_val _ Hc))|].
    rewrite app_cons_s in Heq. injection Heq as <- _.
    exists c, p'. repeat split; try done. by apply Ascii.eqb_neq.
Qed.

Lemma aton_loop_unfold room c t :
  Inet.aton_loop room (String c t) =
    if negb (Inet.is_digit c) then false
    else
      let '(val, rest) := Inet.strtoul0 (String c t) in
      if 4294967295 <? val then false
      else
        match rest with
        | String d rest' =>
            if Ascii.eqb d "." then
              match room with
              | O => false
              | S room' => if 255 <? val then false else Inet.aton_loop room' rest'
              end
            else Inet.c_isspace d && (val <=? Inet.max_last (3 - room))
        | EmptyString => val <=? Inet.max_last (3 - room)
        end.
Proof. by destruct room. Qed.

Lemma max_last_le pp : Inet.max_last pp <= 4294967295.
Proof. destruct pp as [|[|[|pp]]]; simpl; lia. Qed.

Lemma shape_nonempty room vs : shape room vs -> vs <> [].
Proof. destruct vs; simpl; [tauto|discriminate]. Qed.

Lemma join_cons (p : string) (ps : list string) :
  ps <> [] -> Py.join "." (p :: ps) = p +:+ "." +:+ Py.join "." ps.
Proof. by destruct ps. Qed.

Lemma aton_loop_sound room : forall s,
  Inet.aton_loop room s = true ->
  exists (nums : list (string * Z)) (trailer : string),
    s = Py.join "." (fst <$> nums) +:+ trailer
    /\ trailer_ok trailer
    /\ Forall (fun pv => c_number (fst pv) (snd pv)) nums
    /\ shape room (snd <$> nums).
Proof.
  induction room as [|room IH]; intros [|c t] H; try discriminate H;
    rewrite aton_loop_unfold in H;
    (destruct (Inet.is_digit c) eqn:Hc; [|discriminate H]); simpl negb in H; cbv iota in H;
    (destruct (Inet.strtoul0 (String c t)) as [v rest] eqn:Hs);
    (destruct (strtoul0_sound _ _ _ _ Hc Hs) as (p & Heq & Hp));
    (destruct (4294967295 <? v) eqn:Hmax; [discriminate H|]);
    destruct rest as [|d rest'].
  - exists [(p, v)], "". repeat split; try done; [by left|by constructor|].
    simpl. by apply Z.leb_le.
  - destruct (Ascii.eqb d ".") eqn:Hd; [discriminate H|].
    apply andb_true_iff in H as [Hsp Hv].
    exists [(p, v)], (String d rest'). repeat split; try done.
    + right. eauto.
    + by constructor.
    + simpl. by apply Z.leb_le.
  - exists [(p, v)], "". repeat split; try done; [by left|by constructor|].
    simpl. by apply Z.leb_le.
  - destruct (Ascii.eqb d ".") eqn:Hd.
    + apply Ascii.eqb_eq in Hd as ->.
      destruct (255 <? v) eqn:Hbyte; [discriminate H|].
      apply IH in H as (nums & trailer & -> & Htr & Hnums & Hshape).
      exists ((p, v) :: nums), trailer.
      pose proof (shape_nonempty _ _ Hshape) as Hne.
      split; [|split; [done|split; [by constructor|]]].
      * rewrite fmap_cons, join_cons by (by destruct nums).
        rewrite Heq. by rewrite !app_assoc_s.
      * rewrite fmap_cons. simpl. destruct (snd <$> nums) eqn:E; [done|].
        split; [|done]. apply Z.ltb_ge in Hbyte. done.
    + apply andb_true_iff in H as [Hsp Hv].
      exists [(p, v)], (String d rest'). repeat split; try done.
      * right. eauto.
      * by constructor.
      * simpl. by apply Z.leb_le.
Qed.

Lemma trailer_ends_number trailer : trailer_ok trailer -> ends_number trailer.
Proof.
  intros [-> | (c & t & -> & Hc)]; [by left|]. right. exists c, t. split; [done|].
  unfold stops. by rewrite Hc, orb_true_r.
Qed.

Lemma c_isspace_not_dot d : Inet.c_isspace d = true -> Ascii.eqb d "." = false.
Proof. destruct d as [[] [] [] [] [] [] [] []]; intros H; try discriminate H; reflexivity. Qed.

Lemma aton_loop_complete room : forall (nums : list (string * Z)) (trailer : string),
  trailer_ok trailer ->
  Forall (fun pv => c_number (fst pv) (snd pv)) nums ->
  shape room (snd <$> nums) ->
  Inet.aton_loop room (Py.join "." (fst <$> nums) +:+ trailer) = true.
Proof.
  induction room as [|room IH]; intros [|[p v] nums] trailer Htr Hnums Hshape;
    try done; apply Forall_cons in Hnums as [Hp Hnums]; simpl in Hp;
    destruct (c_number_head _ _ Hp) as (c & t & -> & Hc);
    rewrite fmap_cons in *; cbn [fst snd] in *.
  - destruct nums as [|q nums]; [|done].
    assert (Hv : v <= Inet.max_last (3 - 0)) by exact Hshape.
    pose proof (max_last_le (3 - 0)). simpl Py.join.
    rewrite app_cons_s, aton_loop_unfold, Hc. simpl negb. cbv iota.
    rewrite <- app_cons_s, (strtoul0_complete _ _ _ Hp (trailer_ends_number _ Htr)).
    assert ((4294967295 <? v) = false) as -> by (apply Z.ltb_ge; lia).
    destruct Htr as [-> | (d & t' & -> & Hd)]; [by apply Z.leb_le|].
    rewrite (c_isspace_not_dot _ Hd), Hd. by apply Z.leb_le.
  - destruct nums as [|q nums].
    + assert (Hv : v <= Inet.max_last (3 - S room)) by exact Hshape.
      pose proof (max_last_le (3 - S room)). simpl Py.join.
      rewrite app_cons_s, aton_loop_unfold, Hc. simpl negb. cbv iota.
      rewrite <- app_cons_s, (strtoul0_complete _ _ _ Hp (trailer_ends_number _ Htr)).
      assert ((4294967295 <? v) = false) as -> by (apply Z.ltb_ge; lia).
      destruct Htr as [-> | (d & t' & -> & Hd)]; [by apply Z.leb_le|].
      rewrite (c_isspace_not_dot _ Hd), Hd. by apply Z.leb_le.
    + rewrite join_cons by done. rewrite !app_assoc_s.
      destruct Hshape as [Hv Hshape]. cbn [snd] in Hv.
      rewrite app_cons_s, aton_loop_unfold, Hc. simpl negb. cbv iota.
      rewrite <- app_cons_s.
      rewrite (strtoul0_complete (String c t) v).
      * assert ((4294967295 <? v) = false) as -> by (apply Z.ltb_ge; lia).
        rewrite app_cons_s. rewrite Ascii.eqb_refl.
        assert ((255 <? v) = false) as -> by (apply Z.ltb_ge; lia).
        rewrite app_nil_l_s. by apply IH.
      * done.
      * right. eexists _, _. split; [by rewrite app_cons_s|]. reflexivity.
Qed.

Lemma shape_bounds vs : shape 3 vs <-> bounds vs.
Proof.
  destruct vs as [|a [|b [|c [|d [|e vs]]]]]; simpl; intuition.
Qed.

Lemma inet_aton_spec s :
  Inet.inet_aton s = true <-> Py.contains zero s = false /\ numbers_and_dots s.
Proof.
  unfold Inet.inet_aton, numbers_and_dots. rewrite andb_true_iff, negb_true_iff.
  split; intros [Hz H]; (split; [done|]).
  - apply aton_loop_sound in H as (nums & trailer & ? & ? & ? & ?%shape_bounds). eauto 10.
  - destruct H as (nums & trailer & -> & ? & ? & ?%shape_bounds).
    by apply aton_loop_complete.
Qed.

(** C4, as amended.  [is_valid_ip] accepts a string exactly when the
    string, stripped of surrounding white space, has no NUL character
    and is in the numbers-and-dots notation of [inet_aton]: one to four
    dot-separated numbers, each decimal, octal ([0] first) or
    hexadecimal ([0x] first), all but the last at most 255 and the last
    within the bytes that are left, followed by nothing or by a
    white-space character and any text.  A dotted quad of four decimal
    bytes is one such form; it is not the only one. *)
Theorem is_valid_ip_numbers_and_dots s :
  is_valid_ip s = true <->
  Py.contains zero (Py.strip s) = false /\ numbers_and_dots (Py.strip s).
Proof. unfold is_valid_ip. apply inet_aton_spec. Qed.

(** C4 as stated fails: [127.1] is no dotted quad and is accepted. *)
Lemma is_valid_ip_accepts_short_form :
  dotted_quad "127.1" = false /\ is_valid_ip "127.1" = true.
Proof. split; vm_compute; reflexivity. Qed.

(** ** Rows found by a query *)

Lemma elem_of_rows p m k a :
  (k, a) ∈ rows p m <-> m !! k = Some a /\ p a = true.
Proof.
  unfold rows. rewrite list_elem_of_In, filter_In, <- list_elem_of_In.
  by rewrite elem_of_map_to_list.
Qed.

Lemma rows_nil p m :
  rows p m = [] <-> forall k a, m !! k = Some a -> p a = false.
Proof.
  split.
  - intros H k a Hk. destruct (p a) eqn:Hp; [|done].
    assert (Hin : (k, a) ∈ rows p m) by by apply elem_of_rows.
    rewrite H in Hin. by apply not_elem_of_nil in Hin.
  - intros H. destruct (rows p m) as [|[k a] l] eqn:E; [done|].
    assert (Hin : (k, a) ∈ rows p m) by (rewrite E; left).
    apply elem_of_rows in Hin as [Hk Hp]. rewrite (H k a Hk) in Hp. discriminate.
Qed.

Lemma found_cases cfg request ip m :
  (rows (trusted_query cfg request ip) m <> []
   /\ found cfg request ip m = rows (trusted_query cfg request ip) m)
  \/ (rows (trusted_query cfg request ip) m = []
      /\ found cfg request ip m = rows (untrusted_query cfg request ip) m).
Proof. unfold found. destruct (rows (trusted_query _ _ _) m); [by right|by left]. Qed.

Lemma elem_of_found_lookup cfg request ip m k a :
  (k, a) ∈ found cfg request ip m -> m !! k = Some a.
Proof.
  destruct (found_cases cfg request ip m) as [[_ ->] | [_ ->]];
    by intros [? _]%elem_of_rows.
Qed.

Lemma found_functional cfg request ip m k a a' :
  (k, a) ∈ found cfg request ip m -> (k, a') ∈ found cfg request ip m -> a = a'.
Proof. intros H%elem_of_found_lookup H'%elem_of_found_lookup. congruence. Qed.

Lemma trusted_query_trusted cfg request ip a :
  trusted_query cfg request ip a = true -> trusted a = true.
Proof. unfold trusted_query. by intros [_ ?]%andb_true_iff. Qed.

Lemma untrusted_query_untrusted cfg request ip a :
  untrusted_query cfg request ip a = true -> trusted a = false.
Proof.
  unfold untrusted_query. rewrite !andb_true_iff. intros [[[_ H] _] _].
  by apply negb_true_iff.
Qed.

Lemma trusted_query_same_key cfg request ip a b :
  same_key a b -> trusted_query cfg request ip a = trusted_query cfg request ip b.
Proof. unfold trusted_query. by intros (-> & -> & -> & ->). Qed.

Lemma untrusted_query_same_key cfg request ip a b :
  same_key a b -> untrusted_query cfg request ip a = untrusted_query cfg request ip b.
Proof. unfold untrusted_query. by intros (-> & -> & -> & ->). Qed.

(** Rows found are all trusted or all untrusted. *)
Lemma found_uniform cfg request ip m :
  (forall k a, (k, a) ∈ found cfg request ip m -> trusted a = true)
  \/ (forall k a, (k, a) ∈ found cfg request ip m -> trusted a = false).
Proof.
  destruct (found_cases cfg request ip m) as [[_ ->] | [_ ->]]; [left|right];
    intros k a [_ H]%elem_of_rows;
    eauto using trusted_query_trusted, untrusted_query_untrusted.
Qed.

Lemma _get_user_attempts_run cfg request ip s :
  get_ip cfg request = inr ip ->
  _get_user_attempts cfg request s = (inr (found cfg request ip (attempts s)), counted s).
Proof.
  intros Hip. unfold _get_user_attempts, found. rewrite Hip.
  unfold bind, lift, ret, count_lookup, modify, objects_filter. simpl.
  change (List.filter (fun ka => trusted_query cfg request ip ka.2) (map_to_list (attempts s)))
    with (rows (trusted_query cfg request ip) (attempts s)).
  by destruct (rows (trusted_query cfg request ip) (attempts s)).
Qed.

(** ** The lookup *)

Lemma trusted_query_match cfg request ip a :
  trusted_query cfg request ip a = true <-> trusted_match cfg request ip a.
Proof.
  unfold trusted_query, trusted_match. rewrite !andb_true_iff, bool_decide_eq_true.
  rewrite String.eqb_eq.
  destruct (USE_USER_AGENT cfg); [rewrite String.eqb_eq|]; intuition discriminate.
Qed.

Lemma untrusted_query_match cfg request ip a :
  untrusted_query cfg request ip a = true <-> untrusted_match cfg request ip a.
Proof.
  unfold untrusted_query, untrusted_match. rewrite !andb_true_iff, negb_true_iff.
  rewrite String.eqb_eq.
  destruct (USE_USER_AGENT cfg), (should_lock_out_by_combination_user_and_ip cfg);
    rewrite ?String.eqb_eq, ?bool_decide_eq_true; intuition discriminate.
Qed.

(** C2, as amended.  The lookup first takes the trusted rows of the
    request's address and of the submitted user name (always, whatever
    the lockout-by-combination setting), and of its user agent when user
    agents are tracked.  Only when there is no such row does it take the
    untrusted rows of the address, of the user agent when user agents
    are tracked, and of the user name only under lockout by user and
    address. *)
Theorem lookup_trusted_then_untrusted cfg request ip s :
  get_ip cfg request = inr ip ->
  exists result,
    _get_user_attempts cfg request s = (inr result, counted s)
    /\ ((exists k a, attempts s !! k = Some a /\ trusted_match cfg request ip a) ->
        forall k a, (k, a) ∈ result <->
                    attempts s !! k = Some a /\ trusted_match cfg request ip a)
    /\ ((forall k a, attempts s !! k = Some a -> ~ trusted_match cfg request ip a) ->
        forall k a, (k, a) ∈ result <->
                    attempts s !! k = Some a /\ untrusted_match cfg request ip a).
Proof.
  intros Hip. exists (found cfg request ip (attempts s)).
  split; [by apply _get_user_attempts_run|].
  destruct (found_cases cfg request ip (attempts s)) as [[Hne ->] | [Hnil ->]].
  - split.
    + intros _ k a. by rewrite elem_of_rows, trusted_query_match.
    + intros Hnone. exfalso. apply Hne. apply rows_nil. intros k a Hk.
      destruct (trusted_query cfg request ip a) eqn:E; [|done].
      apply trusted_query_match in E. by destruct (Hnone k a Hk).
  - split.
    + intros (k & a & Hk & Hm). apply trusted_query_match in Hm.
      rewrite rows_nil in Hnil. rewrite (Hnil k a Hk) in Hm. discriminate.
    + intros _ k a. by rewrite elem_of_rows, untrusted_query_match.
Qed.

Lemma lookup_trusted_then_untrusted_witness :
  exists result,
    _get_user_attempts default_settings bob_request alice_store
    = (inr result, counted alice_store)
    /\ ((exists k a, attempts alice_store !! k = Some a
                     /\ trusted_match default_settings bob_request "198.51.100.4" a) ->
        forall k a, (k, a) ∈ result <->
                    attempts alice_store !! k = Some a
                    /\ trusted_match default_settings bob_request "198.51.100.4" a)
    /\ ((forall k a, attempts alice_store !! k = Some a ->
                     ~ trusted_match default_settings bob_request "198.51.100.4" a) ->
        forall k a, (k, a) ∈ result <->
                    attempts alice_store !! k = Some a
                    /\ untrusted_match default_settings bob_request "198.51.100.4" a).
Proof.
  apply (lookup_trusted_then_untrusted default_settings bob_request "198.51.100.4" alice_store).
  vm_compute. reflexivity.
Defined.

(** C2 as stated fails: with the default settings the identity key has
    no user name in it, so a lookup by that key finds alice's trusted
    row for bob's request from the same address; [_get_user_attempts]
    asks for bob's name and finds nothing. *)
Lemma trusted_lookup_always_uses_username :
  fst (lookup_by_identity_key default_settings bob_request alice_store)
  = inr [(1%positive, alice_trusted)]
  /\ fst (_get_user_attempts default_settings bob_request alice_store) = inr [].
Proof. split; vm_compute; reflexivity. Qed.

(** ** The cool-off *)

Lemma cooloff_loop_run c now l : forall objects_deleted s,
  cooloff_loop c now l objects_deleted s
  = (inr (cool c now <$> l, objects_deleted || purged c now l),
     fold_left (cool_store c now) l s).
Proof.
  induction l as [|[pk a] l IH]; intros del s.
  - simpl. by rewrite orb_false_r.
  - cbn [cooloff_loop fold_left fmap list_fmap purged existsb].
    unfold cool_store at 2, cool at 1. cbn [fst snd]. fold (expired c now a).
    destruct (expired c now a) eqn:He; [destruct (trusted a) eqn:Ht|].
    + unfold bind at 1, save, modify. rewrite (bind_inr _ _ _ _ _ (IH _ _)).
      unfold ret, purged. simpl. done.
    + unfold bind at 1, delete_attempt, modify. rewrite (bind_inr _ _ _ _ _ (IH _ _)).
      unfold ret, purged. simpl. by rewrite orb_true_r.
    + rewrite (bind_inr _ _ _ _ _ (IH _ _)). unfold ret, purged. simpl. done.
Qed.

Lemma cooloff_enabled_Some cfg c :
  cooloff_enabled cfg = Some c <-> COOLOFF_TIME cfg = Some c /\ c <> 0.
Proof.
  unfold cooloff_enabled. destruct (COOLOFF_TIME cfg) as [c'|].
  - destruct (Z.eqb_spec c' 0) as [->|Hne]; split.
    + discriminate.
    + by intros [[= <-] H].
    + by intros [= <-].
    + by intros [[= <-] _].
  - split; [discriminate|]. by intros [? _].
Qed.

Lemma get_user_attempts_run cfg now request ip s :
  get_ip cfg request = inr ip ->
  get_user_attempts cfg now request s =
    match cooloff_enabled cfg with
    | None => (inr (found cfg request ip (attempts s)), counted s)
    | Some c =>
        let l := found cfg request ip (attempts s) in
        let s1 := fold_left (cool_store c now) l (counted s) in
        if purged c now l
        then (inr (found cfg request ip (attempts s1)), counted s1)
        else (inr (cool c now <$> l), s1)
    end.
Proof.
  intros Hip. unfold get_user_attempts.
  rewrite (bind_inr _ _ _ _ _ (_get_user_attempts_run _ _ _ _ Hip)).
  destruct (cooloff_enabled cfg) as [c|].
  - rewrite (bind_inr _ _ _ _ _ (cooloff_loop_run _ _ _ _ _)). cbn [fst snd orb].
    destruct (purged c now _); [|done]. by apply _get_user_attempts_run.
  - done.
Qed.

Lemma filter_fst_NoDup (f : Attempt -> bool) (l : list Attempt) :
  NoDup l.*1 -> NoDup (List.filter f l).*1.
Proof.
  induction l as [|x l IH]; simpl; [done|].
  rewrite NoDup_cons. intros [Hx Hl]. destruct (f x); [|by apply IH].
  rewrite fmap_cons. apply NoDup_cons. split; [|by apply IH].
  intros (y & Hy & Hin)%list_elem_of_fmap. apply Hx. apply list_elem_of_fmap.
  exists y. split; [done|]. apply list_elem_of_In in Hin. apply filter_In in Hin as [Hin _].
  by apply list_elem_of_In.
Qed.

Lemma rows_NoDup p m : NoDup (rows p m).*1.
Proof. apply filter_fst_NoDup, NoDup_fst_map_to_list. Qed.

Lemma found_NoDup cfg request ip m : NoDup (found cfg request ip m).*1.
Proof.
  destruct (found_cases cfg request ip m) as [[_ ->] | [_ ->]]; apply rows_NoDup.
Qed.

Lemma fold_cool_store_frame c now l : forall s,
  let s' := fold_left (cool_store c now) l s in
  lookups s' = lookups s /\ access_log s' = access_log s
  /\ signals s' = signals s /\ logouts s' = logouts s.
Proof.
  induction l as [|[k a] l IH]; intros s; simpl; [done|].
  destruct (IH (cool_store c now s (k, a))) as (-> & -> & -> & ->).
  unfold cool_store. simpl. by destruct (expired c now a), (trusted a).
Qed.

(** A key that the loop neither resets nor deletes keeps its row. *)
Lemma fold_cool_store_other c now l k : forall s,
  (forall a, (k, a) ∈ l -> expired c now a = false) ->
  attempts (fold_left (cool_store c now) l s) !! k = attempts s !! k.
Proof.
  induction l as [|[k' a'] l IH]; intros s Hk; simpl; [done|].
  rewrite IH by (intros a Ha; apply Hk; by right).
  unfold cool_store. simpl.
  destruct (expired c now a') eqn:He; [|done].
  assert (k' <> k).
  { intros ->. rewrite (Hk a') in He by left. discriminate. }
  destruct (trusted a'); simpl; [by rewrite lookup_insert_ne|by rewrite lookup_delete_ne].
Qed.

Lemma fold_cool_store_not_in c now l k s :
  k ∉ l.*1 ->
  attempts (fold_left (cool_store c now) l s) !! k = attempts s !! k.
Proof.
  intros Hk. apply fold_cool_store_other. intros a Ha. destruct Hk.
  apply list_elem_of_fmap. by exists (k, a).
Qed.

(** An expired row of the list is reset when trusted and deleted when
    not. *)
Lemma fold_cool_store_expired c now l k a : forall s,
  NoDup l.*1 -> (k, a) ∈ l -> expired c now a = true ->
  attempts (fold_left (cool_store c now) l s) !! k
  = if trusted a then Some (set_failures_since_start 0 a) else None.
Proof.
  induction l as [|[k' a'] l IH]; intros s Hnd Hin He; [by apply not_elem_of_nil in Hin|].
  rewrite fmap_cons in Hnd. apply NoDup_cons in Hnd as [Hk' Hnd]. simpl.
  apply elem_of_cons in Hin as [[= <- <-] | Hin].
  - rewrite fold_cool_store_not_in by done.
    unfold cool_store. simpl. rewrite He.
    destruct (trusted a); simpl; [by rewrite lookup_insert_eq|by rewrite lookup_delete_eq].
  - by apply IH.
Qed.

Lemma purged_true c now l :
  purged c now l = true <->
  exists k a, (k, a) ∈ l /\ expired c now a = true /\ trusted a = false.
Proof.
  unfold purged. rewrite existsb_exists. split.
  - intros ([k a] & Hin & [He Ht]%andb_true_iff). exists k, a.
    rewrite list_elem_of_In. by apply negb_true_iff in Ht.
  - intros (k & a & Hin & He & Ht). exists (k, a). rewrite <- list_elem_of_In.
    split; [done|]. simpl. by rewrite He, Ht.
Qed.

Lemma purged_false c now l :
  purged c now l = false <->
  forall k a, (k, a) ∈ l -> expired c now a = true -> trusted a = true.
Proof.
  split.
  - intros H k a Hin He. destruct (trusted a) eqn:Ht; [done|].
    assert (purged c now l = true) by (apply purged_true; eauto).
    congruence.
  - intros H. destruct (purged c now l) eqn:Hp; [|done].
    apply purged_true in Hp as (k & a & Hin & He & Ht).
    rewrite (H k a Hin He) in Ht. discriminate.
Qed.

(** ** Rows found after the rows found were rewritten *)

Lemma list_empty_or_elem {A} (l : list A) : l = [] \/ exists x, x ∈ l.
Proof. destruct l as [|x l]; [by left|]. right. exists x. left. Qed.

Section FoundAfterUpdate.

Context (cfg : Settings) (request : HttpRequest) (ip : string).
Context (g : AccessAttempt -> AccessAttempt) (m m' : gmap positive AccessAttempt).
Hypothesis g_same_key : forall a, same_key (g a) a.
Hypothesis updated : forall k a, (k, a) ∈ found cfg request ip m -> m' !! k = Some (g a).
Hypothesis others : forall k, k ∉ (found cfg request ip m).*1 -> m' !! k = m !! k.

Lemma rows_after_update p k b :
  (forall a, p (g a) = p a) ->
  (k, b) ∈ rows p m' <->
  (exists a, (k, a) ∈ found cfg request ip m /\ b = g a /\ p a = true)
  \/ ((k ∉ (found cfg request ip m).*1) /\ (k, b) ∈ rows p m).
Proof.
  intros Hp. rewrite !elem_of_rows.
  destruct (decide (k ∈ (found cfg request ip m).*1)) as [Hin|Hout].
  - apply list_elem_of_fmap in Hin as ([k' a] & -> & Hin). simpl.
    rewrite (updated _ _ Hin). split.
    + intros [[= <-] Hb]. left. exists a. by rewrite <- Hp.
    + intros [(a' & Hin' & -> & Ha') | [Hout _]].
      * rewrite (found_functional _ _ _ _ _ _ _ Hin Hin'). by rewrite Hp.
      * destruct Hout. apply list_elem_of_fmap. by exists (k', a).
  - rewrite (others _ Hout). split.
    + intros H. by right.
    + intros [(a & Hin & _) | [_ H]]; [|done].
      destruct Hout. apply list_elem_of_fmap. by exists (k, a).
Qed.

Lemma found_after_update k b :
  (k, b) ∈ found cfg request ip m' <->
  exists a, (k, a) ∈ found cfg request ip m /\ b = g a.
Proof.
  assert (Htq : forall a, trusted_query cfg request ip (g a) = trusted_query cfg request ip a)
    by (intros; by apply trusted_query_same_key).
  assert (Huq : forall a, untrusted_query cfg request ip (g a) = untrusted_query cfg request ip a)
    by (intros; by apply untrusted_query_same_key).
  destruct (found_cases cfg request ip m) as [[Hne HF] | [Hnil HF]].
  - (* trusted rows were found *)
    assert (Hrows : forall k b, (k, b) ∈ rows (trusted_query cfg request ip) m' <->
                                exists a, (k, a) ∈ found cfg request ip m /\ b = g a).
    { intros k0 b0. rewrite (rows_after_update _ _ _ Htq). split.
      - intros [(a & Hin & -> & _) | [Hout Hin]]; [eauto|].
        destruct Hout. rewrite HF. apply list_elem_of_fmap. by exists (k0, b0).
      - intros (a & Hin & ->). left. exists a. repeat split; [done|].
        rewrite HF in Hin. by apply elem_of_rows in Hin as [_ ?]. }
    destruct (found_cases cfg request ip m') as [[_ ->] | [Hnil' _]]; [apply Hrows|].
    exfalso. destruct (list_empty_or_elem (rows (trusted_query cfg request ip) m))
      as [E | [[k0 a0] Hin]]; [done|].
    assert (Hin' : (k0, g a0) ∈ rows (trusted_query cfg request ip) m')
      by (apply Hrows; exists a0; by rewrite HF).
    rewrite Hnil' in Hin'. by apply not_elem_of_nil in Hin'.
  - (* only untrusted rows were found *)
    assert (Hnil' : rows (trusted_query cfg request ip) m' = []).
    { destruct (list_empty_or_elem (rows (trusted_query cfg request ip) m'))
        as [E | [[k0 b0] Hin]]; [done|]. exfalso.
      apply (rows_after_update _ _ _ Htq) in Hin as [(a & Hin & _ & Hq) | [_ Hin]].
      - rewrite HF in Hin. apply elem_of_rows in Hin as [_ Hu].
        apply untrusted_query_untrusted in Hu. apply trusted_query_trusted in Hq. congruence.
      - rewrite Hnil in Hin. by apply not_elem_of_nil in Hin. }
    unfold found at 1. rewrite Hnil'. rewrite (rows_after_update _ _ _ Huq). split.
    + intros [(a & Hin & -> & _) | [Hout Hin]]; [eauto|].
      destruct Hout. rewrite HF. apply list_elem_of_fmap. by exists (k, b).
    + intros (a & Hin & ->). left. exists a. repeat split; [done|].
      rewrite HF in Hin. by apply elem_of_rows in Hin as [_ ?].
Qed.

End FoundAfterUpdate.

(** ** What [get_user_attempts] returns and leaves behind *)

Lemma _get_user_attempts_inv cfg request s l s0 :
  _get_user_attempts cfg request s = (inr l, s0) ->
  exists ip, get_ip cfg request = inr ip
             /\ l = found cfg request ip (attempts s) /\ s0 = counted s.
Proof.
  intros H. destruct (get_ip cfg request) as [e|ip] eqn:Hip.
  - unfold _get_user_attempts in H. rewrite Hip in H. discriminate H.
  - rewrite (_get_user_attempts_run _ _ _ _ Hip) in H. injection H as <- <-. eauto.
Qed.

Lemma cool_cool_row c now ka : cool c now ka = (ka.1, cool_row c now ka.2).
Proof. unfold cool, cool_row. destruct ka as [k a]. simpl. by destruct (_ && _). Qed.

Lemma set_failures_same_key n a : same_key (set_failures_since_start n a) a.
Proof. done. Qed.

Lemma cool_row_same_key c now a : same_key (cool_row c now a) a.
Proof. unfold cool_row. by destruct (_ && _). Qed.

(** The records [get_user_attempts] returns are the records a lookup
    finds in the store it leaves behind. *)
Lemma get_user_attempts_consistent cfg now request ip s :
  get_ip cfg request = inr ip ->
  exists result s',
    get_user_attempts cfg now request s = (inr result, s')
    /\ (forall x, x ∈ result <-> x ∈ found cfg request ip (attempts s'))
    /\ NoDup result.*1.
Proof.
  intros Hip. rewrite (get_user_attempts_run _ _ _ _ _ Hip).
  destruct (cooloff_enabled cfg) as [c|]; cbv zeta.
  - destruct (purged c now _) eqn:Hp.
    + eexists _, _. split; [done|]. split; [done|]. apply found_NoDup.
    + eexists _, _. split; [done|]. rewrite purged_false in Hp.
      set (l := found cfg request ip (attempts s)) in *.
      split.
      * intros [k b].
        rewrite (found_after_update cfg request ip (cool_row c now) (attempts s)).
        -- rewrite list_elem_of_fmap. split.
           ++ intros ([k' a] & E & Hin). rewrite cool_cool_row in E.
              injection E as -> ->. eauto.
           ++ intros (a & Hin & ->). exists (k, a). by rewrite cool_cool_row.
        -- apply cool_row_same_key.
        -- intros k' a Hin. fold l in Hin. unfold cool_row.
           destruct (expired c now a) eqn:He.
           ++ rewrite (fold_cool_store_expired c now l k' a) by
                (try done; apply found_NoDup).
              by rewrite (Hp _ _ Hin He).
           ++ rewrite fold_cool_store_other.
              ** by apply elem_of_found_lookup in Hin.
              ** intros a' Hin'. by rewrite (found_functional _ _ _ _ _ _ _ Hin' Hin).
        -- intros k' Hout. by rewrite fold_cool_store_not_in.
      * assert ((cool c now <$> l).*1 = l.*1) as ->; [|apply found_NoDup].
        rewrite <- list_fmap_compose. apply list_fmap_ext.
        intros _ ka _. simpl. by rewrite cool_cool_row.
  - eexists _, _. split; [done|]. split; [done|]. apply found_NoDup.
Qed.

(** C5, as amended.  With a cool-off time that is configured and not
    zero, [get_user_attempts] resets [failures_since_start] of every
    trusted record it looked up whose [attempt_time] plus the cool-off
    time is before now, and keeps the record; it deletes every such
    untrusted record; it leaves the other rows alone.  When a record was
    deleted the lookup runs once more, on the store as cleaned, and its
    result is what is returned; else the records looked up are returned
    as they are in memory after the resets. *)
Theorem cooloff_cleanup cfg now request c matched s0 s :
  COOLOFF_TIME cfg = Some c -> c <> 0 ->
  _get_user_attempts cfg request s = (inr matched, s0) ->
  exists result s',
    get_user_attempts cfg now request s = (inr result, s')
    /\ (forall k a, (k, a) ∈ matched -> attempt_time a + c < now -> trusted a = true ->
          attempts s' !! k = Some (set_failures_since_start 0 a))
    /\ (forall k a, (k, a) ∈ matched -> attempt_time a + c < now -> trusted a = false ->
          attempts s' !! k = None)
    /\ (forall k, (forall a, (k, a) ∈ matched -> ~ attempt_time a + c < now) ->
          attempts s' !! k = attempts s !! k)
    /\ ((exists k a, (k, a) ∈ matched /\ attempt_time a + c < now /\ trusted a = false) ->
          lookups s' = S (S (lookups s))
          /\ exists s1, lookups s1 = S (lookups s) /\ attempts s1 = attempts s'
                        /\ _get_user_attempts cfg request s1 = (inr result, s'))
    /\ (~ (exists k a, (k, a) ∈ matched /\ attempt_time a + c < now /\ trusted a = false) ->
          lookups s' = S (lookups s) /\ result = cool c now <$> matched).
Proof.
  intros Hc Hc0 Hlook0.
  apply _get_user_attempts_inv in Hlook0 as (ip & Hip & -> & ->).
  rewrite (get_user_attempts_run _ _ _ _ _ Hip).
  assert (cooloff_enabled cfg = Some c) as -> by by apply cooloff_enabled_Some.
  cbv zeta. set (l := found cfg request ip (attempts s)).
  set (s1 := fold_left (cool_store c now) l (counted s)).
  assert (Hexp : forall a, attempt_time a + c < now <-> expired c now a = true)
    by (intros; unfold expired; by rewrite Z.ltb_lt).
  assert (Hreset : forall k a, (k, a) ∈ l -> attempt_time a + c < now -> trusted a = true ->
            attempts s1 !! k = Some (set_failures_since_start 0 a)).
  { intros k a Hin He%Hexp Ht. unfold s1.
    rewrite (fold_cool_store_expired c now l k a) by (try done; apply found_NoDup).
    by rewrite Ht. }
  assert (Hdel : forall k a, (k, a) ∈ l -> attempt_time a + c < now -> trusted a = false ->
            attempts s1 !! k = None).
  { intros k a Hin He%Hexp Ht. unfold s1.
    rewrite (fold_cool_store_expired c now l k a) by (try done; apply found_NoDup).
    by rewrite Ht. }
  assert (Hother : forall k, (forall a, (k, a) ∈ l -> ~ attempt_time a + c < now) ->
            attempts s1 !! k = attempts s !! k).
  { intros k Hk. unfold s1. rewrite fold_cool_store_other; [done|].
    intros a Hin. specialize (Hk a Hin). rewrite Hexp in Hk. by destruct (expired c now a). }
  destruct (fold_cool_store_frame c now l (counted s)) as (Hlook & _). fold s1 in Hlook.
  assert (Hpurged : purged c now l = true <->
            exists k a, (k, a) ∈ l /\ attempt_time a + c < now /\ trusted a = false).
  { rewrite purged_true. by setoid_rewrite Hexp. }
  destruct (purged c now l) eqn:Hp.
  - eexists _, (counted s1). split; [done|].
    split; [exact Hreset|]. split; [exact Hdel|]. split; [exact Hother|]. split.
    + intros _. split; [simpl; by rewrite Hlook|].
      exists s1. split; [done|]. split; [done|]. by apply _get_user_attempts_run.
    + intros Hno. destruct Hno. by apply Hpurged.
  - eexists _, s1. split; [done|].
    split; [exact Hreset|]. split; [exact Hdel|]. split; [exact Hother|]. split.
    + intros H. apply Hpurged in H. discriminate.
    + intros _. by split.
Qed.

Lemma cooloff_cleanup_witness :
  exists result s',
    get_user_attempts (cooloff_settings 3) 10 bob_request stale_store = (inr result, s')
    /\ attempts s' !! 1%positive = None
    /\ lookups s' = 2%nat.
Proof.
  destruct (cooloff_cleanup (cooloff_settings 3) 10 bob_request 3
              [(1%positive, stale_record)] (counted stale_store) stale_store
              eq_refl ltac:(discriminate) eq_refl)
    as (result & s' & Hrun & _ & Hdel & _ & Hagain & _).
  exists result, s'. split; [done|]. split.
  - apply (Hdel 1%positive stale_record); [left|reflexivity|reflexivity].
  - apply Hagain. exists 1%positive, stale_record. repeat split. left.
Defined.

(** C5 as stated fails: a cool-off time of zero is configured, the
    record's [attempt_time] plus zero is before now, and the record is
    neither deleted nor is the lookup run again. *)
Lemma zero_cooloff_time_is_no_cooloff :
  COOLOFF_TIME (cooloff_settings 0) = Some 0
  /\ fst (_get_user_attempts (cooloff_settings 0) bob_request stale_store)
     = inr [(1%positive, stale_record)]
  /\ trusted stale_record = false
  /\ attempt_time stale_record + 0 < 10
  /\ attempts (snd (get_user_attempts (cooloff_settings 0) 10 bob_request stale_store))
       !! 1%positive = Some stale_record
  /\ lookups (snd (get_user_attempts (cooloff_settings 0) 10 bob_request stale_store))
     = 1%nat.
Proof. repeat split; vm_compute; reflexivity. Qed.

(** ** Running [check_request] *)

Lemma create_new_failure_records_run cfg now request ip failures s :
  get_ip cfg request = inr ip ->
  create_new_failure_records cfg now request failures s
  = (inr tt, with_new_row (failure_record cfg now request ip failures) s).
Proof. intros Hip. unfold create_new_failure_records. by rewrite Hip. Qed.

Lemma create_new_trusted_record_run cfg now request ip s :
  get_ip cfg request = inr ip ->
  create_new_trusted_record cfg now request s
  = (inr tt,
     match POST_get request (USERNAME_FORM_FIELD cfg) with
     | Some name => if Py.truthy name
                    then with_new_row (trusted_record cfg now request ip name) s else s
     | None => s
     end).
Proof.
  intros Hip. unfold create_new_trusted_record. rewrite Hip.
  unfold bind, lift, ret. simpl.
  destruct (POST_get request (USERNAME_FORM_FIELD cfg)) as [name|]; [|done].
  by destruct (Py.truthy name).
Qed.

Lemma save_loop_run (g : AccessAttempt -> AccessAttempt) l : forall s,
  for_each (fun ka : Attempt => save (fst ka) (g (snd ka)) ;; ret (fst ka, g (snd ka))) l s
  = (inr (prod_map id g <$> l), fold_left (save_row g) l s).
Proof.
  induction l as [|[k a] l IH]; intros s; [done|].
  cbn [for_each]. unfold bind at 1 2, save, modify, ret at 1. cbn [fst snd].
  rewrite (bind_inr _ _ _ _ _ (IH _)). done.
Qed.

Lemma forget_failures_run l : forall trusted_record_exists s,
  forget_failures l trusted_record_exists s
  = (inr (prod_map id forget_row <$> l,
          trusted_record_exists || existsb (fun ka => trusted ka.2) l),
     fold_left forget_store l s).
Proof.
  induction l as [|[k a] l IH]; intros t s.
  - simpl. by rewrite orb_false_r.
  - cbn [forget_failures fold_left fmap list_fmap existsb].
    unfold forget_store at 2, forget_row at 1, prod_map at 1. cbn [fst snd].
    destruct (trusted a) eqn:Ht; cbn [negb].
    + unfold bind at 1, save, modify. rewrite (bind_inr _ _ _ _ _ (IH _ _)).
      unfold ret. simpl. by rewrite orb_true_r.
    + unfold bind at 1, delete_attempt, modify. rewrite (bind_inr _ _ _ _ _ (IH _ _)).
      unfold ret. simpl. done.
Qed.

Lemma revoke_loop_run cfg now request ip failures l : forall s,
  get_ip cfg request = inr ip ->
  exists r,
    for_each (fun ka : Attempt => delete_attempt (fst ka) ;;
                                  create_new_failure_records cfg now request failures) l s
    = (inr r, fold_left (revoke_store (failure_record cfg now request ip failures)) l s).
Proof.
  intros s Hip. revert s. induction l as [|[k a] l IH]; intros s; [by eexists|].
  cbn [for_each fold_left]. unfold bind at 1 2, delete_attempt, modify. cbn [fst].
  rewrite (create_new_failure_records_run _ _ _ _ _ _ Hip).
  destruct (IH (revoke_store (failure_record cfg now request ip failures) s (k, a)))
    as [r Hr].
  unfold revoke_store at 2 in Hr. cbn [fst] in Hr. rewrite (bind_inr _ _ _ _ _ Hr).
  by eexists.
Qed.

Lemma check_request_failure_run cfg users now request ip s l s1 :
  get_ip cfg request = inr ip ->
  get_user_attempts cfg now request s = (inr l, s1) ->
  let failures := max_failures l + 1 in
  let l2 := match l with [] => l | _ => prod_map id (record_failure cfg now request failures) <$> l end in
  let s2 := match l with
            | [] => with_new_row (failure_record cfg now request ip failures) s1
            | _ => fold_left (save_row (record_failure cfg now request failures)) l s1
            end in
  check_request cfg users now request true s =
    if trips cfg users request failures then
      match user_is_authenticated request with
      | Some _ => (inl TypeError, s2)
      | None =>
          (inr false,
           fold_left (revoke_store (failure_record cfg now request ip failures))
             (List.filter (fun ka => trusted ka.2) l2)
             (told (POST_get request (USERNAME_FORM_FIELD cfg)) ip s2))
      end
    else (inr true, s2).
Proof.
  intros Hip Hl failures l2 s2. unfold check_request. rewrite Hip.
  unfold lift. rewrite (bind_inr _ _ _ ip s) by done.
  rewrite (bind_inr _ _ _ _ _ Hl).
  fold (max_failures l). fold failures.
  assert (Hfirst :
    (match l with
     | [] => create_new_failure_records cfg now request failures ;; ret (failures, l)
     | _ :: _ =>
         attempts0 <- for_each (fun ka : Attempt =>
                        save (fst ka) (record_failure cfg now request failures (snd ka)) ;;
                        ret (fst ka, record_failure cfg now request failures (snd ka))) l ;;
         ret (failures, attempts0)
     end) s1 = (inr (failures, l2), s2)).
  { unfold l2, s2. destruct l as [|x l'].
    - by rewrite (bind_inr _ _ _ _ _ (create_new_failure_records_run _ _ _ _ _ _ Hip)).
    - by rewrite (bind_inr _ _ _ _ _ (save_loop_run _ _ _)). }
  rewrite (bind_inr _ _ _ _ _ Hfirst). cbn [fst snd].
  fold (trips cfg users request failures).
  destruct (trips cfg users request failures); [|done].
  destruct (user_is_authenticated request) as [b|]; [done|].
  destruct (revoke_loop_run cfg now request ip failures
              (List.filter (fun ka => trusted ka.2) l2)
              (told (POST_get request (USERNAME_FORM_FIELD cfg)) ip s2) Hip) as [r Hr].
  unfold bind at 1. unfold told in Hr |- *. simpl.
  unfold bind at 1. simpl. unfold bind at 1. simpl.
  rewrite (bind_inr _ _ _ _ _ Hr). done.
Qed.

Lemma check_request_success_run cfg users now request ip s l s1 :
  get_ip cfg request = inr ip ->
  get_user_attempts cfg now request s = (inr l, s1) ->
  let l2 := prod_map id forget_row <$> l in
  let s2 := fold_left forget_store l s1 in
  let s3 := if existsb (fun ka => trusted ka.2) l then s2
            else with_trusted_record cfg now request ip s2 in
  check_request cfg users now request false s =
    if trips cfg users request 0 then
      match user_is_authenticated request with
      | Some _ => (inl TypeError, s3)
      | None =>
          (inr false,
           fold_left (revoke_store (failure_record cfg now request ip 0))
             (List.filter (fun ka => trusted ka.2) l2)
             (told (POST_get request (USERNAME_FORM_FIELD cfg)) ip s3))
      end
    else (inr true, s3).
Proof.
  intros Hip Hl l2 s2 s3. unfold check_request. rewrite Hip.
  unfold lift. rewrite (bind_inr _ _ _ ip s) by done.
  rewrite (bind_inr _ _ _ _ _ Hl).
  assert (Hfirst :
    (r <- forget_failures l false ;;
     (if negb (snd r) then create_new_trusted_record cfg now request else ret tt) ;;
     ret (0, fst r)) s1 = (inr (0, l2), s3)).
  { rewrite (bind_inr _ _ _ _ _ (forget_failures_run _ _ _)). cbn [fst snd orb].
    unfold s3. fold s2. destruct (existsb _ l); cbn [negb].
    - done.
    - by rewrite (bind_inr _ _ _ _ _ (create_new_trusted_record_run _ _ _ _ _ Hip)). }
  rewrite (bind_inr _ _ _ _ _ Hfirst). cbn [fst snd].
  fold (trips cfg users request 0).
  destruct (trips cfg users request 0); [|done].
  destruct (user_is_authenticated request) as [b|]; [done|].
  destruct (revoke_loop_run cfg now request ip 0
              (List.filter (fun ka => trusted ka.2) l2)
              (told (POST_get request (USERNAME_FORM_FIELD cfg)) ip s3) Hip) as [r Hr].
  unfold bind at 1. unfold told in Hr |- *. simpl.
  unfold bind at 1. simpl. unfold bind at 1. simpl.
  rewrite (bind_inr _ _ _ _ _ Hr). done.
Qed.

(** ** What the loops of [check_request] leave in the table *)

Lemma next_pk_fresh s : next_pk s ∉ known s.
Proof. unfold next_pk, known. apply is_fresh. Qed.

Lemma next_pk_lookup s : attempts s !! next_pk s = None.
Proof.
  apply not_elem_of_dom. intros Hd. apply (next_pk_fresh s).
  unfold known. by apply elem_of_union_l.
Qed.

Lemma known_lookup s k a : attempts s !! k = Some a -> k ∈ known s.
Proof. intros H. unfold known. apply elem_of_union_l, elem_of_dom. eauto. Qed.

Lemma fold_save_row_not_in g l k : forall s,
  k ∉ l.*1 -> attempts (fold_left (save_row g) l s) !! k = attempts s !! k.
Proof.
  induction l as [|[k' a'] l IH]; intros s Hk; simpl; [done|].
  rewrite fmap_cons, not_elem_of_cons in Hk. destruct Hk as [Hne Hk].
  rewrite IH by done. unfold save_row. simpl. by rewrite lookup_insert_ne.
Qed.

Lemma fold_save_row_in g l k a : forall s,
  NoDup l.*1 -> (k, a) ∈ l ->
  attempts (fold_left (save_row g) l s) !! k = Some (g a).
Proof.
  induction l as [|[k' a'] l IH]; intros s Hnd Hin; [by apply not_elem_of_nil in Hin|].
  rewrite fmap_cons in Hnd. apply NoDup_cons in Hnd as [Hk' Hnd]. simpl.
  apply elem_of_cons in Hin as [[= <- <-] | Hin]; [|by apply IH].
  rewrite fold_save_row_not_in by done. unfold save_row. simpl. by rewrite lookup_insert_eq.
Qed.

Lemma fold_forget_store_not_in l k : forall s,
  k ∉ l.*1 -> attempts (fold_left forget_store l s) !! k = attempts s !! k.
Proof.
  induction l as [|[k' a'] l IH]; intros s Hk; simpl; [done|].
  rewrite fmap_cons, not_elem_of_cons in Hk. destruct Hk as [Hne Hk].
  rewrite IH by done. unfold forget_store. simpl.
  destruct (trusted a'); simpl; [by rewrite lookup_insert_ne|by rewrite lookup_delete_ne].
Qed.

Lemma fold_forget_store_in l k a : forall s,
  NoDup l.*1 -> (k, a) ∈ l ->
  attempts (fold_left forget_store l s) !! k
  = if trusted a then Some (set_failures_since_start 0 a) else None.
Proof.
  induction l as [|[k' a'] l IH]; intros s Hnd Hin; [by apply not_elem_of_nil in Hin|].
  rewrite fmap_cons in Hnd. apply NoDup_cons in Hnd as [Hk' Hnd]. simpl.
  apply elem_of_cons in Hin as [[= <- <-] | Hin]; [|by apply IH].
  rewrite fold_forget_store_not_in by done. unfold forget_store. simpl.
  destruct (trusted a); simpl; [by rewrite lookup_insert_eq|by rewrite lookup_delete_eq].
Qed.

(** Keys of rows the loop met stay known: a new row gets none of them. *)
Lemma fold_forget_store_known l : forall s k,
  k ∈ known s \/ k ∈ l.*1 -> k ∈ known (fold_left forget_store l s).
Proof.
  induction l as [|[k' a'] l IH]; intros s k Hk; simpl.
  - destruct Hk as [Hk | Hk]; [done|]. by apply not_elem_of_nil in Hk.
  - apply IH. rewrite fmap_cons, elem_of_cons in Hk.
    destruct (decide (k ∈ l.*1)) as [|Hnot]; [by right|]. left.
    assert (Hcase : k = k' \/ k ∈ known s) by (destruct Hk as [|[|]]; auto; done).
    unfold forget_store, known in *. simpl.
    destruct (trusted a'); simpl.
    + rewrite dom_insert_L. destruct Hcase as [-> | Hs].
      * apply elem_of_union_l, elem_of_union_l. by apply elem_of_singleton.
      * apply elem_of_union in Hs as [Hs | Hs].
        -- by apply elem_of_union_l, elem_of_union_r.
        -- by apply elem_of_union_r.
    + rewrite dom_delete_L. destruct (decide (k = k')) as [-> | Hne].
      * apply elem_of_union_r, elem_of_union_l. by apply elem_of_singleton.
      * destruct Hcase as [-> | Hs]; [done|].
        apply elem_of_union in Hs as [Hs | Hs].
        -- apply elem_of_union_l, elem_of_difference. split; [done|].
           by rewrite elem_of_singleton.
        -- by apply elem_of_union_r, elem_of_union_r.
Qed.

Lemma existsb_trusted_true (l : list Attempt) :
  existsb (fun ka => trusted ka.2) l = true <-> exists k a, (k, a) ∈ l /\ trusted a = true.
Proof.
  rewrite existsb_exists. split.
  - intros ([k a] & Hin & Ht). exists k, a. by rewrite list_elem_of_In.
  - intros (k & a & Hin & Ht). exists (k, a). by rewrite <- list_elem_of_In.
Qed.

Lemma get_user_attempts_inv cfg now request s l s1 :
  get_user_attempts cfg now request s = (inr l, s1) ->
  exists ip, get_ip cfg request = inr ip /\ NoDup l.*1
             /\ forall x, x ∈ l <-> x ∈ found cfg request ip (attempts s1).
Proof.
  intros H. destruct (get_ip cfg request) as [e|ip] eqn:Hip.
  - destruct (get_ip_raises_everywhere cfg ∅ request e Hip now s) as (_ & H' & _).
    rewrite H' in H. discriminate H.
  - exists ip. split; [done|].
    destruct (get_user_attempts_consistent cfg now request ip s Hip)
      as (l' & s' & Hrun & Hcons & Hnd).
    rewrite Hrun in H. by injection H as <- <-.
Qed.

Lemma trips_zero cfg users request :
  0 < FAILURE_LIMIT cfg -> trips cfg users request 0 = false.
Proof.
  intros H. unfold trips.
  assert ((FAILURE_LIMIT cfg <=? 0) = false) as -> by (apply Z.leb_gt; lia). done.
Qed.

(** ** A successful login *)

Lemma truthy_nonempty s : Py.truthy s = true <-> s <> "".
Proof. by destruct s. Qed.

Lemma get_user_attempts_empty cfg now request s l s1 :
  attempts s = ∅ ->
  get_user_attempts cfg now request s = (inr l, s1) ->
  l = [] /\ attempts s1 = ∅.
Proof.
  intros Hempty H.
  destruct (get_user_attempts_inv _ _ _ _ _ _ H) as (ip & Hip & _ & _).
  rewrite (get_user_attempts_run _ _ _ _ _ Hip) in H.
  assert (Hnil : found cfg request ip (attempts s) = []).
  { unfold found, rows. by rewrite Hempty, map_to_list_empty. }
  rewrite Hnil in H. simpl in H.
  destruct (cooloff_enabled cfg); by injection H as <- <-.
Qed.

(** C6, as amended.  After a successful login (with a positive failure
    limit, so that a count of zero does not trip the lockout)
    [check_request] allows the response; every untrusted record it
    looked up is deleted and every trusted one is saved with
    [failures_since_start] zero.  When a trusted record was among them,
    no row is created.  When none was and a user name that is not empty
    was submitted, exactly one row is created, trusted and with zero
    failures.  When none was and the user name is absent or empty, no
    row is created; a table that was empty stays empty. *)
Theorem successful_login_forgets_failures cfg users now request matched s0 s :
  0 < FAILURE_LIMIT cfg ->
  get_user_attempts cfg now request s = (inr matched, s0) ->
  exists s' ip,
    get_ip cfg request = inr ip
    /\ check_request cfg users now request false s = (inr true, s')
    /\ (forall k a, (k, a) ∈ matched -> trusted a = false -> attempts s' !! k = None)
    /\ (forall k a, (k, a) ∈ matched -> trusted a = true ->
          attempts s' !! k = Some (set_failures_since_start 0 a))
    /\ ((exists k a, (k, a) ∈ matched /\ trusted a = true) ->
          forall k, k ∉ matched.*1 -> attempts s' !! k = attempts s0 !! k)
    /\ ((forall k a, (k, a) ∈ matched -> trusted a = false) ->
          (forall name,
             POST_get request (USERNAME_FORM_FIELD cfg) = Some name -> name <> "" ->
             exists pk,
               (pk ∉ matched.*1) /\ attempts s0 !! pk = None
               /\ attempts s' !! pk = Some (trusted_record cfg now request ip name)
               /\ forall k, k <> pk -> k ∉ matched.*1 ->
                            attempts s' !! k = attempts s0 !! k)
          /\ (POST_get request (USERNAME_FORM_FIELD cfg) = None
              \/ POST_get request (USERNAME_FORM_FIELD cfg) = Some "" ->
              (forall k, k ∉ matched.*1 -> attempts s' !! k = attempts s0 !! k)
              /\ (matched = [] -> attempts s' = attempts s0)
              /\ (attempts s = ∅ -> attempts s' = ∅))).
Proof.
  intros Hlimit Hl.
  destruct (get_user_attempts_inv _ _ _ _ _ _ Hl) as (ip & Hip & Hnd & _).
  pose proof (check_request_success_run cfg users now request ip s matched s0 Hip Hl) as Hrun.
  cbv zeta in Hrun. rewrite (trips_zero _ _ _ Hlimit) in Hrun.
  set (s2 := fold_left forget_store matched s0) in *.
  eexists _, ip. split; [done|]. split; [exact Hrun|].
  assert (Hknown : forall k, k ∈ matched.*1 -> k <> next_pk s2).
  { intros k Hk ->. apply (next_pk_fresh s2). apply fold_forget_store_known. by right. }
  destruct (existsb (fun ka => trusted ka.2) matched) eqn:Hex.
  - (* a trusted record was looked up: the rows found are all trusted *)
    split; [|split; [|split]].
    + intros k a Hin Ht. unfold s2. rewrite (fold_forget_store_in _ k a) by done.
      by rewrite Ht.
    + intros k a Hin Ht. unfold s2. rewrite (fold_forget_store_in _ k a) by done.
      by rewrite Ht.
    + intros _ k Hk. by apply fold_forget_store_not_in.
    + intros Hall. apply existsb_trusted_true in Hex as (k & a & Hin & Ht).
      rewrite (Hall k a Hin) in Ht. discriminate.
  - assert (Hnone : forall k a, (k, a) ∈ matched -> trusted a = false).
    { intros k a Hin. destruct (trusted a) eqn:Ht; [|done].
      assert (existsb (fun ka => trusted ka.2) matched = true)
        by (apply existsb_trusted_true; eauto). congruence. }
    unfold with_trusted_record.
    split; [|split; [|split; [|intros _; split]]].
    + intros k a Hin Ht.
      assert (Hs2 : attempts s2 !! k = None).
      { unfold s2. rewrite (fold_forget_store_in _ k a) by done. by rewrite Ht. }
      assert (Hne : next_pk s2 <> k).
      { intros E. apply (Hknown k); [|done]. apply list_elem_of_fmap. by exists (k, a). }
      destruct (POST_get request (USERNAME_FORM_FIELD cfg)) as [name|]; [|done].
      destruct (Py.truthy name); [|done].
      unfold with_new_row. simpl. by rewrite lookup_insert_ne.
    + intros k a Hin Ht. rewrite (Hnone k a Hin) in Ht. discriminate.
    + intros (k & a & Hin & Ht). rewrite (Hnone k a Hin) in Ht. discriminate.
    + intros name Hname Hne. rewrite Hname.
      apply truthy_nonempty in Hne. rewrite Hne.
      exists (next_pk s2).
      assert (Hout : next_pk s2 ∉ matched.*1) by (intros Hin; by apply (Hknown _ Hin)).
      split; [done|]. split; [|split].
      * rewrite <- (fold_forget_store_not_in matched (next_pk s2) s0 Hout).
        apply next_pk_lookup.
      * unfold with_new_row. simpl. by rewrite lookup_insert_eq.
      * intros k Hk Hkout. unfold with_new_row. simpl.
        rewrite lookup_insert_ne by done. by apply fold_forget_store_not_in.
    + intros Hname.
      assert (Hs' : (match POST_get request (USERNAME_FORM_FIELD cfg) with
                     | Some name => if Py.truthy name
                                    then with_new_row (trusted_record cfg now request ip name) s2
                                    else s2
                     | None => s2
                     end) = s2) by (destruct Hname as [-> | ->]; done).
      rewrite Hs'. split; [|split].
      * intros k Hk. by apply fold_forget_store_not_in.
      * by intros ->.
      * intros Hempty. destruct (get_user_attempts_empty _ _ _ _ _ _ Hempty Hl) as [-> E].
        done.
Qed.

Lemma successful_login_forgets_failures_witness :
  exists s' ip,
    get_ip default_settings bob_request = inr ip
    /\ check_request default_settings ∅ 10 bob_request false stale_store = (inr true, s')
    /\ attempts s' !! 1%positive = None
    /\ exists pk, attempts s' !! pk = Some (trusted_record default_settings 10 bob_request ip "bob").
Proof.
  destruct (successful_login_forgets_failures default_settings ∅ 10 bob_request
              [(1%positive, stale_record)] (counted stale_store) stale_store
              eq_refl eq_refl)
    as (s' & ip & Hip & Hrun & Hdel & _ & _ & Hnew).
  exists s', ip. split; [done|]. split; [done|]. split.
  - apply (Hdel 1%positive stale_record); [left|reflexivity].
  - destruct Hnew as [Hnew _].
    + intros k a [[= -> ->] | Hin]%elem_of_cons; [reflexivity|].
      by apply not_elem_of_nil in Hin.
    + destruct (Hnew "bob" eq_refl ltac:(discriminate)) as (pk & _ & _ & Hpk & _).
      by exists pk.
Defined.

(** C6 as stated fails: the form was sent with a user name, the empty
    one; no record was looked up, so no trusted record was among the
    matches; and no trusted record is created. *)
Lemma empty_username_creates_no_trusted_record :
  POST_get blank_request (USERNAME_FORM_FIELD default_settings) = Some ""
  /\ fst (get_user_attempts default_settings 10 blank_request empty_store) = inr []
  /\ fst (check_request default_settings ∅ 10 blank_request false empty_store) = inr true
  /\ attempts (snd (check_request default_settings ∅ 10 blank_request false empty_store)) = ∅.
Proof. repeat split; vm_compute; reflexivity. Qed.

(** ** Counting failures *)

Lemma max_failures_fold (l : list Attempt) : forall acc,
  0 <= acc ->
  fold_left (fun f ka => Z.max f (failures_since_start (snd ka))) l acc
  = Z.max acc (max_failures l).
Proof.
  unfold max_failures. induction l as [|x l IH]; intros acc Hacc; simpl.
  - lia.
  - rewrite (IH (Z.max acc _)), (IH (Z.max 0 _)) by lia. lia.
Qed.

Lemma max_failures_cons x (l : list Attempt) :
  max_failures (x :: l) = Z.max (Z.max 0 (failures_since_start x.2)) (max_failures l).
Proof. unfold max_failures at 1. simpl. apply max_failures_fold. lia. Qed.

Lemma max_failures_nonneg (l : list Attempt) : 0 <= max_failures l.
Proof. destruct l; [done|]. rewrite max_failures_cons. lia. Qed.

Lemma max_failures_le (l : list Attempt) b :
  0 <= b -> (forall k a, (k, a) ∈ l -> failures_since_start a <= b) -> max_failures l <= b.
Proof.
  intros Hb. induction l as [|[k a] l IH]; intros H; [done|].
  rewrite max_failures_cons. simpl.
  assert (failures_since_start a <= b) by (apply (H k); left).
  assert (max_failures l <= b) by (apply IH; intros; eapply H; by right).
  lia.
Qed.

Lemma max_failures_ge (l : list Attempt) k a :
  (k, a) ∈ l -> failures_since_start a <= max_failures l.
Proof.
  induction l as [|x l IH]; intros Hin; [by apply not_elem_of_nil in Hin|].
  rewrite max_failures_cons. apply elem_of_cons in Hin as [<- | Hin]; simpl; [lia|].
  specialize (IH Hin). lia.
Qed.

(** A list of records that all carry [f] failures counts [f]. *)
Lemma max_failures_all (l : list Attempt) f :
  l <> [] -> 0 <= f -> (forall k a, (k, a) ∈ l -> failures_since_start a = f) ->
  max_failures l = f.
Proof.
  intros Hne Hf Hall. apply Z.le_antisymm.
  - apply max_failures_le; [done|]. intros k a Hin. by rewrite (Hall k a Hin).
  - destruct l as [|[k a] l]; [done|].
    rewrite <- (Hall k a) by left. apply (max_failures_ge _ k). left.
Qed.

Lemma max_failures_none (l : list Attempt) :
  (forall k a, (k, a) ∈ l -> failures_since_start a <= 0) -> max_failures l = 0.
Proof.
  intros H. apply Z.le_antisymm; [by apply max_failures_le|apply max_failures_nonneg].
Qed.

(** ** Records that have not cooled off *)

Lemma still_counts_expired cfg t now c a :
  still_counts cfg t now -> cooloff_enabled cfg = Some c -> attempt_time a = t ->
  expired c now a = false.
Proof.
  intros H [Hc Hc0]%cooloff_enabled_Some Ht. unfold expired. rewrite Ht.
  apply Z.ltb_ge. specialize (H c Hc Hc0). lia.
Qed.

Lemma fold_cool_store_none_expired c now l : forall s,
  (forall k a, (k, a) ∈ l -> expired c now a = false) ->
  fold_left (cool_store c now) l s = s /\ cool c now <$> l = l /\ purged c now l = false.
Proof.
  induction l as [|[k a] l IH]; intros s H; [done|].
  assert (He : expired c now a = false) by (apply (H k); left).
  destruct (IH s) as (IH1 & IH2 & IH3); [intros; eapply H; by right|].
  cbn [fold_left fmap list_fmap]. unfold cool_store at 2, cool at 1, purged. simpl.
  rewrite He. simpl. fold (purged c now l). by rewrite IH1, IH2, IH3.
Qed.

(** When no record found has cooled off, the lookup is all that
    [get_user_attempts] does. *)
Lemma get_user_attempts_no_cleanup cfg now request ip s :
  get_ip cfg request = inr ip ->
  (forall c k a, cooloff_enabled cfg = Some c ->
                 (k, a) ∈ found cfg request ip (attempts s) -> expired c now a = false) ->
  get_user_attempts cfg now request s
  = (inr (found cfg request ip (attempts s)), counted s).
Proof.
  intros Hip H. rewrite (get_user_attempts_run _ _ _ _ _ Hip).
  destruct (cooloff_enabled cfg) as [c|] eqn:Hc; [|done]. cbv zeta.
  assert (Hnone : forall k a, (k, a) ∈ found cfg request ip (attempts s) ->
                              expired c now a = false) by (intros k a; by apply H).
  destruct (fold_cool_store_none_expired c now _ (counted s) Hnone) as (E1 & E2 & E3).
  by rewrite E1, E2, E3.
Qed.

Lemma NoDup_fst_functional (l : list Attempt) k a a' :
  NoDup l.*1 -> (k, a) ∈ l -> (k, a') ∈ l -> a = a'.
Proof.
  induction l as [|[k0 a0] l IH]; intros Hnd Hin Hin'; [by apply not_elem_of_nil in Hin|].
  rewrite fmap_cons in Hnd. apply NoDup_cons in Hnd as [Hk Hnd].
  apply elem_of_cons in Hin as [Hin | Hin];
    apply elem_of_cons in Hin' as [Hin' | Hin'].
  - congruence.
  - injection Hin as -> ->. destruct Hk. apply list_elem_of_fmap. by exists (k0, a').
  - injection Hin' as -> ->. destruct Hk. apply list_elem_of_fmap. by exists (k0, a).
  - by apply IH.
Qed.

(** A row of the table after the cool-off loop was a row before it, or
    is the reset of a trusted row of the list. *)
Lemma fold_cool_store_lookup_Some c now l k b s :
  NoDup l.*1 ->
  attempts (fold_left (cool_store c now) l s) !! k = Some b ->
  attempts s !! k = Some b
  \/ exists a, (k, a) ∈ l /\ trusted a = true /\ b = set_failures_since_start 0 a.
Proof.
  intros Hnd H. destruct (decide (k ∈ l.*1)) as [Hin|Hout].
  - apply list_elem_of_fmap in Hin as ([k' a] & -> & Hin). simpl in *.
    destruct (expired c now a) eqn:He.
    + rewrite (fold_cool_store_expired c now l k' a) in H by done.
      destruct (trusted a) eqn:Ht; [|discriminate]. injection H as <-. right. eauto.
    + rewrite fold_cool_store_other in H; [by left|].
      intros a' Hin'. by rewrite (NoDup_fst_functional _ _ _ _ Hnd Hin' Hin).
  - rewrite fold_cool_store_not_in in H by done. by left.
Qed.

(** When the cool-off loop deletes a record, only untrusted records were
    found, and no trusted record of the key is in the table afterwards
    either. *)
Lemma purge_only_untrusted cfg request ip c now s :
  let l := found cfg request ip (attempts s) in
  let s1 := fold_left (cool_store c now) l (counted s) in
  purged c now l = true ->
  rows (trusted_query cfg request ip) (attempts s) = []
  /\ l = rows (untrusted_query cfg request ip) (attempts s)
  /\ found cfg request ip (attempts s1)
     = rows (untrusted_query cfg request ip) (attempts s1).
Proof.
  intros l s1 (k & a & Hin & He & Ht)%purged_true.
  destruct (found_cases cfg request ip (attempts s)) as [[_ HF] | [Hnil HF]].
  - unfold l in Hin. rewrite HF in Hin. apply elem_of_rows in Hin as [_ Hq].
    apply trusted_query_trusted in Hq. congruence.
  - split; [done|]. split; [done|]. unfold found.
    destruct (list_empty_or_elem (rows (trusted_query cfg request ip) (attempts s1)))
      as [-> | [[k' b] Hin']]; [done|]. exfalso.
    apply elem_of_rows in Hin' as [Hk' Hq].
    apply fold_cool_store_lookup_Some in Hk' as [Hk' | (a' & Hin' & Ht' & _)];
      [| |apply found_NoDup].
    + assert (Hrow : (k', b) ∈ rows (trusted_query cfg request ip) (attempts s))
        by by apply elem_of_rows.
      rewrite Hnil in Hrow. by apply not_elem_of_nil in Hrow.
    + fold l in HF. rewrite HF in Hin'. apply elem_of_rows in Hin' as [_ Hu].
      apply untrusted_query_untrusted in Hu. congruence.
Qed.

(** Every record [get_user_attempts] returns is a record the lookup
    found, as it was or with its count reset. *)
Lemma get_user_attempts_rows_from cfg now request ip s l s1 :
  get_ip cfg request = inr ip ->
  get_user_attempts cfg now request s = (inr l, s1) ->
  forall k b, (k, b) ∈ l ->
    exists a, (k, a) ∈ found cfg request ip (attempts s)
              /\ (b = a \/ b = set_failures_since_start 0 a).
Proof.
  intros Hip H k b Hin. rewrite (get_user_attempts_run _ _ _ _ _ Hip) in H.
  destruct (cooloff_enabled cfg) as [c|]; cbv zeta in H.
  - destruct (purged c now _) eqn:Hp; injection H as <- <-.
    + destruct (purge_only_untrusted cfg request ip c now s Hp) as (Hnil & HF & HF').
      rewrite HF' in Hin. apply elem_of_rows in Hin as [Hk Hq].
      apply fold_cool_store_lookup_Some in Hk as [Hk | (a & Hin & _ & ->)];
        [| |apply found_NoDup].
      * exists b. split; [|by left]. rewrite HF. by apply elem_of_rows.
      * exists a. split; [done|]. by right.
    + apply list_elem_of_fmap in Hin as ([k' a] & E & Hin). rewrite cool_cool_row in E.
      injection E as -> ->. exists a. split; [done|]. unfold cool_row.
      destruct (_ && _); auto.
  - injection H as <- <-. exists b. split; [done|]. by left.
Qed.

(** A record the lookup finds that has not cooled off is among the
    records [get_user_attempts] returns. *)
Lemma get_user_attempts_keeps cfg now request ip s l s1 k a :
  get_ip cfg request = inr ip ->
  get_user_attempts cfg now request s = (inr l, s1) ->
  (k, a) ∈ found cfg request ip (attempts s) ->
  (forall c, cooloff_enabled cfg = Some c -> expired c now a = false) ->
  (k, a) ∈ l.
Proof.
  intros Hip H Hin Hfresh. rewrite (get_user_attempts_run _ _ _ _ _ Hip) in H.
  destruct (cooloff_enabled cfg) as [c|]; cbv zeta in H.
  - specialize (Hfresh c eq_refl).
    destruct (purged c now _) eqn:Hp; injection H as <- <-.
    + destruct (purge_only_untrusted cfg request ip c now s Hp) as (Hnil & HF & HF').
      rewrite HF'. rewrite HF in Hin. apply elem_of_rows in Hin as [Hk Hq].
      apply elem_of_rows. split; [|done].
      rewrite fold_cool_store_other; [done|].
      intros a' Hin'. rewrite HF in Hin'. apply elem_of_rows in Hin' as [Hk' _].
      simpl in Hk'. congruence.
    + apply list_elem_of_fmap. exists (k, a). split; [|done].
      rewrite cool_cool_row. unfold cool_row. simpl. by rewrite Hfresh.
  - by injection H as <- <-.
Qed.

(** ** The gate *)

Lemma is_already_locked_run cfg users now request ip s l s1 :
  get_ip cfg request = inr ip ->
  passes_lists cfg ip ->
  get_user_attempts cfg now request s = (inr l, s1) ->
  is_already_locked cfg users now request s
  = (inr (existsb (fun ka => (FAILURE_LIMIT cfg <=? failures_since_start (snd ka))
                             && LOCK_OUT_AT_FAILURE cfg
                             && is_user_lockable cfg users request) l), s1).
Proof.
  intros Hip [Hwl Hbl] Hl. unfold is_already_locked. rewrite Hip.
  unfold lift. rewrite (bind_inr _ _ _ ip s) by done.
  assert ((ONLY_WHITELIST cfg && negb (ip_in_whitelist cfg ip)) = false) as ->.
  { destruct (ONLY_WHITELIST cfg); [|done]. by rewrite Hwl. }
  rewrite Hbl. by rewrite (bind_inr _ _ _ _ _ Hl).
Qed.

Lemma existsb_false_iff {A} (f : A -> bool) (l : list A) :
  existsb f l = false <-> forall x, x ∈ l -> f x = false.
Proof.
  split.
  - intros H x Hin. destruct (f x) eqn:Hx; [|done].
    assert (existsb f l = true) by (apply existsb_exists; exists x; by rewrite <- list_elem_of_In).
    congruence.
  - intros H. destruct (existsb f l) eqn:E; [|done].
    apply existsb_exists in E as (x & Hin & Hx). rewrite <- list_elem_of_In in Hin.
    rewrite (H x Hin) in Hx. discriminate.
Qed.

(** ** A failed login *)

Lemma failure_record_untrusted_query cfg now request ip f :
  untrusted_query cfg request ip (failure_record cfg now request ip f) = true.
Proof.
  unfold untrusted_query, failure_record. simpl. rewrite !String.eqb_refl.
  rewrite bool_decide_true by done.
  by destruct (USE_USER_AGENT cfg), (should_lock_out_by_combination_user_and_ip cfg).
Qed.

Lemma failure_record_trusted_query cfg now request ip f :
  trusted_query cfg request ip (failure_record cfg now request ip f) = false.
Proof. unfold trusted_query, failure_record. simpl. apply andb_false_r. Qed.

Lemma record_failure_same_key cfg now request f a :
  same_key (record_failure cfg now request f a) a.
Proof. done. Qed.

Lemma found_nil_rows cfg request ip m :
  found cfg request ip m = [] ->
  rows (trusted_query cfg request ip) m = []
  /\ rows (untrusted_query cfg request ip) m = [].
Proof.
  intros H. destruct (found_cases cfg request ip m) as [[Hne HF] | [Hnil HF]].
  - rewrite HF in H. done.
  - by rewrite <- HF.
Qed.

Lemma equiv_nil {A} (l : list A) : (forall x, x ∈ [] <-> x ∈ l) -> l = [].
Proof.
  intros H. destruct l as [|x l]; [done|].
  assert (Hx : x ∈ []) by (apply H; left). by apply not_elem_of_nil in Hx.
Qed.

(** The first failure for a key: one untrusted row is created. *)
Lemma found_after_first_failure cfg now request ip f s :
  found cfg request ip (attempts s) = [] ->
  let n := failure_record cfg now request ip f in
  forall x, x ∈ found cfg request ip (attempts (with_new_row n s)) <-> x = (next_pk s, n).
Proof.
  intros [Htq Huq]%found_nil_rows n. rewrite rows_nil in Htq, Huq.
  assert (Hlook : forall k b, attempts (with_new_row n s) !! k = Some b ->
            (k = next_pk s /\ b = n) \/ (k <> next_pk s /\ attempts s !! k = Some b)).
  { intros k b. unfold with_new_row. simpl. rewrite lookup_insert.
    case_decide as E; [intros [= <-]; by left|intros ?; right; split; [congruence|done]]. }
  assert (Hnil : rows (trusted_query cfg request ip) (attempts (with_new_row n s)) = []).
  { apply rows_nil. intros k b [[_ ->] | [_ Hk]]%Hlook.
    - apply failure_record_trusted_query.
    - by apply (Htq k). }
  unfold found. rewrite Hnil. intros [k b]. rewrite elem_of_rows. split.
  - intros [[[-> ->] | [_ Hk]]%Hlook Hq]; [done|].
    rewrite (Huq k b Hk) in Hq. discriminate.
  - intros [= -> ->]. split.
    + unfold with_new_row. simpl. by rewrite lookup_insert_eq.
    + apply failure_record_untrusted_query.
Qed.

(** A repeated failure: every row found is rewritten. *)
Lemma found_after_repeated_failure cfg now request ip f l s :
  NoDup l.*1 ->
  (forall x, x ∈ l <-> x ∈ found cfg request ip (attempts s)) ->
  let g := record_failure cfg now request f in
  forall k b,
    (k, b) ∈ found cfg request ip (attempts (fold_left (save_row g) l s)) <->
    exists a, (k, a) ∈ l /\ b = g a.
Proof.
  intros Hnd Hcons g k b.
  rewrite (found_after_update cfg request ip g (attempts s)).
  - by setoid_rewrite Hcons.
  - apply record_failure_same_key.
  - intros k' a Hin. apply fold_save_row_in; [done|]. by apply Hcons.
  - intros k' Hout. apply fold_save_row_not_in. intros Hin. apply Hout.
    apply list_elem_of_fmap in Hin as (x & -> & Hin). apply list_elem_of_fmap.
    exists x. split; [done|]. by apply Hcons.
Qed.

(** After the rows are written for a failure, the rows found all carry
    the new count and the time of the request. *)
Lemma counting_after_failure cfg now request ip f l s1 :
  NoDup l.*1 ->
  (forall x, x ∈ l <-> x ∈ found cfg request ip (attempts s1)) ->
  let g := record_failure cfg now request f in
  let s2 := match l with
            | [] => with_new_row (failure_record cfg now request ip f) s1
            | _ => fold_left (save_row g) l s1
            end in
  let l2 := match l with [] => l | _ => prod_map id g <$> l end in
  counting cfg request ip f now (attempts s2)
  /\ (l <> [] -> forall x, x ∈ l2 <-> x ∈ found cfg request ip (attempts s2))
  /\ (l = [] -> l2 = []).
Proof.
  intros Hnd Hcons g s2 l2. destruct l as [|[k0 a0] l0].
  - pose proof (equiv_nil _ Hcons) as Hnil.
    pose proof (found_after_first_failure cfg now request ip f s1 Hnil) as Hnew.
    cbv zeta in Hnew. split; [|by split].
    split.
    + intros E. assert (Hin : (next_pk s1, failure_record cfg now request ip f)
                        ∈ found cfg request ip (attempts s2)) by by apply Hnew.
      rewrite E in Hin. by apply not_elem_of_nil in Hin.
    + intros k a Hin%Hnew. by injection Hin as -> ->.
  - pose proof (found_after_repeated_failure cfg now request ip f _ s1 Hnd Hcons) as Hupd.
    cbv zeta in Hupd. fold g in Hupd.
    change (attempts s2) with (attempts (fold_left (save_row g) ((k0, a0) :: l0) s1)).
    split; [|split; [|done]].
    + split.
      * intros E.
        assert (Hin : (k0, g a0) ∈ found cfg request ip
                        (attempts (fold_left (save_row g) ((k0, a0) :: l0) s1)))
          by (apply Hupd; exists a0; split; [left|done]).
        rewrite E in Hin. by apply not_elem_of_nil in Hin.
      * intros k b (a & _ & ->)%Hupd. done.
    + intros _ [k b]. rewrite Hupd. unfold l2. rewrite list_elem_of_fmap. split.
      * intros ([k' a] & [= -> ->] & Hin). eauto.
      * intros (a & Hin & ->). by exists (k, a).
Qed.

(** ** Revoking trust *)

Lemma known_retire s k0 k : k ∈ known s -> k ∈ known (retire k0 s).
Proof.
  unfold known, retire. simpl. rewrite dom_delete_L. intros [Hd | Hr]%elem_of_union.
  - destruct (decide (k = k0)) as [-> | Hne].
    + apply elem_of_union_r, elem_of_union_l. by apply elem_of_singleton.
    + apply elem_of_union_l, elem_of_difference. split; [done|]. by rewrite elem_of_singleton.
  - by apply elem_of_union_r, elem_of_union_r.
Qed.

Lemma known_retire_self s k0 : k0 ∈ known (retire k0 s).
Proof.
  unfold known, retire. simpl. apply elem_of_union_r, elem_of_union_l.
  by apply elem_of_singleton.
Qed.

Lemma known_with_new_row a s k : k ∈ known s -> k ∈ known (with_new_row a s).
Proof.
  unfold known, with_new_row. simpl. rewrite dom_insert_L. intros [Hd | Hr]%elem_of_union.
  - by apply elem_of_union_l, elem_of_union_r.
  - by apply elem_of_union_r.
Qed.

Lemma known_revoke_store n s ka k : k ∈ known s -> k ∈ known (revoke_store n s ka).
Proof. intros H. unfold revoke_store. by apply known_with_new_row, known_retire. Qed.

Lemma revoke_store_lookup n s k0 a0 k :
  k ∈ known s -> k <> k0 ->
  attempts (revoke_store n s (k0, a0)) !! k = attempts s !! k.
Proof.
  intros Hk Hne. unfold revoke_store, with_new_row. simpl.
  rewrite lookup_insert_ne, lookup_delete_ne; [done|done|].
  intros E. apply (next_pk_fresh (retire k0 s)). rewrite E. by apply known_retire.
Qed.

Lemma revoke_store_lookup_self n s k0 a0 :
  attempts (revoke_store n s (k0, a0)) !! k0 = None.
Proof.
  unfold revoke_store, with_new_row. simpl.
  rewrite lookup_insert_ne, lookup_delete_eq; [done|].
  intros E. apply (next_pk_fresh (retire k0 s)). rewrite E. apply known_retire_self.
Qed.

(** A key that is gone, or that the loop deletes, has no row afterwards. *)
Lemma fold_revoke_store_gone n l : forall s k,
  k ∈ known s -> attempts s !! k = None \/ k ∈ l.*1 ->
  attempts (fold_left (revoke_store n) l s) !! k = None.
Proof.
  induction l as [|[k0 a0] l IH]; intros s k Hk H; simpl.
  - destruct H as [H | H]; [done|]. by apply not_elem_of_nil in H.
  - apply IH; [by apply known_revoke_store|].
    destruct (decide (k = k0)) as [-> | Hne]; [left; apply revoke_store_lookup_self|].
    rewrite revoke_store_lookup by done.
    destruct H as [H | H]; [by left|]. right.
    rewrite fmap_cons in H. apply elem_of_cons in H as [H | H]; done.
Qed.

(** A row of the table after the loop is a new row or a row from before. *)
Lemma fold_revoke_store_from n l : forall s k b,
  attempts (fold_left (revoke_store n) l s) !! k = Some b ->
  b = n \/ attempts s !! k = Some b.
Proof.
  induction l as [|[k0 a0] l IH]; intros s k b H; simpl in H; [by right|].
  apply IH in H as [H | H]; [by left|].
  unfold revoke_store, with_new_row in H. simpl in H.
  rewrite lookup_insert in H. case_decide; [left; congruence|].
  right. apply lookup_delete_Some in H. tauto.
Qed.

(** The loop, when it runs at all, leaves a new row. *)
Lemma fold_revoke_store_new n l s :
  l <> [] -> exists pk, attempts (fold_left (revoke_store n) l s) !! pk = Some n.
Proof.
  intros Hne. destruct (exists_last Hne) as (l0 & [k a] & ->).
  rewrite fold_left_app. simpl. eexists.
  unfold revoke_store at 1, with_new_row. simpl. apply lookup_insert_eq.
Qed.

Lemma trusted_filter_elem (l : list Attempt) k a :
  (k, a) ∈ List.filter (fun ka => trusted ka.2) l <-> (k, a) ∈ l /\ trusted a = true.
Proof. by rewrite list_elem_of_In, filter_In, <- list_elem_of_In. Qed.

(** The failure that trips the lockout: [check_request] blocks, or
    raises for a request that carries a user, and either way a row with
    the new count, written at the time of the request, is found for the
    request afterwards. *)
Lemma check_request_trips cfg users now request ip s l s1 :
  get_ip cfg request = inr ip ->
  get_user_attempts cfg now request s = (inr l, s1) ->
  trips cfg users request (max_failures l + 1) = true ->
  exists s3,
    check_request cfg users now request true s
    = (match user_is_authenticated request with
       | Some _ => inl TypeError
       | None => inr false
       end, s3)
    /\ exists k a, (k, a) ∈ found cfg request ip (attempts s3)
                   /\ failures_since_start a = max_failures l + 1
                   /\ attempt_time a = now.
Proof.
  intros Hip Hl Htrips.
  destruct (get_user_attempts_inv _ _ _ _ _ _ Hl) as (ip' & Hip' & Hnd & Hcons).
  assert (ip' = ip) as -> by congruence.
  pose proof (check_request_failure_run cfg users now request ip s l s1 Hip Hl) as Hrun.
  pose proof (counting_after_failure cfg now request ip (max_failures l + 1) l s1 Hnd Hcons)
    as Hcount.
  cbv zeta in Hrun, Hcount. rewrite Htrips in Hrun.
  set (f := max_failures l + 1) in *.
  set (g := record_failure cfg now request f) in *.
  set (n := failure_record cfg now request ip f) in *.
  set (s2 := match l with [] => with_new_row n s1 | _ => fold_left (save_row g) l s1 end) in *.
  set (l2 := match l with [] => l | _ => prod_map id g <$> l end) in *.
  destruct Hcount as ([Hne Hall] & Hl2 & Hl2nil).
  destruct (user_is_authenticated request) as [b|].
  { exists s2. split; [exact Hrun|].
    destruct (found cfg request ip (attempts s2)) as [|[k a] rest] eqn:E; [done|].
    exists k, a. split; [left|]. apply (Hall k a). left. }
  set (s2' := told (POST_get request (USERNAME_FORM_FIELD cfg)) ip s2) in *.
  set (L := List.filter (fun ka => trusted ka.2) l2) in *.
  eexists. split; [exact Hrun|].
  destruct (list_empty_or_elem L) as [-> | [[kL aL] HinL]].
  - simpl. destruct (found cfg request ip (attempts s2)) as [|[k a] rest] eqn:E; [done|].
    exists k, a. split; [left|]. apply (Hall k a). left.
  - assert (HLne : L <> []) by (intros E; rewrite E in HinL; by apply not_elem_of_nil in HinL).
    destruct (fold_revoke_store_new n L s2' HLne) as [pk Hpk].
    assert (Hlne : l <> []).
    { intros E. unfold L in HinL. rewrite (Hl2nil E) in HinL.
      by apply not_elem_of_nil in HinL. }
    specialize (Hl2 Hlne).
    assert (Hnil : rows (trusted_query cfg request ip)
                     (attempts (fold_left (revoke_store n) L s2')) = []).
    { apply rows_nil. intros k b Hk.
      destruct (trusted_query cfg request ip b) eqn:Hq; [|done]. exfalso.
      destruct (fold_revoke_store_from _ _ _ _ _ Hk) as [-> | Hk2].
      - unfold n in Hq. rewrite failure_record_trusted_query in Hq. discriminate.
      - assert (Hrow : (k, b) ∈ rows (trusted_query cfg request ip) (attempts s2))
          by by apply elem_of_rows.
        assert (HF : (k, b) ∈ found cfg request ip (attempts s2)).
        { destruct (found_cases cfg request ip (attempts s2)) as [[_ ->] | [E _]]; [done|].
          rewrite E in Hrow. by apply not_elem_of_nil in Hrow. }
        assert (HL : (k, b) ∈ L).
        { apply trusted_filter_elem. split; [by apply Hl2|].
          by apply trusted_query_trusted in Hq. }
        rewrite (fold_revoke_store_gone n L s2' k) in Hk; [discriminate| |].
        + by apply (known_lookup _ _ b).
        + right. apply list_elem_of_fmap. by exists (k, b). }
    exists pk, n. split; [|done].
    unfold found. rewrite Hnil. apply elem_of_rows. split; [done|].
    apply failure_record_untrusted_query.
Qed.

(** A failure below the limit: [check_request] allows the response, and
    the rows found afterwards all carry the new count. *)
Lemma check_request_counts cfg users now request ip s l s1 :
  get_ip cfg request = inr ip ->
  get_user_attempts cfg now request s = (inr l, s1) ->
  trips cfg users request (max_failures l + 1) = false ->
  exists s2,
    check_request cfg users now request true s = (inr true, s2)
    /\ counting cfg request ip (max_failures l + 1) now (attempts s2).
Proof.
  intros Hip Hl Htrips.
  destruct (get_user_attempts_inv _ _ _ _ _ _ Hl) as (ip' & Hip' & Hnd & Hcons).
  assert (ip' = ip) as -> by congruence.
  pose proof (check_request_failure_run cfg users now request ip s l s1 Hip Hl) as Hrun.
  pose proof (counting_after_failure cfg now request ip (max_failures l + 1) l s1 Hnd Hcons)
    as Hcount.
  cbv zeta in Hrun, Hcount. rewrite Htrips in Hrun.
  eexists. split; [exact Hrun|]. apply Hcount.
Qed.

(** While the rows found all carry [f] failures and have not cooled off,
    [get_user_attempts] returns them untouched. *)
Lemma get_user_attempts_counting cfg now request ip f t s :
  get_ip cfg request = inr ip ->
  counting cfg request ip f t (attempts s) ->
  still_counts cfg t now ->
  get_user_attempts cfg now request s = (inr (found cfg request ip (attempts s)), counted s)
  /\ (0 <= f -> max_failures (found cfg request ip (attempts s)) = f).
Proof.
  intros Hip [Hne Hall] Hfresh. split.
  - apply get_user_attempts_no_cleanup; [done|].
    intros c k a Hc Hin. apply (still_counts_expired cfg t now c a Hfresh Hc).
    by apply (Hall k a).
  - intros Hf. apply max_failures_all; [done..|]. intros k a Hin. by apply (Hall k a).
Qed.

Lemma gate_while_counting cfg users now request ip f t s :
  get_ip cfg request = inr ip ->
  passes_lists cfg ip ->
  counting cfg request ip f t (attempts s) ->
  still_counts cfg t now ->
  is_already_locked cfg users now request s = (inr (trips cfg users request f), counted s).
Proof.
  intros Hip Hpass Hcount Hfresh.
  destruct (get_user_attempts_counting cfg now request ip f t s Hip Hcount Hfresh) as [Hl _].
  rewrite (is_already_locked_run _ _ _ _ _ _ _ _ Hip Hpass Hl). f_equal. f_equal.
  destruct Hcount as [Hne Hall]. unfold trips.
  destruct (found cfg request ip (attempts s)) as [|[k a] l] eqn:E; [done|].
  destruct ((FAILURE_LIMIT cfg <=? f) && LOCK_OUT_AT_FAILURE cfg
            && is_user_lockable cfg users request) eqn:Hb.
  - simpl. destruct (Hall k a) as [-> _]; [left|]. by rewrite Hb.
  - apply existsb_false_iff. intros [k' a'] Hin. simpl.
    destruct (Hall k' a' Hin) as [-> _]. done.
Qed.

Lemma gate_after_trip cfg users now request ip t s k a :
  get_ip cfg request = inr ip ->
  passes_lists cfg ip ->
  (k, a) ∈ found cfg request ip (attempts s) ->
  attempt_time a = t ->
  trips cfg users request (failures_since_start a) = true ->
  still_counts cfg t now ->
  exists s', is_already_locked cfg users now request s = (inr true, s').
Proof.
  intros Hip Hpass Hin Ht Htrips Hfresh.
  destruct (get_user_attempts_consistent cfg now request ip s Hip) as (l & s' & Hl & _).
  exists s'. rewrite (is_already_locked_run _ _ _ _ _ _ _ _ Hip Hpass Hl). f_equal. f_equal.
  apply existsb_exists. exists (k, a). split; [|exact Htrips].
  apply list_elem_of_In. apply (get_user_attempts_keeps _ _ _ _ _ _ _ _ _ Hip Hl Hin).
  intros c Hc. by apply (still_counts_expired cfg t now c a).
Qed.

Lemma get_user_attempts_nothing_counted cfg now request ip s l s1 :
  get_ip cfg request = inr ip ->
  nothing_counted cfg request ip (attempts s) ->
  get_user_attempts cfg now request s = (inr l, s1) ->
  max_failures l = 0 /\ nothing_counted cfg request ip (attempts s1).
Proof.
  intros Hip H0 Hl.
  assert (Hrows : forall k b, (k, b) ∈ l -> failures_since_start b <= 0).
  { intros k b Hin.
    destruct (get_user_attempts_rows_from _ _ _ _ _ _ _ Hip Hl k b Hin)
      as (a & Ha & [-> | ->]); [by apply (H0 k)|done]. }
  split; [by apply max_failures_none|].
  destruct (get_user_attempts_inv _ _ _ _ _ _ Hl) as (ip' & Hip' & _ & Hcons).
  assert (ip' = ip) as -> by congruence.
  intros k a Hin. apply (Hrows k). by apply Hcons.
Qed.

Lemma gate_nothing_counted cfg users now request ip s :
  get_ip cfg request = inr ip ->
  passes_lists cfg ip ->
  0 < FAILURE_LIMIT cfg ->
  nothing_counted cfg request ip (attempts s) ->
  exists s',
    is_already_locked cfg users now request s = (inr false, s')
    /\ nothing_counted cfg request ip (attempts s').
Proof.
  intros Hip Hpass Hlimit H0.
  destruct (get_user_attempts_consistent cfg now request ip s Hip) as (l & s' & Hl & _).
  destruct (get_user_attempts_nothing_counted _ _ _ _ _ _ _ Hip H0 Hl) as [Hmax H0'].
  exists s'. split; [|done].
  rewrite (is_already_locked_run _ _ _ _ _ _ _ _ Hip Hpass Hl). f_equal. f_equal.
  apply existsb_false_iff. intros [k a] Hin. simpl.
  pose proof (max_failures_ge l k a Hin).
  assert ((FAILURE_LIMIT cfg <=? failures_since_start a) = false) as ->
    by (apply Z.leb_gt; lia).
  done.
Qed.

(** ** Three failures *)

Lemma found_same_client cfg r r' ip m :
  same_client cfg r r' -> found cfg r ip m = found cfg r' ip m.
Proof.
  intros (_ & Hname & Hua). unfold found, rows.
  assert (Ht : forall ka : Attempt,
            trusted_query cfg r ip ka.2 = trusted_query cfg r' ip ka.2).
  { intros [k a]. unfold trusted_query. simpl. rewrite Hname.
    destruct (USE_USER_AGENT cfg); [by rewrite Hua|done]. }
  assert (Hu : forall ka : Attempt,
            untrusted_query cfg r ip ka.2 = untrusted_query cfg r' ip ka.2).
  { intros [k a]. unfold untrusted_query. simpl. rewrite Hname.
    destruct (USE_USER_AGENT cfg); [by rewrite Hua|done]. }
  by rewrite (filter_ext _ _ Ht), (filter_ext _ _ Hu).
Qed.

Lemma counting_same_client cfg r r' ip f t m :
  same_client cfg r r' -> counting cfg r ip f t m -> counting cfg r' ip f t m.
Proof. intros H. unfold counting. by rewrite (found_same_client _ _ _ _ _ H). Qed.

Lemma same_client_sym cfg r r' : same_client cfg r r' -> same_client cfg r' r.
Proof. intros (H1 & H2 & H3). repeat split; [done..|]. intros H. by rewrite H3. Qed.

Lemma trips_same_client cfg users r r' f :
  same_client cfg r r' -> trips cfg users r f = trips cfg users r' f.
Proof. intros (_ & Hname & _). unfold trips, is_user_lockable. by rewrite Hname. Qed.

(** C1.  With a failure limit of 3, lockout at failure on and a lockable
    user, take four requests of one client (the same address, which
    passes the allow-list and deny-list checks, the same user name, and
    the same user agent when user agents are tracked) and a store in
    which no failure is counted on the records looked up for the client.
    Let the first three requests fail, at [t1], [t2] and [t3], each
    going through the gate and then through [check_request], and let the
    fourth come at [t4], with no cool-off expiry from one time to the
    next.  Then [check_request] allows the first two responses and
    [is_already_locked] says "not locked" after the second failure.  On
    the third failure [check_request] blocks if the request carries no
    user; if it carries one, [check_request] raises [TypeError] where it
    calls [is_authenticated], after the count was written.  Either way
    [is_already_locked] says "locked" on the request that follows. *)
Theorem three_failures_lock_out cfg users r1 r2 r3 r4 ip t1 t2 t3 t4 s0 :
  FAILURE_LIMIT cfg = 3 ->
  LOCK_OUT_AT_FAILURE cfg = true ->
  is_user_lockable cfg users r1 = true ->
  get_ip cfg r1 = inr ip ->
  same_client cfg r1 r2 -> same_client cfg r1 r3 -> same_client cfg r1 r4 ->
  passes_lists cfg ip ->
  (forall l s, _get_user_attempts cfg r1 s0 = (inr l, s) ->
               forall k a, (k, a) ∈ l -> failures_since_start a <= 0) ->
  still_counts cfg t1 t2 -> still_counts cfg t2 t3 -> still_counts cfg t3 t4 ->
  exists s0' s1 s1' s2 s2' s3 s3',
    is_already_locked cfg users t1 r1 s0 = (inr false, s0')
    /\ check_request cfg users t1 r1 true s0' = (inr true, s1)
    /\ is_already_locked cfg users t2 r2 s1 = (inr false, s1')
    /\ check_request cfg users t2 r2 true s1' = (inr true, s2)
    /\ is_already_locked cfg users t3 r3 s2 = (inr false, s2')
    /\ check_request cfg users t3 r3 true s2'
       = (match user_is_authenticated r3 with
          | Some _ => inl TypeError
          | None => inr false
          end, s3)
    /\ is_already_locked cfg users t4 r4 s3 = (inr true, s3').
Proof.
  intros Hlimit Hlock Hlockable Hip1 Hsame2 Hsame3 Hsame4 Hpass Hstart H12 H23 H34.
  assert (Hip2 : get_ip cfg r2 = inr ip) by (destruct Hsame2 as [<- _]; done).
  assert (Hip3 : get_ip cfg r3 = inr ip) by (destruct Hsame3 as [<- _]; done).
  assert (Hip4 : get_ip cfg r4 = inr ip) by (destruct Hsame4 as [<- _]; done).
  assert (Htrips : forall f, trips cfg users r1 f = (3 <=? f)).
  { intros f. unfold trips. rewrite Hlimit, Hlock, Hlockable. by rewrite !andb_true_r. }
  assert (Htrips2 : forall f, trips cfg users r2 f = (3 <=? f))
    by (intros f; by rewrite <- (trips_same_client _ _ _ _ _ Hsame2)).
  assert (Htrips3 : forall f, trips cfg users r3 f = (3 <=? f))
    by (intros f; by rewrite <- (trips_same_client _ _ _ _ _ Hsame3)).
  assert (Htrips4 : forall f, trips cfg users r4 f = (3 <=? f))
    by (intros f; by rewrite <- (trips_same_client _ _ _ _ _ Hsame4)).
  assert (H0 : nothing_counted cfg r1 ip (attempts s0)).
  { intros k a Hin. by apply (Hstart _ _ (_get_user_attempts_run _ _ _ s0 Hip1) k). }
  (* the first failure *)
  destruct (gate_nothing_counted cfg users t1 r1 ip s0 Hip1 Hpass ltac:(lia) H0)
    as (s0' & Hgate1 & H0').
  destruct (get_user_attempts_consistent cfg t1 r1 ip s0' Hip1) as (l1 & q1 & Hl1 & _).
  destruct (get_user_attempts_nothing_counted _ _ _ _ _ _ _ Hip1 H0' Hl1) as [Hmax1 _].
  destruct (check_request_counts cfg users t1 r1 ip s0' l1 q1 Hip1 Hl1)
    as (s1 & Hcheck1 & Hcount1); [by rewrite Htrips, Hmax1|].
  rewrite Hmax1 in Hcount1. simpl in Hcount1.
  apply (counting_same_client _ _ _ _ _ _ _ Hsame2) in Hcount1.
  (* the second failure *)
  pose proof (gate_while_counting cfg users t2 r2 ip 1 t1 s1 Hip2 Hpass Hcount1 H12)
    as Hgate2.
  rewrite Htrips2 in Hgate2. simpl in Hgate2.
  destruct (get_user_attempts_counting cfg t2 r2 ip 1 t1 (counted s1) Hip2 Hcount1 H12)
    as [Hl2 Hmax2]. specialize (Hmax2 ltac:(lia)).
  destruct (check_request_counts cfg users t2 r2 ip (counted s1) _ _ Hip2 Hl2)
    as (s2 & Hcheck2 & Hcount2); [by rewrite Htrips2, Hmax2|].
  rewrite Hmax2 in Hcount2. simpl in Hcount2.
  apply (counting_same_client _ _ _ _ _ _ _ (same_client_sym _ _ _ Hsame2)) in Hcount2.
  apply (counting_same_client _ _ _ _ _ _ _ Hsame3) in Hcount2.
  (* the third failure *)
  pose proof (gate_while_counting cfg users t3 r3 ip 2 t2 s2 Hip3 Hpass Hcount2 H23)
    as Hgate3.
  rewrite Htrips3 in Hgate3. simpl in Hgate3.
  destruct (get_user_attempts_counting cfg t3 r3 ip 2 t2 (counted s2) Hip3 Hcount2 H23)
    as [Hl3 Hmax3]. specialize (Hmax3 ltac:(lia)).
  destruct (check_request_trips cfg users t3 r3 ip (counted s2) _ _ Hip3 Hl3)
    as (s3 & Hcheck3 & k & a & Hin & Hfail & Htime); [by rewrite Htrips3, Hmax3|].
  rewrite Hmax3 in Hfail. simpl in Hfail.
  rewrite <- (found_same_client _ _ _ _ _ Hsame3) in Hin.
  rewrite (found_same_client _ _ _ _ _ Hsame4) in Hin.
  (* the request that follows *)
  destruct (gate_after_trip cfg users t4 r4 ip t3 s3 k a Hip4 Hpass Hin Htime)
    as (s3' & Hgate4); [by rewrite Htrips4, Hfail|done|].
  by exists s0', s1, (counted s1), s2, (counted s2), s3, s3'.
Qed.

Lemma three_failures_lock_out_witness :
  exists s0' s1 s1' s2 s2' s3 s3',
    is_already_locked default_settings ∅ 10 bob_with_user empty_store = (inr false, s0')
    /\ check_request default_settings ∅ 10 bob_with_user true s0' = (inr true, s1)
    /\ is_already_locked default_settings ∅ 20 bob_retry s1 = (inr false, s1')
    /\ check_request default_settings ∅ 20 bob_retry true s1' = (inr true, s2)
    /\ is_already_locked default_settings ∅ 30 bob_with_user s2 = (inr false, s2')
    /\ check_request default_settings ∅ 30 bob_with_user true s2' = (inl TypeError, s3)
    /\ is_already_locked default_settings ∅ 40 bob_retry s3 = (inr true, s3').
Proof.
  apply (three_failures_lock_out default_settings ∅ bob_with_user bob_retry bob_with_user
           bob_retry "198.51.100.4" 10 20 30 40 empty_store).
  - reflexivity.
  - reflexivity.
  - reflexivity.
  - vm_compute. reflexivity.
  - by repeat split.
  - by repeat split.
  - by repeat split.
  - split; [discriminate|reflexivity].
  - intros l s H. vm_compute in H. injection H as <- _.
    intros k a Hin. by apply not_elem_of_nil in Hin.
  - intros c Hc. discriminate Hc.
  - intros c Hc. discriminate Hc.
  - intros c Hc. discriminate Hc.
Defined.

(** * Further properties *)

(** ** The text kept of a query *)

Lemma length_substring_le s : forall m n, (String.length (substring m n s) <= n)%nat.
Proof.
  induction s as [|c s IH]; intros [|m] [|n]; simpl; try lia.
  - specialize (IH 0%nat n). lia.
  - apply (IH m 0%nat).
  - apply (IH m (S n)).
Qed.

(** X1. The text [query2str] returns is never longer than 1024
    characters, whatever was submitted. *)
Theorem query2str_at_most_max_length cfg items :
  (String.length (query2str cfg items) <= 1024)%nat.
Proof. unfold query2str, Py.slice_to. apply length_substring_le. Qed.

Lemma same_fields_query2str cfg (l l' : list (string * string)) :
  Forall2 (fun kv kv' : string * string =>
             fst kv = fst kv'
             /\ (fst kv <> PASSWORD_FORM_FIELD cfg -> snd kv = snd kv')) l l' ->
  query2str cfg l = query2str cfg l'.
Proof.
  intros H. unfold query2str. do 2 f_equal.
  induction H as [|[k v] [k' v'] l l' [Hk Hv] _ IH]; [done|].
  simpl in *. subst k'.
  destruct (String.eqb k (PASSWORD_FORM_FIELD cfg)) eqn:E; simpl; [done|].
  apply String.eqb_neq in E. by rewrite (Hv E), IH.
Qed.

Lemma same_fields_find cfg (l l' : list (string * string)) key :
  key <> PASSWORD_FORM_FIELD cfg ->
  Forall2 (fun kv kv' : string * string =>
             fst kv = fst kv'
             /\ (fst kv <> PASSWORD_FORM_FIELD cfg -> snd kv = snd kv')) l l' ->
  snd <$> List.find (fun kv => String.eqb (fst kv) key) l
  = snd <$> List.find (fun kv => String.eqb (fst kv) key) l'.
Proof.
  intros Hkey H.
  induction H as [|[k v] [k' v'] l l' [Hk Hv] _ IH]; [done|].
  simpl in *. subst k'.
  destruct (String.eqb k key) eqn:E; [|done].
  apply String.eqb_eq in E. subst k. simpl. by rewrite (Hv Hkey).
Qed.

(** X2. What is entered in the password field has no influence on the
    lockout decision or on anything the module stores: two requests that
    differ only there are treated alike by the gate and by the
    evaluation after the view. *)
Theorem password_is_never_stored cfg users now r r' login_unsuccessful s :
  USERNAME_FORM_FIELD cfg <> PASSWORD_FORM_FIELD cfg ->
  same_but_password cfg r r' ->
  is_already_locked cfg users now r s = is_already_locked cfg users now r' s
  /\ check_request cfg users now r login_unsuccessful s
     = check_request cfg users now r' login_unsuccessful s.
Proof.
  intros Hne (Hmeta & Hget & _ & Huser & Hpost).
  assert (Hname : POST_get r (USERNAME_FORM_FIELD cfg) = POST_get r' (USERNAME_FORM_FIELD cfg))
    by (unfold POST_get; eauto using same_fields_find).
  assert (Hq : query2str cfg (POST r) = query2str cfg (POST r'))
    by eauto using same_fields_query2str.
  split.
  - unfold is_already_locked, get_user_attempts, _get_user_attempts, get_ip,
      get_ip_address_from_request, trusted_query, untrusted_query,
      request_user_agent, is_user_lockable.
    by rewrite Hname, Hmeta.
  - unfold check_request, get_user_attempts, _get_user_attempts,
      create_new_failure_records, create_new_trusted_record, record_failure,
      get_ip, get_ip_address_from_request, trusted_query, untrusted_query,
      request_user_agent, is_user_lockable.
    by rewrite Hname, Hq, Hmeta, Hget, Huser.
Qed.

Lemma password_is_never_stored_witness :
  check_request default_settings ∅ 10 bob_request true empty_store
  = check_request default_settings ∅ 10 bob_other_password true empty_store.
Proof.
  apply (password_is_never_stored default_settings ∅ 10 bob_request bob_other_password
           true empty_store).
  - discriminate.
  - repeat split; try reflexivity.
    repeat constructor; simpl; congruence.
Defined.

(** ** Texts without white space *)

Lemma no_space_lstrip s : no_space s = true -> Py.lstrip s = s.
Proof. destruct s as [|c t]; simpl; [done|]. by destruct (Py.isspace c). Qed.

Lemma no_space_rstrip s : no_space s = true -> Py.rstrip s = s.
Proof.
  induction s as [|c t IH]; simpl; [done|].
  intros [Hc Ht]%andb_true_iff. rewrite (IH Ht).
  apply negb_true_iff in Hc. rewrite Hc. by destruct t.
Qed.

Lemma no_space_strip s : no_space s = true -> Py.strip s = s.
Proof. intros H. unfold Py.strip. by rewrite (no_space_lstrip s H), no_space_rstrip. Qed.

Lemma no_space_app s t : no_space (s +:+ t) = no_space s && no_space t.
Proof. induction s as [|c s IH]; simpl; [done|]. by rewrite IH, andb_assoc. Qed.

Lemma contains_app c s t : Py.contains c (s +:+ t) = Py.contains c s || Py.contains c t.
Proof. induction s as [|d s IH]; simpl; [done|]. by rewrite IH, orb_assoc. Qed.

Lemma c_isspace_isspace c : Inet.c_isspace c = true -> Py.isspace c = true.
Proof. destruct c as [[] [] [] [] [] [] [] []]; intros H; try discriminate H; reflexivity. Qed.

(** ** Characters of a number *)

Lemma value_of_no_colon base p : forall acc v,
  value_of base acc p = Some v -> Py.contains ":" p = false.
Proof.
  induction p as [|c p IH]; intros acc v; simpl; [done|].
  destruct (Inet.digit_val base c) as [d|] eqn:Hd; [|discriminate].
  intros H. rewrite (IH _ _ H), orb_false_r. clear IH H.
  destruct c as [[] [] [] [] [] [] [] []]; try reflexivity.
  exfalso. unfold Inet.digit_val in Hd. simpl in Hd.
  destruct (base =? 16); discriminate Hd.
Qed.

Lemma c_number_no_colon p v : c_number p v -> Py.contains ":" p = false.
Proof.
  intros [(x & h & -> & Hx & _ & Hv) | [(o & -> & Hv) | (c & t & -> & _ & _ & Hv)]].
  - simpl. rewrite (value_of_no_colon _ _ _ _ Hv), orb_false_r.
    destruct x as [[] [] [] [] [] [] [] []]; try discriminate Hx; reflexivity.
  - simpl. by rewrite (value_of_no_colon _ _ _ _ Hv).
  - by rewrite (value_of_no_colon _ _ _ _ Hv).
Qed.

Lemma join_no_colon (nums : list (string * Z)) :
  Forall (fun pv => c_number (fst pv) (snd pv)) nums ->
  Py.contains ":" (Py.join "." (fst <$> nums)) = false.
Proof.
  induction 1 as [|[p v] nums Hp _ IH]; [done|].
  destruct nums as [|q nums]; [exact (c_number_no_colon _ _ Hp)|].
  change (Py.join "." (fst <$> (p, v) :: q :: nums))
    with (p +:+ "." +:+ Py.join "." (fst <$> q :: nums)).
  simpl in Hp. rewrite !contains_app, IH, (c_number_no_colon _ _ Hp). reflexivity.
Qed.

(** X3. A text that has a colon and no white space, as every IPv6
    address has, is never a valid address for [is_valid_ip]. *)
Theorem is_valid_ip_rejects_colon_texts s :
  colon_text s = true -> is_valid_ip s = false.
Proof.
  intros [Hc Hs]%andb_true_iff.
  unfold is_valid_ip. rewrite (no_space_strip s Hs).
  destruct (Inet.inet_aton s) eqn:Hv; [exfalso|done].
  apply inet_aton_spec in Hv as [_ (nums & trailer & -> & Ht & Hn & _)].
  rewrite no_space_app in Hs. apply andb_true_iff in Hs as [_ Hs].
  rewrite contains_app, (join_no_colon _ Hn) in Hc. simpl in Hc.
  destruct Ht as [-> | (c & t' & -> & Hsp)]; [discriminate Hc|].
  simpl in Hs. by rewrite (c_isspace_isspace _ Hsp) in Hs.
Qed.

Lemma is_valid_ip_rejects_colon_texts_witness : is_valid_ip "2001:db8::1" = false.
Proof. apply is_valid_ip_rejects_colon_texts. reflexivity. Defined.

(** X4. Without forwarding headers, a connection from an IPv6 address
    (a text with a colon and no white space) is resolved to 127.0.0.1:
    all such clients share one address for the lockout. *)
Theorem ipv6_clients_resolve_to_loopback request remote_addr :
  Py.dict_get (META request) "HTTP_X_FORWARDED_FOR" "" = "" ->
  Py.dict_get (META request) "HTTP_X_REAL_IP" "" = "" ->
  Py.dict_get (META request) "REMOTE_ADDR" "" = remote_addr ->
  colon_text remote_addr = true ->
  get_ip_address_from_request request = "127.0.0.1".
Proof.
  intros Hf Hr Ha Hc.
  rewrite get_ip_address_from_request_in_order.
  unfold resolve_in_order, forwarded_candidates. rewrite Hf, Hr, Ha.
  by rewrite (is_valid_ip_rejects_colon_texts _ Hc).
Qed.

Lemma ipv6_clients_resolve_to_loopback_witness :
  get_ip_address_from_request ipv6_request = "127.0.0.1".
Proof.
  by apply (ipv6_clients_resolve_to_loopback ipv6_request "2001:db8::1").
Defined.

(** X5. The address resolved without a proxy is always one that
    [is_valid_ip] accepts, and it carries no surrounding white space. *)
Theorem resolved_address_is_valid request :
  is_valid_ip (get_ip_address_from_request request) = true
  /\ Py.strip (get_ip_address_from_request request) = get_ip_address_from_request request.
Proof.
  rewrite get_ip_address_from_request_in_order. unfold resolve_in_order.
  destruct (List.find kept _) as [ip|] eqn:Hf.
  - apply find_some in Hf as [_ [_ Hv]%andb_true_iff].
    by rewrite is_valid_ip_strip, strip_idemp.
  - cbv zeta. destruct (kept _) eqn:Hk.
    + apply andb_true_iff in Hk as [_ Hv]. by rewrite is_valid_ip_strip, strip_idemp.
    + destruct (is_valid_ip (Py.dict_get _ "REMOTE_ADDR" "")) eqn:Hv.
      * by rewrite is_valid_ip_strip, strip_idemp.
      * split; vm_compute; reflexivity.
Qed.

(** ** Dotted quads *)

Lemma app_empty_r_s (s : string) : s +:+ EmptyString = s.
Proof. induction s as [|c s IH]; [done|]. by rewrite app_cons_s, IH. Qed.

Lemma digit_val_10_plain c d :
  Inet.digit_val 10 c = Some d ->
  Py.isspace c = false /\ Ascii.eqb zero c = false /\ Inet.is_digit c = true.
Proof.
  destruct c as [[] [] [] [] [] [] [] []]; intros H; try discriminate H;
    repeat split; reflexivity.
Qed.

Lemma value_of_10_plain p : forall acc v,
  value_of 10 acc p = Some v -> no_space p = true /\ Py.contains zero p = false.
Proof.
  induction p as [|c p IH]; intros acc v; simpl; [done|].
  destruct (Inet.digit_val 10 c) as [d|] eqn:Hd; [|discriminate].
  intros [Hs Hz]%IH. apply digit_val_10_plain in Hd as (-> & Hc & _).
  rewrite Hs, Hz. split; [done|]. by rewrite orb_false_r.
Qed.

Lemma plain_byte_number p :
  plain_byte p = true ->
  exists v, c_number p v /\ v <= 255 /\ no_space p = true /\ Py.contains zero p = false.
Proof.
  unfold plain_byte, decimal_byte. intros [Hb Hz]%andb_true_iff.
  destruct p as [|c t]; [discriminate|].
  destruct (value_of 10 0 (String c t)) as [v|] eqn:Hv; [|discriminate].
  exists v. destruct (value_of_10_plain _ _ _ Hv) as [Hs Hn].
  split; [|by repeat split; [lia|..]].
  apply orb_true_iff in Hz as [[= -> ->]%String.eqb_eq | Hz].
  - right; left. exists "". split; [done|]. simpl in Hv. by injection Hv as <-.
  - right; right. exists c, t. repeat split; [|intros ->; destruct t; discriminate Hz|done].
    apply value_of_head in Hv as [d Hd]. by apply digit_val_10_plain in Hd as (_ & _ & ?).
Qed.

(** X6. Every dotted quad of four decimal bytes written without
    leading zeros is a valid address for [is_valid_ip]. *)
Theorem plain_dotted_quads_are_valid a b c d :
  plain_byte a = true -> plain_byte b = true ->
  plain_byte c = true -> plain_byte d = true ->
  is_valid_ip (a +:+ "." +:+ b +:+ "." +:+ c +:+ "." +:+ d) = true.
Proof.
  intros (va & Ha & Hva & Hsa & Hza)%plain_byte_number
         (vb & Hb & Hvb & Hsb & Hzb)%plain_byte_number
         (vc & Hc & Hvc & Hsc & Hzc)%plain_byte_number
         (vd & Hd & Hvd & Hsd & Hzd)%plain_byte_number.
  unfold is_valid_ip. rewrite no_space_strip.
  2: { rewrite !no_space_app, Hsa, Hsb, Hsc, Hsd. reflexivity. }
  apply inet_aton_spec. split.
  - rewrite !contains_app, Hza, Hzb, Hzc, Hzd. reflexivity.
  - exists [(a, va); (b, vb); (c, vc); (d, vd)], "". split; [|split; [|split]].
    + simpl. by rewrite app_empty_r_s.
    + by left.
    + by repeat apply Forall_cons_2; [..|apply Forall_nil_2].
    + by simpl.
Qed.

Lemma plain_dotted_quads_are_valid_witness :
  is_valid_ip ("203" +:+ "." +:+ "0" +:+ "." +:+ "113" +:+ "." +:+ "9") = true.
Proof. by apply plain_dotted_quads_are_valid. Defined.

(** ** The first entry of the proxy header *)

Lemma contains_before_first sep s : Py.contains sep (Py.before_first sep s) = false.
Proof.
  induction s as [|c s IH]; simpl; [done|].
  rewrite (Ascii.eqb_sym c sep).
  destruct (Ascii.eqb sep c) eqn:E; simpl; [done|]. by rewrite E.
Qed.

Lemma contains_lstrip c s : Py.contains c s = false -> Py.contains c (Py.lstrip s) = false.
Proof.
  induction s as [|d s IH]; simpl; [done|].
  intros [Hd Hs]%orb_false_iff. destruct (Py.isspace d); [auto|]. simpl. by rewrite Hd, Hs.
Qed.

Lemma contains_rstrip c s : Py.contains c s = false -> Py.contains c (Py.rstrip s) = false.
Proof.
  induction s as [|d s IH]; [done|].
  cbn [Py.contains Py.rstrip]. intros [Hd Hs]%orb_false_iff. specialize (IH Hs).
  destruct (Py.rstrip s) as [|e r].
  - destruct (Py.isspace d); [done|]. simpl. by rewrite Hd.
  - cbn [Py.contains] in *. by rewrite Hd, IH.
Qed.

(** X7. Behind a reverse proxy, whenever the configured header has a
    first entry that is not blank, [get_ip] returns that entry as it is,
    without checking that it is an address: the text before the first
    comma, stripped.  That text is never empty, has no comma and no
    surrounding white space. *)
Theorem proxy_header_first_entry_is_taken cfg request :
  BEHIND_REVERSE_PROXY cfg = true ->
  proxy_header_ip cfg request <> "" ->
  get_ip cfg request = inr (proxy_header_ip cfg request)
  /\ Py.contains "," (proxy_header_ip cfg request) = false
  /\ Py.strip (proxy_header_ip cfg request) = proxy_header_ip cfg request.
Proof.
  intros Hp Hne. split; [|split].
  - unfold get_ip. rewrite Hp. cbn [negb]. fold (proxy_header_ip cfg request).
    by destruct (String.eqb_spec (proxy_header_ip cfg request) "").
  - unfold proxy_header_ip, Py.strip.
    apply contains_rstrip, contains_lstrip, contains_before_first.
  - unfold proxy_header_ip. apply strip_idemp.
Qed.

Lemma proxy_header_first_entry_is_taken_witness :
  get_ip proxy_settings proxied_request = inr "gateway.example".
Proof.
  by apply (proxy_header_first_entry_is_taken proxy_settings proxied_request).
Defined.

(** ** Who can be locked out *)

(** X8. [is_user_lockable] answers no only for a submitted name that
    belongs to a user whose own [nolockout] attribute is true or, when
    the user has no such attribute and profiles are configured, whose
    profile has a true [nolockout]; an unknown name, a missing name and
    a missing profile are all lockable. *)
Theorem only_a_nolockout_flag_exempts cfg users request :
  is_user_lockable cfg users request = false <->
  exists name user,
    POST_get request (USERNAME_FORM_FIELD cfg) = Some name
    /\ users !! name = Some user
    /\ (nolockout user = Some true
        \/ (nolockout user = None /\ AUTH_PROFILE_MODULE cfg = true
            /\ get_profile user = ProfileObject (Some true))).
Proof.
  unfold is_user_lockable. split.
  - destruct (POST_get request (USERNAME_FORM_FIELD cfg)) as [name|]; [|done]. simpl.
    destruct (users !! name) as [user|] eqn:Hu; [|done].
    intros H. exists name, user. split; [done|]. split; [done|].
    destruct (nolockout user) as [[]|]; [by left|done|]. right.
    destruct (AUTH_PROFILE_MODULE cfg); [|done].
    by destruct (get_profile user) as [|[[]|]].
  - intros (name & user & -> & Hu & H). simpl. rewrite Hu.
    by destruct H as [-> | (-> & -> & ->)].
Qed.

Lemma trips_false cfg users request f :
  f < FAILURE_LIMIT cfg \/ LOCK_OUT_AT_FAILURE cfg = false
  \/ is_user_lockable cfg users request = false ->
  trips cfg users request f = false.
Proof.
  unfold trips. intros [H | [-> | ->]].
  - by apply Z.leb_gt in H as ->.
  - apply andb_false_iff. left. apply andb_false_r.
  - apply andb_false_r.
Qed.

Lemma trips_true cfg users request f :
  FAILURE_LIMIT cfg <= f -> LOCK_OUT_AT_FAILURE cfg = true ->
  is_user_lockable cfg users request = true ->
  trips cfg users request f = true.
Proof. unfold trips. intros H -> ->. by apply Z.leb_le in H as ->. Qed.

(** X9. When lockout at failure is switched off, or the user is exempt,
    the gate never reports a lockout for an address that passes the
    lists, and the evaluation after the view never blocks, whatever the
    table holds and whether or not the login succeeded. *)
Theorem exempt_users_are_never_locked_out cfg users now request ip s :
  get_ip cfg request = inr ip ->
  passes_lists cfg ip ->
  LOCK_OUT_AT_FAILURE cfg = false \/ is_user_lockable cfg users request = false ->
  (exists s', is_already_locked cfg users now request s = (inr false, s'))
  /\ forall login_unsuccessful,
       exists s', check_request cfg users now request login_unsuccessful s = (inr true, s').
Proof.
  intros Hip Hpass Hoff.
  destruct (get_user_attempts_consistent cfg now request ip s Hip) as (l & s1 & Hl & _).
  split.
  - exists s1. rewrite (is_already_locked_run _ _ _ _ _ _ _ _ Hip Hpass Hl). do 2 f_equal.
    apply existsb_false_iff. intros [k a] _.
    apply (trips_false cfg users request (failures_since_start a)). by right.
  - intros [|].
    + pose proof (check_request_failure_run cfg users now request ip s l s1 Hip Hl) as Hrun.
      cbv zeta in Hrun. rewrite trips_false in Hrun by by right. eauto.
    + pose proof (check_request_success_run cfg users now request ip s l s1 Hip Hl) as Hrun.
      cbv zeta in Hrun. rewrite trips_false in Hrun by by right. eauto.
Qed.

Lemma exempt_users_are_never_locked_out_witness :
  (exists s', is_already_locked default_settings bob_exempt 10 bob_request stale_store
              = (inr false, s'))
  /\ forall login_unsuccessful,
       exists s', check_request default_settings bob_exempt 10 bob_request
                    login_unsuccessful stale_store = (inr true, s').
Proof.
  apply (exempt_users_are_never_locked_out default_settings bob_exempt 10 bob_request
           "198.51.100.4" stale_store).
  - reflexivity.
  - split; [discriminate|reflexivity].
  - right. reflexivity.
Defined.

(** X10. With a failure limit of zero or less, lockout at failure on
    and a lockable user, the evaluation after the view allows no login,
    a successful one included: it blocks a request that carries no
    user and raises [TypeError] for a request that carries one. *)
Theorem nonpositive_limit_allows_no_login cfg users now request ip login_unsuccessful s :
  get_ip cfg request = inr ip ->
  FAILURE_LIMIT cfg <= 0 ->
  LOCK_OUT_AT_FAILURE cfg = true ->
  is_user_lockable cfg users request = true ->
  exists s',
    check_request cfg users now request login_unsuccessful s
    = (match user_is_authenticated request with
       | Some _ => inl TypeError
       | None => inr false
       end, s').
Proof.
  intros Hip Hlimit Hlock Huser.
  destruct (get_user_attempts_consistent cfg now request ip s Hip) as (l & s1 & Hl & _).
  destruct login_unsuccessful.
  - pose proof (check_request_failure_run cfg users now request ip s l s1 Hip Hl) as Hrun.
    cbv zeta in Hrun. rewrite trips_true in Hrun; [|pose proof (max_failures_nonneg l); lia|done..].
    rewrite Hrun. destruct (user_is_authenticated request); eauto.
  - pose proof (check_request_success_run cfg users now request ip s l s1 Hip Hl) as Hrun.
    cbv zeta in Hrun. rewrite trips_true in Hrun; [|done..].
    rewrite Hrun. destruct (user_is_authenticated request); eauto.
Qed.

Lemma nonpositive_limit_allows_no_login_witness :
  exists s', check_request zero_limit_settings ∅ 10 bob_with_user false empty_store
             = (inl TypeError, s').
Proof.
  apply (nonpositive_limit_allows_no_login zero_limit_settings ∅ 10 bob_with_user
           "198.51.100.4" false empty_store); [reflexivity|simpl; lia|reflexivity..].
Defined.

(** ** What the gate leaves behind *)

Lemma get_user_attempts_leaves cfg now request ip s l s' :
  get_ip cfg request = inr ip ->
  get_user_attempts cfg now request s = (inr l, s') ->
  attempts s'
  = match cooloff_enabled cfg with
    | None => attempts s
    | Some c =>
        attempts (fold_left (cool_store c now) (found cfg request ip (attempts s)) (counted s))
    end
  /\ access_log s' = access_log s /\ signals s' = signals s /\ logouts s' = logouts s.
Proof.
  intros Hip. rewrite (get_user_attempts_run cfg now request ip s Hip).
  destruct (cooloff_enabled cfg) as [c|]; [|by intros [= <- <-]].
  cbv zeta.
  pose proof (fold_cool_store_frame c now (found cfg request ip (attempts s)) (counted s))
    as (_ & Hlog & Hsig & Hout).
  cbv zeta in Hlog, Hsig, Hout.
  destruct (purged c now _); intros [= <- <-]; simpl; by rewrite Hlog, Hsig, Hout.
Qed.

(** X11. The gate never records anything: every row it leaves in the
    table was there before, unchanged or with its failure count reset
    to zero; the audit log, the signals sent and the sessions logged out
    are as before; and without a cool-off time the table is as before. *)
Theorem gate_never_records cfg users now request s :
  (forall k b, attempts (is_already_locked cfg users now request s).2 !! k = Some b ->
     exists a, attempts s !! k = Some a /\ (b = a \/ b = set_failures_since_start 0 a))
  /\ access_log (is_already_locked cfg users now request s).2 = access_log s
  /\ signals (is_already_locked cfg users now request s).2 = signals s
  /\ logouts (is_already_locked cfg users now request s).2 = logouts s
  /\ (cooloff_enabled cfg = None ->
      attempts (is_already_locked cfg users now request s).2 = attempts s).
Proof.
  destruct (get_ip cfg request) as [e|ip] eqn:Hip.
  { destruct (get_ip_raises_everywhere cfg users request e Hip now s) as (_ & _ & -> & _).
    simpl. repeat split; eauto. }
  destruct (ONLY_WHITELIST cfg && negb (ip_in_whitelist cfg ip)) eqn:Hw.
  { unfold is_already_locked. rewrite Hip. simpl. unfold bind, ret. simpl. rewrite Hw.
    repeat split; eauto. }
  destruct (ip_in_blacklist cfg ip) eqn:Hb.
  { unfold is_already_locked. rewrite Hip. simpl. unfold bind, ret. simpl. rewrite Hw, Hb.
    repeat split; eauto. }
  assert (Hpass : passes_lists cfg ip).
  { split; [|done]. intros Ho. rewrite Ho in Hw. by apply negb_false_iff in Hw. }
  destruct (get_user_attempts_consistent cfg now request ip s Hip) as (l & s1 & Hl & _).
  rewrite (is_already_locked_run _ _ _ _ _ _ _ _ Hip Hpass Hl). cbn [snd].
  destruct (get_user_attempts_leaves _ _ _ _ _ _ _ Hip Hl) as (Hatt & Hlog & Hsig & Hout).
  split; [|by repeat split; [..|intros Hc; rewrite Hatt, Hc]].
  intros k b. rewrite Hatt.
  destruct (cooloff_enabled cfg) as [c|]; [|eauto].
  intros [H | (a & Hin & _ & ->)]%fold_cool_store_lookup_Some; [eauto| |apply found_NoDup].
  apply elem_of_found_lookup in Hin. eauto.
Qed.

(** ** Trusted rows come first *)

(** X12. When the table holds a trusted row for the address and the
    submitted name, the gate judges the request by the trusted rows
    alone: if each of them is below a positive failure limit the request
    is let through, whatever the untrusted rows of the address hold. *)
Theorem trusted_rows_shadow_untrusted_rows cfg users now request ip s :
  get_ip cfg request = inr ip ->
  passes_lists cfg ip ->
  0 < FAILURE_LIMIT cfg ->
  (exists k a, attempts s !! k = Some a /\ trusted_match cfg request ip a) ->
  (forall k a, attempts s !! k = Some a -> trusted_match cfg request ip a ->
               failures_since_start a < FAILURE_LIMIT cfg) ->
  exists s', is_already_locked cfg users now request s = (inr false, s').
Proof.
  intros Hip Hpass Hlimit (k0 & a0 & Hk0 & Hm0) Hbelow.
  destruct (get_user_attempts_consistent cfg now request ip s Hip) as (l & s1 & Hl & _).
  exists s1. rewrite (is_already_locked_run _ _ _ _ _ _ _ _ Hip Hpass Hl). do 2 f_equal.
  apply existsb_false_iff. intros [k b] Hin.
  destruct (get_user_attempts_rows_from _ _ _ _ _ _ _ Hip Hl k b Hin) as (a & Ha & Hb).
  assert (Hfound : found cfg request ip (attempts s)
                   = rows (trusted_query cfg request ip) (attempts s)).
  { destruct (found_cases cfg request ip (attempts s)) as [[_ E] | [E _]]; [done|].
    assert ((k0, a0) ∈ rows (trusted_query cfg request ip) (attempts s))
      by by apply elem_of_rows, conj, trusted_query_match.
    rewrite E in H. by apply not_elem_of_nil in H. }
  rewrite Hfound in Ha. apply elem_of_rows in Ha as [Hk Hq%trusted_query_match].
  specialize (Hbelow k a Hk Hq). cbn [snd].
  assert ((FAILURE_LIMIT cfg <=? failures_since_start b) = false) as ->; [|done].
  apply Z.leb_gt. destruct Hb as [-> | ->]; [done|]. simpl. lia.
Qed.

Lemma trusted_rows_shadow_untrusted_rows_witness :
  exists s', is_already_locked default_settings ∅ 10 bob_request shadowed_store
             = (inr false, s').
Proof.
  apply (trusted_rows_shadow_untrusted_rows default_settings ∅ 10 bob_request
           "198.51.100.4" shadowed_store).
  - reflexivity.
  - split; [discriminate|reflexivity].
  - reflexivity.
  - exists 2%positive, bob_trusted. split; [reflexivity|]. by repeat split.
  - intros k a Hk (Ht & _).
    destruct (decide (k = 2%positive)) as [->|Hne].
    + unfold shadowed_store in Hk. simpl in Hk. rewrite lookup_insert_eq in Hk.
      by injection Hk as <-.
    + unfold shadowed_store in Hk. simpl in Hk. rewrite lookup_insert_ne in Hk by done.
      destruct (decide (k = 1%positive)) as [->|Hne1].
      * rewrite lookup_insert_eq in Hk. injection Hk as <-. discriminate Ht.
      * rewrite lookup_insert_ne, lookup_empty in Hk by done. discriminate Hk.
Defined.

(** ** The end of a lockout *)

(** X13. Once the cool-off time has passed for every row found for a
    request, the gate lets the request through (the address passing the
    lists and the failure limit being positive), and every row found
    for the request afterwards has a failure count of zero. *)
Theorem cooloff_ends_the_lockout cfg users now request ip c matched s0 s :
  COOLOFF_TIME cfg = Some c -> c <> 0 ->
  0 < FAILURE_LIMIT cfg ->
  get_ip cfg request = inr ip ->
  passes_lists cfg ip ->
  _get_user_attempts cfg request s = (inr matched, s0) ->
  (forall k a, (k, a) ∈ matched -> attempt_time a + c < now) ->
  exists s',
    is_already_locked cfg users now request s = (inr false, s')
    /\ forall l s2, _get_user_attempts cfg request s' = (inr l, s2) ->
                    forall k a, (k, a) ∈ l -> failures_since_start a = 0.
Proof.
  intros Hc Hc0 Hlimit Hip Hpass Hm Hexp.
  rewrite (_get_user_attempts_run cfg request ip s Hip) in Hm. injection Hm as <- <-.
  assert (Hcool : cooloff_enabled cfg = Some c) by by apply cooloff_enabled_Some.
  destruct (get_user_attempts_consistent cfg now request ip s Hip) as (l & s1 & Hl & Hcons & _).
  destruct (get_user_attempts_leaves _ _ _ _ _ _ _ Hip Hl) as (Hatt & _).
  rewrite Hcool in Hatt.
  assert (Hzero : forall k b, (k, b) ∈ l -> failures_since_start b = 0).
  { intros k b Hin.
    destruct (get_user_attempts_rows_from _ _ _ _ _ _ _ Hip Hl k b Hin) as (a & Ha & _).
    apply Hcons, elem_of_found_lookup in Hin. rewrite Hatt in Hin.
    rewrite (fold_cool_store_expired c now _ k a) in Hin;
      [|apply found_NoDup|done|by apply Z.ltb_lt, (Hexp k a)].
    destruct (trusted a); [|discriminate]. by injection Hin as <-. }
  exists s1. split.
  - rewrite (is_already_locked_run _ _ _ _ _ _ _ _ Hip Hpass Hl). do 2 f_equal.
    apply existsb_false_iff. intros [k b] Hin. cbn [snd]. rewrite (Hzero k b Hin).
    by apply Z.leb_gt in Hlimit as ->.
  - intros l' s2. rewrite (_get_user_attempts_run cfg request ip s1 Hip).
    intros [= <- <-] k a Hin. apply (Hzero k a). by apply Hcons.
Qed.

Lemma cooloff_ends_the_lockout_witness :
  exists s',
    is_already_locked (cooloff_settings 3) ∅ 10 bob_request stale_store = (inr false, s')
    /\ forall l s2, _get_user_attempts (cooloff_settings 3) bob_request s' = (inr l, s2) ->
                    forall k a, (k, a) ∈ l -> failures_since_start a = 0.
Proof.
  apply (cooloff_ends_the_lockout (cooloff_settings 3) ∅ 10 bob_request "198.51.100.4" 3
           (found (cooloff_settings 3) bob_request "198.51.100.4" (attempts stale_store))
           (counted stale_store) stale_store);
    [reflexivity|discriminate|reflexivity|reflexivity|split; [discriminate|reflexivity]
    |reflexivity|].
  intros k a Hin. vm_compute in Hin.
  apply list_elem_of_singleton in Hin. injection Hin as _ ->. reflexivity.
Defined.

(** X14. A row at or above the failure limit that has not cooled off
    keeps the client locked out, and a request refused by the gate
    leaves that row as it is: its time stamp is not moved, so requests
    made during a lockout do not prolong it. *)
Theorem refused_requests_do_not_prolong_the_lockout cfg users now request ip matched s0 k a s :
  get_ip cfg request = inr ip ->
  passes_lists cfg ip ->
  _get_user_attempts cfg request s = (inr matched, s0) ->
  (k, a) ∈ matched ->
  FAILURE_LIMIT cfg <= failures_since_start a ->
  LOCK_OUT_AT_FAILURE cfg = true ->
  is_user_lockable cfg users request = true ->
  (forall c, COOLOFF_TIME cfg = Some c -> c <> 0 -> ~ attempt_time a + c < now) ->
  exists s',
    is_already_locked cfg users now request s = (inr true, s')
    /\ attempts s' !! k = Some a
    /\ exists l s2, _get_user_attempts cfg request s' = (inr l, s2) /\ (k, a) ∈ l.
Proof.
  intros Hip Hpass Hm Hin Hlimit Hlock Huser Hfresh.
  rewrite (_get_user_attempts_run cfg request ip s Hip) in Hm. injection Hm as <- <-.
  destruct (get_user_attempts_consistent cfg now request ip s Hip) as (l & s1 & Hl & Hcons & _).
  assert (Hkept : (k, a) ∈ l).
  { apply (get_user_attempts_keeps _ _ _ _ _ _ _ _ _ Hip Hl Hin).
    intros c [Hc Hc0]%cooloff_enabled_Some. apply Z.ltb_ge.
    specialize (Hfresh c Hc Hc0). lia. }
  exists s1. split; [|split].
  - rewrite (is_already_locked_run _ _ _ _ _ _ _ _ Hip Hpass Hl). do 2 f_equal.
    apply existsb_exists. exists (k, a). split; [by apply list_elem_of_In|].
    cbn [snd]. rewrite Hlock, Huser. by apply Z.leb_le in Hlimit as ->.
  - by apply Hcons, elem_of_found_lookup in Hkept.
  - rewrite (_get_user_attempts_run cfg request ip s1 Hip). eexists _, _. split; [done|].
    by apply Hcons.
Qed.

Lemma refused_requests_do_not_prolong_the_lockout_witness :
  exists s',
    is_already_locked (cooloff_settings 3) ∅ 7 bob_request stale_store = (inr true, s')
    /\ attempts s' !! 1%positive = Some stale_record
    /\ exists l s2, _get_user_attempts (cooloff_settings 3) bob_request s' = (inr l, s2)
                    /\ (1%positive, stale_record) ∈ l.
Proof.
  apply (refused_requests_do_not_prolong_the_lockout (cooloff_settings 3) ∅ 7 bob_request
           "198.51.100.4"
           (found (cooloff_settings 3) bob_request "198.51.100.4" (attempts stale_store))
           (counted stale_store) 1%positive stale_record stale_store);
    [reflexivity|split; [discriminate|reflexivity]|reflexivity| |simpl; lia
    |reflexivity|reflexivity|].
  - vm_compute. left.
  - intros c [= <-] _. simpl. lia.
Defined.

(** ** What the evaluation tells the rest of the site *)

Lemma fold_save_row_side g l : forall s,
  access_log (fold_left (save_row g) l s) = access_log s
  /\ signals (fold_left (save_row g) l s) = signals s
  /\ logouts (fold_left (save_row g) l s) = logouts s.
Proof.
  induction l as [|ka l IH]; intros s; simpl; [done|].
  by destruct (IH (save_row g s ka)) as (-> & -> & ->).
Qed.

Lemma forget_store_side s ka :
  access_log (forget_store s ka) = access_log s
  /\ signals (forget_store s ka) = signals s
  /\ logouts (forget_store s ka) = logouts s.
Proof. unfold forget_store. by destruct (negb _). Qed.

Lemma fold_forget_store_side l : forall s,
  access_log (fold_left forget_store l s) = access_log s
  /\ signals (fold_left forget_store l s) = signals s
  /\ logouts (fold_left forget_store l s) = logouts s.
Proof.
  induction l as [|ka l IH]; intros s; simpl; [done|].
  destruct (IH (forget_store s ka)) as (-> & -> & ->). apply forget_store_side.
Qed.

Lemma with_trusted_record_side cfg now request ip s :
  access_log (with_trusted_record cfg now request ip s) = access_log s
  /\ signals (with_trusted_record cfg now request ip s) = signals s
  /\ logouts (with_trusted_record cfg now request ip s) = logouts s.
Proof.
  unfold with_trusted_record. destruct (POST_get _ _) as [name|]; [|done].
  by destruct (Py.truthy name).
Qed.

Lemma fold_revoke_store_side n l : forall s,
  access_log (fold_left (revoke_store n) l s) = access_log s
  /\ signals (fold_left (revoke_store n) l s) = signals s
  /\ logouts (fold_left (revoke_store n) l s) = logouts s.
Proof.
  induction l as [|ka l IH]; intros s; simpl; [done|].
  by destruct (IH (revoke_store n s ka)) as (-> & -> & ->).
Qed.

Lemma check_request_tells cfg users now request ip login_unsuccessful s :
  get_ip cfg request = inr ip ->
  exists r s',
    check_request cfg users now request login_unsuccessful s = (r, s')
    /\ access_log s' = access_log s
    /\ logouts s' = logouts s
    /\ ((r = inr true /\ signals s' = signals s)
        \/ (r = inr false /\ user_is_authenticated request = None
            /\ signals s' = (POST_get request (USERNAME_FORM_FIELD cfg), ip) :: signals s)
        \/ (r = inl TypeError /\ is_Some (user_is_authenticated request)
            /\ signals s' = signals s)).
Proof.
  intros Hip.
  destruct (get_user_attempts_consistent cfg now request ip s Hip) as (l & s1 & Hl & _).
  destruct (get_user_attempts_leaves _ _ _ _ _ _ _ Hip Hl) as (_ & Hlog & Hsig & Hout).
  assert (Hgen : forall f (l2 : list Attempt) s2,
            access_log s2 = access_log s1 -> signals s2 = signals s1 ->
            logouts s2 = logouts s1 ->
            check_request cfg users now request login_unsuccessful s
            = (if trips cfg users request f then
                 match user_is_authenticated request with
                 | Some _ => (inl TypeError, s2)
                 | None =>
                     (inr false,
                      fold_left (revoke_store (failure_record cfg now request ip f))
                        (List.filter (fun ka => trusted ka.2) l2)
                        (told (POST_get request (USERNAME_FORM_FIELD cfg)) ip s2))
                 end
               else (inr true, s2)) ->
            exists r s',
              check_request cfg users now request login_unsuccessful s = (r, s')
              /\ access_log s' = access_log s
              /\ logouts s' = logouts s
              /\ ((r = inr true /\ signals s' = signals s)
                  \/ (r = inr false /\ user_is_authenticated request = None
                      /\ signals s'
                         = (POST_get request (USERNAME_FORM_FIELD cfg), ip) :: signals s)
                  \/ (r = inl TypeError /\ is_Some (user_is_authenticated request)
                      /\ signals s' = signals s))).
  { intros f l2 s2 Hlog2 Hsig2 Hout2 Hrun.
    destruct (trips cfg users request f).
    - destruct (user_is_authenticated request) as [b|]; eexists _, _; (split; [exact Hrun|]).
      + rewrite Hlog2, Hsig2, Hout2, Hlog, Hsig, Hout. eauto 10.
      + destruct (fold_revoke_store_side (failure_record cfg now request ip f)
                    (List.filter (fun ka => trusted ka.2) l2)
                    (told (POST_get request (USERNAME_FORM_FIELD cfg)) ip s2))
          as (-> & -> & ->).
        simpl. rewrite Hlog2, Hsig2, Hout2, Hlog, Hsig, Hout. eauto 10.
    - eexists _, _. split; [exact Hrun|].
      rewrite Hlog2, Hsig2, Hout2, Hlog, Hsig, Hout. eauto 10. }
  destruct login_unsuccessful.
  - pose proof (check_request_failure_run cfg users now request ip s l s1 Hip Hl) as Hrun.
    cbv zeta in Hrun. eapply Hgen; [..|exact Hrun].
    all: destruct l; [done|apply fold_save_row_side].
  - pose proof (check_request_success_run cfg users now request ip s l s1 Hip Hl) as Hrun.
    cbv zeta in Hrun. eapply Hgen; [..|exact Hrun].
    all: destruct (fold_forget_store_side l s1) as (H1 & H2 & H3);
      destruct (existsb _ l); [done|];
      destruct (with_trusted_record_side cfg now request ip (fold_left forget_store l s1))
        as (E1 & E2 & E3); congruence.
Qed.

(** X15. The evaluation after the view always ends: it allows, it
    blocks (only a request that carries no user), or it raises
    [TypeError] (only a request that carries one).  It sends the
    [user_locked_out] signal, with the submitted name and the address,
    exactly once when it blocks and never otherwise; it never logs a
    session out and never writes to the audit log. *)
Theorem lockout_signal_is_sent_exactly_when_blocked cfg users now request ip
    login_unsuccessful s :
  get_ip cfg request = inr ip ->
  exists r s',
    check_request cfg users now request login_unsuccessful s = (r, s')
    /\ access_log s' = access_log s
    /\ logouts s' = logouts s
    /\ ((r = inr true /\ signals s' = signals s)
        \/ (r = inr false /\ user_is_authenticated request = None
            /\ signals s' = (POST_get request (USERNAME_FORM_FIELD cfg), ip) :: signals s)
        \/ (r = inl TypeError /\ is_Some (user_is_authenticated request)
            /\ signals s' = signals s)).
Proof. apply check_request_tells. Qed.

Lemma lockout_signal_is_sent_exactly_when_blocked_witness :
  exists r s',
    check_request zero_limit_settings ∅ 10 bob_request true empty_store = (r, s')
    /\ access_log s' = access_log empty_store
    /\ logouts s' = logouts empty_store
    /\ ((r = inr true /\ signals s' = signals empty_store)
        \/ (r = inr false /\ user_is_authenticated bob_request = None
            /\ signals s'
               = (POST_get bob_request (USERNAME_FORM_FIELD zero_limit_settings),
                  "198.51.100.4") :: signals empty_store)
        \/ (r = inl TypeError /\ is_Some (user_is_authenticated bob_request)
            /\ signals s' = signals empty_store)).
Proof.
  by apply (lockout_signal_is_sent_exactly_when_blocked zero_limit_settings ∅ 10 bob_request
              "198.51.100.4" true empty_store).
Defined.

(** ** What a failed login writes *)

Lemma matched_uniform cfg now request s l s1 :
  get_user_attempts cfg now request s = (inr l, s1) ->
  (forall k a, (k, a) ∈ l -> trusted a = true)
  \/ (forall k a, (k, a) ∈ l -> trusted a = false).
Proof.
  intros (ip & _ & _ & Hcons)%get_user_attempts_inv.
  destruct (found_uniform cfg request ip (attempts s1)) as [H | H]; [left|right];
    intros k a Hin; apply (H k a); by apply Hcons.
Qed.

Lemma fold_revoke_store_keeps n l : forall s k,
  k ∈ known s -> k ∉ l.*1 ->
  attempts (fold_left (revoke_store n) l s) !! k = attempts s !! k.
Proof.
  induction l as [|[k0 a0] l IH]; intros s k Hk Hnot; [done|].
  rewrite fmap_cons, not_elem_of_cons in Hnot. destruct Hnot as [Hne Hnot]. simpl.
  rewrite IH; [|by apply known_revoke_store|done].
  by apply revoke_store_lookup.
Qed.

(** X16. A failed login that does not trip the lockout is allowed and
    leaves its mark as follows.  If rows were found for the request,
    each of them is rewritten: its count becomes one more than the
    largest count among them, its time stamp the time of the request,
    and the request's data is appended; no other row changes.  If none
    was found, one new untrusted row with a count of one is created and
    no other row changes. *)
Theorem failed_login_below_the_limit cfg users now request ip matched s0 s :
  get_ip cfg request = inr ip ->
  get_user_attempts cfg now request s = (inr matched, s0) ->
  max_failures matched + 1 < FAILURE_LIMIT cfg \/ LOCK_OUT_AT_FAILURE cfg = false
  \/ is_user_lockable cfg users request = false ->
  exists s',
    check_request cfg users now request true s = (inr true, s')
    /\ (forall k a, (k, a) ∈ matched ->
          attempts s' !! k
          = Some (record_failure cfg now request (max_failures matched + 1) a))
    /\ (matched <> [] -> forall k, k ∉ matched.*1 -> attempts s' !! k = attempts s0 !! k)
    /\ (matched = [] ->
        exists pk, attempts s0 !! pk = None
          /\ attempts s' !! pk = Some (failure_record cfg now request ip 1)
          /\ forall k, k <> pk -> attempts s' !! k = attempts s0 !! k).
Proof.
  intros Hip Hl Hbelow.
  destruct (get_user_attempts_inv _ _ _ _ _ _ Hl) as (_ & _ & Hnd & _).
  pose proof (check_request_failure_run cfg users now request ip s matched s0 Hip Hl) as Hrun.
  cbv zeta in Hrun. rewrite (trips_false _ _ _ _ Hbelow) in Hrun.
  eexists. split; [exact Hrun|].
  destruct matched as [|x l]; (split; [|split]).
  - by intros k a Hin%not_elem_of_nil.
  - done.
  - intros _. exists (next_pk s0). split; [apply next_pk_lookup|]. split.
    + simpl. by rewrite lookup_insert_eq.
    + intros k Hk. simpl. by rewrite lookup_insert_ne.
  - intros k a Hin. by apply fold_save_row_in.
  - intros _ k Hk. by apply fold_save_row_not_in.
  - done.
Qed.

Lemma failed_login_below_the_limit_witness :
  exists s',
    check_request default_settings ∅ 10 bob_request true empty_store = (inr true, s')
    /\ exists pk, attempts s' !! pk
                  = Some (failure_record default_settings 10 bob_request "198.51.100.4" 1).
Proof.
  destruct (failed_login_below_the_limit default_settings ∅ 10 bob_request "198.51.100.4"
              [] (counted empty_store) empty_store)
    as (s' & Hrun & _ & _ & Hnew); [reflexivity|reflexivity|left; reflexivity|].
  destruct (Hnew eq_refl) as (pk & _ & Hpk & _).
  exists s'. split; [exact Hrun|]. by exists pk.
Defined.

(** X17. A failed login that trips the lockout, sent by a request
    that carries no user, is blocked, and trust is revoked: every
    trusted row found for the request is deleted and, if there was one,
    an untrusted row with the new count is created in its place; an
    untrusted row found for the request is rewritten with the new
    count.  A row with the new count, written at the time of the
    request, is found for the request afterwards. *)
Theorem blocked_login_revokes_trust cfg users now request ip matched s0 s :
  get_ip cfg request = inr ip ->
  get_user_attempts cfg now request s = (inr matched, s0) ->
  FAILURE_LIMIT cfg <= max_failures matched + 1 ->
  LOCK_OUT_AT_FAILURE cfg = true ->
  is_user_lockable cfg users request = true ->
  user_is_authenticated request = None ->
  exists s',
    check_request cfg users now request true s = (inr false, s')
    /\ (forall k a, (k, a) ∈ matched -> trusted a = true -> attempts s' !! k = None)
    /\ (forall k a, (k, a) ∈ matched -> trusted a = false ->
          attempts s' !! k
          = Some (record_failure cfg now request (max_failures matched + 1) a))
    /\ ((exists k a, (k, a) ∈ matched /\ trusted a = true) ->
        exists pk, (pk ∉ matched.*1)
          /\ attempts s' !! pk
             = Some (failure_record cfg now request ip (max_failures matched + 1)))
    /\ exists l s2, _get_user_attempts cfg request s' = (inr l, s2)
         /\ exists k a, (k, a) ∈ l
              /\ failures_since_start a = max_failures matched + 1
              /\ attempt_time a = now.
Proof.
  intros Hip Hl Hlimit Hlock Huser Hnone.
  pose proof (trips_true cfg users request _ Hlimit Hlock Huser) as Htrips.
  destruct (get_user_attempts_inv _ _ _ _ _ _ Hl) as (_ & _ & Hnd & _).
  pose proof (matched_uniform _ _ _ _ _ _ Hl) as Huni.
  destruct (check_request_trips cfg users now request ip s matched s0 Hip Hl Htrips)
    as (s3 & Hrun3 & Hfound).
  pose proof (check_request_failure_run cfg users now request ip s matched s0 Hip Hl) as Hrun.
  cbv zeta in Hrun. rewrite Htrips in Hrun. rewrite Hnone in Hrun, Hrun3.
  set (f := max_failures matched + 1) in *.
  set (g := record_failure cfg now request f) in *.
  set (n := failure_record cfg now request ip f) in *.
  set (s2 := match matched with
             | [] => with_new_row n s0
             | _ => fold_left (save_row g) matched s0
             end) in *.
  set (l2 := match matched with [] => matched | _ => prod_map id g <$> matched end) in *.
  set (s2' := told (POST_get request (USERNAME_FORM_FIELD cfg)) ip s2) in *.
  set (L := List.filter (fun ka => trusted ka.2) l2) in *.
  assert (Hs2 : forall k a, (k, a) ∈ matched -> attempts s2' !! k = Some (g a)).
  { intros k a Hin. unfold s2', s2. destruct matched as [|x l]; [by apply not_elem_of_nil in Hin|].
    exact (fold_save_row_in g (x :: l) k a s0 Hnd Hin). }
  assert (Hl2 : forall k a, (k, a) ∈ matched -> (k, g a) ∈ l2).
  { intros k a Hin. unfold l2. destruct matched as [|x l]; [by apply not_elem_of_nil in Hin|].
    apply list_elem_of_fmap. by exists (k, a). }
  assert (HL : forall k, k ∈ L.*1 -> exists a, (k, a) ∈ matched /\ trusted a = true).
  { intros k ([k' b] & -> & [Hin Ht]%trusted_filter_elem)%list_elem_of_fmap.
    unfold l2 in Hin. destruct matched as [|x l]; [by apply not_elem_of_nil in Hin|].
    apply list_elem_of_fmap in Hin as ([k'' a] & [= -> ->] & Hin). eauto. }
  exists (fold_left (revoke_store n) L s2'). split; [exact Hrun|].
  split; [|split; [|split]].
  - intros k a Hin Ht. apply fold_revoke_store_gone.
    + apply (known_lookup _ _ (g a)). by apply Hs2.
    + right. apply list_elem_of_fmap. exists (k, g a). split; [done|].
      apply trusted_filter_elem. split; [by apply Hl2|done].
  - intros k a Hin Ht. rewrite fold_revoke_store_keeps; [by apply Hs2| |].
    + apply (known_lookup _ _ (g a)). by apply Hs2.
    + intros (a' & Hin' & Ht')%HL.
      rewrite (NoDup_fst_functional _ _ _ _ Hnd Hin Hin') in Ht. congruence.
  - intros (k & a & Hin & Ht).
    assert (HLne : L <> []).
    { intros E. assert (HinL : (k, g a) ∈ L)
        by (apply trusted_filter_elem; split; [by apply Hl2|done]).
      rewrite E in HinL. by apply not_elem_of_nil in HinL. }
    destruct (fold_revoke_store_new n L s2' HLne) as [pk Hpk].
    exists pk. split; [|done].
    intros ([k' a'] & -> & Hin')%list_elem_of_fmap.
    destruct Huni as [Hall | Hall]; [|by rewrite (Hall k a Hin) in Ht].
    cbn [fst] in Hpk.
    rewrite (fold_revoke_store_gone n L s2' k') in Hpk; [discriminate| |].
    + apply (known_lookup _ _ (g a')). by apply Hs2.
    + right. apply list_elem_of_fmap. exists (k', g a'). split; [done|].
      apply trusted_filter_elem. split; [by apply Hl2|]. by apply (Hall k' a').
  - rewrite Hrun in Hrun3. injection Hrun3 as <-.
    rewrite (_get_user_attempts_run cfg request ip _ Hip). eauto.
Qed.

Lemma blocked_login_revokes_trust_witness :
  exists s',
    check_request default_settings ∅ 10 bob_request true stale_store = (inr false, s')
    /\ attempts s' !! 1%positive
       = Some (record_failure default_settings 10 bob_request 4 stale_record).
Proof.
  destruct (blocked_login_revokes_trust default_settings ∅ 10 bob_request "198.51.100.4"
              [(1%positive, stale_record)] (counted stale_store) stale_store)
    as (s' & Hrun & _ & Hun & _);
    [reflexivity|reflexivity|unfold max_failures; simpl; lia|reflexivity..|].
  exists s'. split; [exact Hrun|]. apply (Hun 1%positive stale_record); [left|reflexivity].
Defined.

(** ** The allow-list *)

(** X18. Unless only the allow-list is let in, being on the allow-list
    exempts nobody: the gate and the evaluation after the view do not
    depend on the allow-list at all (the site not being set up for
    direct access past a reverse proxy). *)
Theorem allow_list_exempts_nobody cfg whitelist users now request login_unsuccessful s :
  ONLY_WHITELIST cfg = false ->
  BEHIND_REVERSE_PROXY cfg = false \/ BEHIND_REVERSE_PROXY_WITH_DIRECT_ACCESS cfg = false ->
  is_already_locked (with_whitelist whitelist cfg) users now request s
  = is_already_locked cfg users now request s
  /\ check_request (with_whitelist whitelist cfg) users now request login_unsuccessful s
     = check_request cfg users now request login_unsuccessful s.
Proof.
  intros Ho Hp. destruct cfg. simpl in Ho, Hp. subst.
  destruct Hp as [-> | ->]; split; reflexivity.
Qed.

Lemma allow_list_exempts_nobody_witness :
  is_already_locked (with_whitelist (Some ["198.51.100.4"]) default_settings) ∅ 10
    bob_request stale_store
  = is_already_locked default_settings ∅ 10 bob_request stale_store.
Proof.
  apply (allow_list_exempts_nobody default_settings (Some ["198.51.100.4"]) ∅ 10
           bob_request true stale_store); [reflexivity|left; reflexivity].
Defined.

(** ** The decorator *)

Lemma is_already_locked_side cfg users now request s r s1 :
  is_already_locked cfg users now request s = (r, s1) ->
  access_log s1 = access_log s /\ signals s1 = signals s /\ logouts s1 = logouts s.
Proof.
  destruct (get_ip cfg request) as [e|ip] eqn:Hip.
  { destruct (get_ip_raises_everywhere cfg users request e Hip now s) as (_ & _ & -> & _).
    by intros [= _ <-]. }
  destruct (ONLY_WHITELIST cfg && negb (ip_in_whitelist cfg ip)) eqn:Hw.
  { unfold is_already_locked. rewrite Hip. simpl. unfold bind, ret. simpl. rewrite Hw.
    by intros [= _ <-]. }
  destruct (ip_in_blacklist cfg ip) eqn:Hb.
  { unfold is_already_locked. rewrite Hip. simpl. unfold bind, ret. simpl. rewrite Hw, Hb.
    by intros [= _ <-]. }
  assert (Hpass : passes_lists cfg ip).
  { split; [|done]. intros Ho. rewrite Ho in Hw. by apply negb_false_iff in Hw. }
  destruct (get_user_attempts_consistent cfg now request ip s Hip) as (l & s2 & Hl & _).
  rewrite (is_already_locked_run _ _ _ _ _ _ _ _ Hip Hpass Hl). intros [= _ <-].
  rewrite (get_user_attempts_run cfg now request ip s Hip) in Hl.
  destruct (cooloff_enabled cfg) as [c|]; [|by injection Hl as _ <-].
  cbv zeta in Hl.
  pose proof (fold_cool_store_frame c now (found cfg request ip (attempts s)) (counted s))
    as (_ & Hlog & Hsig & Hout).
  cbv zeta in Hlog, Hsig, Hout.
  destruct (purged c now _); injection Hl as _ <-; simpl; by rewrite Hlog, Hsig, Hout.
Qed.

(** X19. A request the gate reports as locked out never reaches the
    view: whatever the view is, the decorator ends as [lockout_response]
    does, with the lockout redirect or text, or with the [TypeError]
    raised when a lockout template is configured; that is never a
    response of the view, and nothing is added to the audit log and no
    signal is sent. *)
Theorem locked_out_request_never_reaches_the_view cfg users func now request s s1 :
  is_already_locked cfg users now request s = (inr true, s1) ->
  decorated_login cfg users func now request s = (lockout_response cfg request, s1)
  /\ (forall response, lockout_response cfg request <> inr (FromView response))
  /\ (forall c t, LOCKOUT_TEMPLATE cfg = Some (String c t) ->
        lockout_response cfg request = inl TypeError)
  /\ access_log s1 = access_log s
  /\ signals s1 = signals s.
Proof.
  intros H. split; [|split; [|split]].
  - unfold decorated_login. rewrite (bind_inr _ _ _ _ _ H).
    by destruct (lockout_response cfg request).
  - intros response. unfold lockout_response.
    destruct (LOCKOUT_TEMPLATE cfg) as [[|? ?]|]; try done;
      destruct (AXES_LOCKOUT_URL cfg) as [[|? ?]|]; try done;
      by destruct (cooloff_enabled cfg).
  - intros c t Ht. unfold lockout_response. by rewrite Ht.
  - by destruct (is_already_locked_side _ _ _ _ _ _ _ H) as (? & ? & _).
Qed.

Lemma locked_out_request_never_reaches_the_view_witness :
  decorated_login whitelist_only_settings ∅ silent_view 0
    (mk_request [("REMOTE_ADDR", "203.0.113.10")] []) empty_store
  = (inr (LockoutText
            "Account locked: too many login attempts.  Contact an admin to unlock your account."),
     empty_store).
Proof.
  apply (locked_out_request_never_reaches_the_view whitelist_only_settings ∅ silent_view 0
           (mk_request [("REMOTE_ADDR", "203.0.113.10")] []) empty_store empty_store).
  reflexivity.
Defined.

Lemma decorated_login_evaluates cfg users func now request ip s s1 response s2 r s' :
  get_ip cfg request = inr ip ->
  is_already_locked cfg users now request s = (inr false, s1) ->
  view_call func request s1 = (inr response, s2) ->
  view_name func <> "decorated_login" ->
  method request = "POST" ->
  let failed := match response with
                | Some resp => negb (has_location_header resp) && negb (status_code resp =? 302)
                | None => false
                end in
  check_request cfg users now request failed
    (logged (audit_entry cfg request ip (negb failed)) s2) = (r, s') ->
  decorated_login cfg users func now request s = (answer cfg request response r, s').
Proof.
  intros Hip Hgate Hview Hname Hpost failed Hcheck.
  unfold decorated_login.
  rewrite (bind_inr _ _ _ _ _ Hgate). simpl.
  rewrite (bind_inr _ _ _ _ _ Hview).
  apply String.eqb_neq in Hname. rewrite Hname, Hpost, Hip. simpl.
  unfold bind at 1. unfold lift at 1, ret at 1.
  unfold bind at 1. unfold AccessLog_create, modify.
  fold failed. fold (request_user_agent request).
  change (bind (check_request cfg users now request failed)
            (fun allowed => if allowed then ret (FromView response)
                            else lift (lockout_response cfg request))
            (logged (audit_entry cfg request ip (negb failed)) s2)
          = (answer cfg request response r, s')).
  unfold bind. rewrite Hcheck. unfold answer.
  destruct r as [e|[]]; [done..|].
  by destruct (lockout_response cfg request).
Qed.

(** X20. For a POST request that the gate lets through, a response of
    the wrapped view counts as a successful login exactly when it has a
    Location header or the status 302, and as a failed login otherwise.
    The decorator writes one audit entry, marked trusted exactly for a
    success, and evaluates the request with that outcome; it ends with
    the view's response if the evaluation allows it, as
    [lockout_response] does if the evaluation blocks, and with the
    exception if the evaluation raises one. *)
Theorem redirect_is_success_anything_else_failure cfg users func now request s s1 resp s2 :
  is_already_locked cfg users now request s = (inr false, s1) ->
  view_call func request s1 = (inr (Some resp), s2) ->
  view_name func <> "decorated_login" ->
  method request = "POST" ->
  exists ip r s',
    get_ip cfg request = inr ip
    /\ check_request cfg users now request
         (negb (has_location_header resp || (status_code resp =? 302)))
         (logged (audit_entry cfg request ip
                    (has_location_header resp || (status_code resp =? 302))) s2)
       = (r, s')
    /\ decorated_login cfg users func now request s
       = (answer cfg request (Some resp) r, s')
    /\ access_log s'
       = audit_entry cfg request ip (has_location_header resp || (status_code resp =? 302))
         :: access_log s2.
Proof.
  intros Hgate Hview Hname Hpost.
  destruct (get_ip cfg request) as [e|ip] eqn:Hip.
  { destruct (get_ip_raises_everywhere cfg users request e Hip now s) as (_ & _ & H & _).
    rewrite H in Hgate. discriminate. }
  set (success := has_location_header resp || (status_code resp =? 302)).
  destruct (check_request_tells cfg users now request ip (negb success)
              (logged (audit_entry cfg request ip success) s2) Hip)
    as (r & s' & Hrun & Hlog & _).
  exists ip, r, s'. split; [done|]. split; [done|]. split; [|done].
  apply (decorated_login_evaluates cfg users func now request ip s s1 (Some resp) s2 r s'
           Hip Hgate Hview Hname Hpost).
  cbv zeta. rewrite <- negb_orb, negb_involutive. exact Hrun.
Qed.

Lemma redirect_is_success_anything_else_failure_witness :
  exists ip r s',
    get_ip default_settings bob_request = inr ip
    /\ check_request default_settings ∅ 10 bob_request true
         (logged (audit_entry default_settings bob_request ip false)
            (is_already_locked default_settings ∅ 10 bob_request empty_store).2)
       = (r, s')
    /\ decorated_login default_settings ∅ form_again_view 10 bob_request empty_store
       = (answer default_settings bob_request form_page r, s')
    /\ access_log s'
       = audit_entry default_settings bob_request ip false
         :: access_log (is_already_locked default_settings ∅ 10 bob_request empty_store).2.
Proof.
  apply (redirect_is_success_anything_else_failure default_settings ∅ form_again_view 10
           bob_request empty_store
           (is_already_locked default_settings ∅ 10 bob_request empty_store).2
           {| has_location_header := false; status_code := 200 |}
           (is_already_locked default_settings ∅ 10 bob_request empty_store).2).
  - vm_compute. reflexivity.
  - reflexivity.
  - discriminate.
  - reflexivity.
Defined.

(** ** The data kept with a row *)

Lemma length_app_s (s t : string) :
  String.length (s +:+ t) = (String.length s + String.length t)%nat.
Proof. induction s as [|c s IH]; simpl; [done|]. by rewrite IH. Qed.

Lemma check_request_rewrites_untrusted cfg users now request ip matched s0 s k a :
  get_ip cfg request = inr ip ->
  get_user_attempts cfg now request s = (inr matched, s0) ->
  (k, a) ∈ matched -> trusted a = false ->
  exists r s',
    check_request cfg users now request true s = (r, s')
    /\ attempts s' !! k
       = Some (record_failure cfg now request (max_failures matched + 1) a).
Proof.
  intros Hip Hl Hin Ht.
  destruct (get_user_attempts_inv _ _ _ _ _ _ Hl) as (_ & _ & Hnd & _).
  pose proof (check_request_failure_run cfg users now request ip s matched s0 Hip Hl) as Hrun.
  cbv zeta in Hrun.
  set (f := max_failures matched + 1) in *.
  set (g := record_failure cfg now request f) in *.
  destruct matched as [|x l]; [by apply not_elem_of_nil in Hin|].
  pose proof (fold_save_row_in g (x :: l) k a s0 Hnd Hin) as Hsaved.
  destruct (trips cfg users request f); [|by eexists _, _].
  destruct (user_is_authenticated request) as [b|]; eexists _, _; (split; [exact Hrun|]);
    [done|].
  rewrite fold_revoke_store_keeps; [done|by apply (known_lookup _ _ (g a))|].
  intros ([k' b] & -> & [Hb Htb]%trusted_filter_elem)%list_elem_of_fmap.
  apply list_elem_of_fmap in Hb as ([k'' a'] & [= -> ->] & Hin').
  cbn [fst] in Hin. rewrite (NoDup_fst_functional _ _ _ _ Hnd Hin Hin') in Ht.
  simpl in Htb. congruence.
Qed.

(** X21. The limit of [query2str] bounds what one request adds, not
    what is kept: each failed login, however its evaluation ends,
    rewrites an untrusted row found for the request with the request's
    query and form text appended after a separator, so the stored texts
    grow by at least 11 and at most 1035 characters with every
    failure. *)
Theorem stored_data_grows_with_every_failure cfg users now request ip matched s0 s k a :
  get_ip cfg request = inr ip ->
  get_user_attempts cfg now request s = (inr matched, s0) ->
  (k, a) ∈ matched -> trusted a = false ->
  exists r s' b,
    check_request cfg users now request true s = (r, s')
    /\ attempts s' !! k = Some b
    /\ (String.length (get_data b)
        = String.length (get_data a) + 11 + String.length (query2str cfg (GET request)))%nat
    /\ (String.length (post_data b)
        = String.length (post_data a) + 11 + String.length (query2str cfg (POST request)))%nat
    /\ (String.length (post_data a) + 11 <= String.length (post_data b)
        <= String.length (post_data a) + 1035)%nat.
Proof.
  intros Hip Hl Hin Ht.
  destruct (check_request_rewrites_untrusted cfg users _ _ _ _ _ _ _ _ Hip Hl Hin Ht)
    as (r & s' & Hrun & Hk).
  exists r, s', (record_failure cfg now request (max_failures matched + 1) a).
  split; [done|]. split; [done|].
  assert (Hlen : forall old q : string,
            String.length (old +:+ newline +:+ "---------" +:+ newline +:+ q)
            = (String.length old + 11 + String.length q)%nat).
  { intros old q. rewrite !length_app_s. simpl. lia. }
  cbn [get_data post_data record_failure]. rewrite !Hlen.
  pose proof (length_substring_le (Py.join newline
                (List.map (fun kv => fst kv +:+ "=" +:+ snd kv)
                   (List.filter (fun kv => negb (String.eqb (fst kv) (PASSWORD_FORM_FIELD cfg)))
                      (POST request)))) 0 1024) as Hq.
  fold (Py.slice_to 1024) in Hq.
  change (String.length (query2str cfg (POST request)) <= 1024)%nat in Hq.
  repeat split; lia.
Qed.

Lemma stored_data_grows_with_every_failure_witness :
  exists r s' b,
    check_request default_settings ∅ 10 bob_with_user true stale_store = (r, s')
    /\ attempts s' !! 1%positive = Some b
    /\ String.length (post_data b) = 23%nat.
Proof.
  destruct (stored_data_grows_with_every_failure default_settings ∅ 10 bob_with_user
              "198.51.100.4" [(1%positive, stale_record)] (counted stale_store) stale_store
              1%positive stale_record)
    as (r & s' & b & Hrun & Hb & _ & Hpost & _);
    [reflexivity|reflexivity|left|reflexivity|].
  exists r, s', b. split; [exact Hrun|]. split; [exact Hb|]. exact Hpost.
Defined.

(** ** Failure after failure *)

Lemma failed_login_through_the_decorator cfg users now request ip s s1 r s' :
  get_ip cfg request = inr ip ->
  method request = "POST" ->
  is_already_locked cfg users now request s = (inr false, s1) ->
  check_request cfg users now request true (logged (audit_entry cfg request ip false) s1)
  = (r, s') ->
  watch_login cfg users form_again_view now request s
  = (answer cfg request form_page r, s').
Proof.
  intros Hip Hpost Hgate Hcheck. unfold watch_login.
  by apply (decorated_login_evaluates cfg users form_again_view now request ip s s1
              form_page s1 r s' Hip Hgate).
Qed.

Lemma gate_keeps_lockout cfg users now request ip t s :
  get_ip cfg request = inr ip ->
  passes_lists cfg ip ->
  locked_since cfg users request ip t (attempts s) ->
  still_counts cfg t now ->
  exists s', is_already_locked cfg users now request s = (inr true, s')
             /\ locked_since cfg users request ip t (attempts s').
Proof.
  intros Hip Hpass (k & a & Hin & Ht & Htrips) Hfresh.
  destruct (get_user_attempts_consistent cfg now request ip s Hip) as (l & s1 & Hl & Hcons & _).
  assert (Hkept : (k, a) ∈ l).
  { apply (get_user_attempts_keeps _ _ _ _ _ _ _ _ _ Hip Hl Hin).
    intros c Hc. by apply (still_counts_expired cfg t now c a). }
  exists s1. split.
  - rewrite (is_already_locked_run _ _ _ _ _ _ _ _ Hip Hpass Hl). do 2 f_equal.
    apply existsb_exists. exists (k, a). split; [by apply list_elem_of_In|exact Htrips].
  - exists k, a. split; [by apply Hcons|done].
Qed.

Lemma send_all_locked cfg users func request ip t times : forall s,
  get_ip cfg request = inr ip ->
  passes_lists cfg ip ->
  locked_since cfg users request ip t (attempts s) ->
  Forall (still_counts cfg t) times ->
  (send_all cfg users func request times s).1
  = replicate (length times) (lockout_response cfg request).
Proof.
  induction times as [|t' times IH]; intros s Hip Hpass Hlocked Hwin; [done|].
  apply Forall_cons in Hwin as [Ht' Hwin].
  destruct (gate_keeps_lockout cfg users t' request ip t s Hip Hpass Hlocked Ht')
    as (s' & Hgate & Hlocked').
  cbn [send_all]. unfold watch_login, decorated_login.
  rewrite (bind_inr _ _ _ _ _ Hgate).
  specialize (IH s' Hip Hpass Hlocked' Hwin).
  assert (lift (lockout_response cfg request) s' = (lockout_response cfg request, s')) as ->
    by by destruct (lockout_response cfg request).
  destruct (send_all cfg users func request times s') as [rs s2]. simpl in *. by rewrite IH.
Qed.

Lemma failure_through_the_decorator cfg users request ip j t t' s :
  get_ip cfg request = inr ip ->
  passes_lists cfg ip ->
  method request = "POST" ->
  LOCK_OUT_AT_FAILURE cfg = true ->
  is_user_lockable cfg users request = true ->
  (j = 0 /\ nothing_counted cfg request ip (attempts s))
  \/ (1 <= j /\ counting cfg request ip j t (attempts s) /\ still_counts cfg t t') ->
  j + 1 <= FAILURE_LIMIT cfg ->
  exists s',
    watch_login cfg users form_again_view t' request s
    = (if j + 1 <? FAILURE_LIMIT cfg then inr (FromView form_page)
       else match user_is_authenticated request with
            | Some _ => inl TypeError
            | None => lockout_response cfg request
            end, s')
    /\ if j + 1 <? FAILURE_LIMIT cfg
       then counting cfg request ip (j + 1) t' (attempts s')
       else locked_since cfg users request ip t' (attempts s').
Proof.
  intros Hip Hpass Hpost Hlock Huser Hstate Hlimit.
  assert (Hgate : exists s1 l s2,
            is_already_locked cfg users t' request s = (inr false, s1)
            /\ get_user_attempts cfg t' request
                 (logged (audit_entry cfg request ip false) s1) = (inr l, s2)
            /\ max_failures l = j).
  { destruct Hstate as [[-> H0] | (Hj & Hcount & Hfresh)].
    - destruct (gate_nothing_counted cfg users t' request ip s Hip Hpass) as (s1 & Hg & H1);
        [lia|done|].
      destruct (get_user_attempts_consistent cfg t' request ip
                  (logged (audit_entry cfg request ip false) s1) Hip) as (l & s2 & Hl & _).
      exists s1, l, s2. split; [done|]. split; [done|].
      by destruct (get_user_attempts_nothing_counted cfg t' request ip
                     (logged (audit_entry cfg request ip false) s1) l s2 Hip H1 Hl).
    - pose proof (gate_while_counting cfg users t' request ip j t s Hip Hpass Hcount Hfresh)
        as Hg.
      rewrite trips_false in Hg by (left; lia).
      destruct (get_user_attempts_counting cfg t' request ip j t
                  (logged (audit_entry cfg request ip false) (counted s)) Hip Hcount Hfresh)
        as [Hl Hmax].
      eexists _, _, _. split; [exact Hg|]. split; [exact Hl|]. apply Hmax. lia. }
  destruct Hgate as (s1 & l & s2 & Hg & Hl & Hmax).
  destruct (j + 1 <? FAILURE_LIMIT cfg) eqn:Hlt.
  - apply Z.ltb_lt in Hlt.
    destruct (check_request_counts cfg users t' request ip _ l s2 Hip Hl) as (s' & Hc & Hn).
    { rewrite Hmax. apply trips_false. by left. }
    rewrite Hmax in Hn. exists s'. split; [|done].
    exact (failed_login_through_the_decorator cfg users t' request ip s s1 _ s'
             Hip Hpost Hg Hc).
  - apply Z.ltb_ge in Hlt.
    assert (Htrips : trips cfg users request (j + 1) = true) by by apply trips_true.
    destruct (check_request_trips cfg users t' request ip _ l s2 Hip Hl) as (s' & Hc & Hn).
    { by rewrite Hmax. }
    exists s'. split.
    + rewrite (failed_login_through_the_decorator cfg users t' request ip s s1 _ s'
                 Hip Hpost Hg Hc).
      by destruct (user_is_authenticated request).
    + destruct Hn as (k & a & Hin & Hf & Ht). exists k, a. rewrite Hf, Hmax. done.
Qed.

Lemma send_all_counting cfg users request ip (m : nat) :
  get_ip cfg request = inr ip ->
  passes_lists cfg ip ->
  method request = "POST" ->
  LOCK_OUT_AT_FAILURE cfg = true ->
  is_user_lockable cfg users request = true ->
  forall (r : nat) times j t s,
    (j = 0 /\ nothing_counted cfg request ip (attempts s))
    \/ (1 <= j /\ counting cfg request ip j t (attempts s)
        /\ Forall (still_counts cfg t) times) ->
    FAILURE_LIMIT cfg = j + Z.of_nat (S r) ->
    within_cooloff cfg times ->
    length times = (S r + m)%nat ->
    (send_all cfg users form_again_view request times s).1
    = replicate r (inr (FromView form_page))
      ++ match user_is_authenticated request with
         | Some _ => inl TypeError
         | None => lockout_response cfg request
         end
         :: replicate m (lockout_response cfg request).
Proof.
  intros Hip Hpass Hpost Hlock Huser.
  induction r as [|r IH]; intros times j t s Hstate Hlimit Hwin Hlen;
    (destruct times as [|t' times]; [discriminate Hlen|]);
    destruct Hwin as [Hfrom Hwin]; injection Hlen as Hlen;
    (destruct (failure_through_the_decorator cfg users request ip j t t' s
                 Hip Hpass Hpost Hlock Huser) as (s' & Hrun & Hafter);
     [destruct Hstate as [? | (? & ? & [? _]%Forall_cons)]; [by left|by right]
     |lia|]).
  - assert ((j + 1 <? FAILURE_LIMIT cfg) = false) as E by (apply Z.ltb_ge; lia).
    rewrite E in Hrun, Hafter.
    pose proof (send_all_locked cfg users form_again_view request ip t' times s'
                  Hip Hpass Hafter Hfrom) as Hrest.
    cbn [send_all]. rewrite Hrun.
    destruct (send_all cfg users form_again_view request times s') as [rs s2].
    simpl in *. by rewrite Hrest, Hlen.
  - assert ((j + 1 <? FAILURE_LIMIT cfg) = true) as E by (apply Z.ltb_lt; lia).
    rewrite E in Hrun, Hafter.
    specialize (IH times (j + 1) t' s').
    cbn [send_all]. rewrite Hrun.
    destruct (send_all cfg users form_again_view request times s') as [rs s2].
    simpl in *. rewrite IH; [done| |lia|done|done].
    right. split; [|done]. destruct Hstate as [[-> _] | [? _]]; lia.
Qed.

(** X22. The lockout threshold for any limit.  With lockout at
    failure on, a lockable user, an address that passes the lists, and
    nothing counted yet for the client, let the same login form be
    posted again and again to a decorated view that shows the form
    again, all within the cool-off time.  With a failure limit of
    [n + 1], the first [n] posts get the view's page back.  The post
    after them trips the lockout: it ends as [lockout_response] does if
    the request carries no user, and with [TypeError] if it carries
    one.  Every later post is refused by the gate and ends as
    [lockout_response] does: with the lockout redirect or text, or with
    the [TypeError] raised when a lockout template is configured. *)
Theorem lockout_after_limit_failures cfg users request ip (n m : nat) times s :
  FAILURE_LIMIT cfg = Z.of_nat (S n) ->
  LOCK_OUT_AT_FAILURE cfg = true ->
  is_user_lockable cfg users request = true ->
  get_ip cfg request = inr ip ->
  passes_lists cfg ip ->
  method request = "POST" ->
  (forall l s0, _get_user_attempts cfg request s = (inr l, s0) ->
                forall k a, (k, a) ∈ l -> failures_since_start a <= 0) ->
  within_cooloff cfg times ->
  length times = (S n + m)%nat ->
  (send_all cfg users form_again_view request times s).1
  = replicate n (inr (FromView form_page))
    ++ match user_is_authenticated request with
       | Some _ => inl TypeError
       | None => lockout_response cfg request
       end
       :: replicate m (lockout_response cfg request).
Proof.
  intros Hlimit Hlock Huser Hip Hpass Hpost H0 Hwin Hlen.
  apply (send_all_counting cfg users request ip m Hip Hpass Hpost Hlock Huser n times 0 0 s);
    [|lia|done|done].
  left. split; [done|]. intros k a Hin.
  apply (H0 _ _ (_get_user_attempts_run cfg request ip s Hip) k a Hin).
Qed.

Lemma lockout_after_limit_failures_witness :
  (send_all default_settings ∅ form_again_view bob_with_user [10; 20; 30; 40; 50]
     empty_store).1
  = [inr (FromView form_page); inr (FromView form_page);
     inl TypeError;
     lockout_response default_settings bob_with_user;
     lockout_response default_settings bob_with_user].
Proof.
  apply (lockout_after_limit_failures default_settings ∅ bob_with_user "198.51.100.4"
           2 2 [10; 20; 30; 40; 50] empty_store);
    try reflexivity.
  - split; [discriminate|reflexivity].
  - intros l s0 [= <- _] k a Hin. vm_compute in Hin. by apply not_elem_of_nil in Hin.
  - repeat split; repeat constructor; intros c Hc; discriminate Hc.
Defined.

(** ** After a successful login *)

Lemma found_query cfg request ip m k a :
  (k, a) ∈ found cfg request ip m ->
  m !! k = Some a
  /\ ((trusted_query cfg request ip a = true
       /\ found cfg request ip m = rows (trusted_query cfg request ip) m)
      \/ (untrusted_query cfg request ip a = true
          /\ rows (trusted_query cfg request ip) m = [])).
Proof.
  intros Hin. split; [by apply elem_of_found_lookup in Hin|].
  destruct (found_cases cfg request ip m) as [[_ E] | [Hnil E]]; rewrite E in Hin;
    apply elem_of_rows in Hin as [_ Hq]; [by left|by right].
Qed.

Lemma found_of_row cfg request ip m k a :
  m !! k = Some a ->
  trusted_query cfg request ip a = true
  \/ (untrusted_query cfg request ip a = true
      /\ rows (trusted_query cfg request ip) m = []) ->
  (k, a) ∈ found cfg request ip m.
Proof.
  intros Hk [Hq | [Hq Hnil]].
  - assert (Hin : (k, a) ∈ rows (trusted_query cfg request ip) m) by by apply elem_of_rows.
    destruct (found_cases cfg request ip m) as [[_ ->] | [E _]]; [done|].
    rewrite E in Hin. by apply not_elem_of_nil in Hin.
  - unfold found. rewrite Hnil. by apply elem_of_rows.
Qed.

(** X23. After a successful login (the failure limit being positive)
    the client starts again from zero: the login is allowed, and every
    row found for the request afterwards has a failure count of zero. *)
Theorem successful_login_starts_from_zero cfg users now request ip s :
  0 < FAILURE_LIMIT cfg ->
  get_ip cfg request = inr ip ->
  exists s',
    check_request cfg users now request false s = (inr true, s')
    /\ forall l s2, _get_user_attempts cfg request s' = (inr l, s2) ->
                    forall k a, (k, a) ∈ l -> failures_since_start a = 0.
Proof.
  intros Hlimit Hip.
  destruct (get_user_attempts_consistent cfg now request ip s Hip)
    as (l & s1 & Hl & Hcons & Hnd).
  pose proof (check_request_success_run cfg users now request ip s l s1 Hip Hl) as Hrun.
  cbv zeta in Hrun. rewrite (trips_zero _ _ _ Hlimit) in Hrun.
  set (s2 := fold_left forget_store l s1) in *.
  set (s3 := if existsb (fun ka => trusted ka.2) l then s2
             else with_trusted_record cfg now request ip s2) in *.
  exists s3. split; [exact Hrun|].
  intros l' s4. rewrite (_get_user_attempts_run cfg request ip s3 Hip).
  intros [= <- _] k b Hin.
  (* what the table holds under each key afterwards *)
  assert (Hs3 : forall k b, attempts s3 !! k = Some b ->
            failures_since_start b = 0
            \/ ((k ∉ l.*1) /\ attempts s1 !! k = Some b)).
  { clear k b Hin. intros k b Hk.
    assert (Hs2 : attempts s2 !! k = Some b ->
              failures_since_start b = 0 \/ ((k ∉ l.*1) /\ attempts s1 !! k = Some b)).
    { intros Hk2. destruct (decide (k ∈ l.*1)) as [Hkin | Hkout].
      - apply list_elem_of_fmap in Hkin as ([k' a] & -> & Hin). cbn [fst] in Hk2.
        unfold s2 in Hk2. rewrite (fold_forget_store_in l k' a s1 Hnd Hin) in Hk2.
        destruct (trusted a); [|discriminate]. injection Hk2 as <-. by left.
      - right. split; [done|]. unfold s2 in Hk2.
        by rewrite (fold_forget_store_not_in l k s1 Hkout) in Hk2. }
    unfold s3 in Hk. destruct (existsb _ l); [by apply Hs2|].
    unfold with_trusted_record in Hk.
    destruct (POST_get request (USERNAME_FORM_FIELD cfg)) as [name|]; [|by apply Hs2].
    destruct (Py.truthy name); [|by apply Hs2].
    unfold with_new_row in Hk. simpl in Hk.
    destruct (decide (k = next_pk s2)) as [-> | Hne].
    - rewrite lookup_insert_eq in Hk. injection Hk as <-. by left.
    - rewrite lookup_insert_ne in Hk by done. by apply Hs2. }
  (* a trusted row that was found is still there, with the same key fields *)
  assert (Htrusted : forall k0 a0, (k0, a0) ∈ l -> trusted a0 = true ->
            attempts s3 !! k0 = Some (set_failures_since_start 0 a0)).
  { intros k0 a0 Hin0 Ht0.
    assert (Hex : existsb (fun ka => trusted ka.2) l = true)
      by (apply existsb_trusted_true; eauto).
    unfold s3. rewrite Hex. unfold s2.
    rewrite (fold_forget_store_in l k0 a0 s1 Hnd Hin0). by rewrite Ht0. }
  destruct (found_query _ _ _ _ _ _ Hin) as [Hk Hq].
  destruct (Hs3 k b Hk) as [H0 | [Hout Hk1]]; [done|]. exfalso.
  apply Hout. apply list_elem_of_fmap. exists (k, b). split; [done|].
  apply Hcons. apply found_of_row; [done|].
  destruct Hq as [[Hq _] | [Hq Hnil]]; [by left|]. right. split; [done|].
  destruct (list_empty_or_elem (rows (trusted_query cfg request ip) (attempts s1)))
    as [E | [[k0 a0] Hin0]]; [done|]. exfalso.
  assert (Hq0 : trusted_query cfg request ip a0 = true)
    by by apply elem_of_rows in Hin0 as [_ ?].
  assert (Hl0 : (k0, a0) ∈ l).
  { apply Hcons. apply found_of_row; [by apply elem_of_rows in Hin0 as [? _]|by left]. }
  pose proof (Htrusted k0 a0 Hl0 (trusted_query_trusted _ _ _ _ Hq0)) as Hk0.
  assert (Hin3 : (k0, set_failures_since_start 0 a0)
                 ∈ rows (trusted_query cfg request ip) (attempts s3)).
  { apply elem_of_rows. split; [done|].
    by rewrite (trusted_query_same_key cfg request ip _ a0 (set_failures_same_key 0 a0)). }
  rewrite Hnil in Hin3. by apply not_elem_of_nil in Hin3.
Qed.

Lemma successful_login_starts_from_zero_witness :
  exists s',
    check_request default_settings ∅ 10 bob_request false stale_store = (inr true, s')
    /\ forall l s2, _get_user_attempts default_settings bob_request s' = (inr l, s2) ->
                    forall k a, (k, a) ∈ l -> failures_since_start a = 0.
Proof.
  apply (successful_login_starts_from_zero default_settings ∅ 10 bob_request "198.51.100.4"
           stale_store); reflexivity.
Defined.

(** ** Who shares a lockout *)

(** X24. Without lockout by user and address together and without
    user agents, a lockout is a lockout of the address: an untrusted row
    of the address at or above the limit that has not cooled off locks
    out every request from that address, whatever name the row carries
    and whatever name the request submits, unless a trusted row exists
    for the request's own name. *)
Theorem lockout_is_by_address cfg users now request ip k a s :
  should_lock_out_by_combination_user_and_ip cfg = false ->
  USE_USER_AGENT cfg = false ->
  get_ip cfg request = inr ip ->
  passes_lists cfg ip ->
  LOCK_OUT_AT_FAILURE cfg = true ->
  is_user_lockable cfg users request = true ->
  attempts s !! k = Some a ->
  trusted a = false -> ip_address a = ip ->
  FAILURE_LIMIT cfg <= failures_since_start a ->
  (forall c, COOLOFF_TIME cfg = Some c -> c <> 0 -> ~ attempt_time a + c < now) ->
  (forall k' a', attempts s !! k' = Some a' -> ~ trusted_match cfg request ip a') ->
  exists s', is_already_locked cfg users now request s = (inr true, s').
Proof.
  intros Hcomb Hua Hip Hpass Hlock Huser Hk Ht Haddr Hlimit Hfresh Hnone.
  assert (Hin : (k, a) ∈ found cfg request ip (attempts s)).
  { unfold found.
    assert (rows (trusted_query cfg request ip) (attempts s) = []) as ->.
    { apply rows_nil. intros k' a' Hk'.
      destruct (trusted_query cfg request ip a') eqn:Hq; [|done].
      apply trusted_query_match in Hq. by destruct (Hnone k' a' Hk'). }
    apply elem_of_rows. split; [done|]. apply untrusted_query_match.
    repeat split; [done..| |]; intros H; congruence. }
  destruct (get_user_attempts_consistent cfg now request ip s Hip) as (l & s1 & Hl & _).
  exists s1. rewrite (is_already_locked_run _ _ _ _ _ _ _ _ Hip Hpass Hl). do 2 f_equal.
  apply existsb_exists. exists (k, a). split.
  - apply list_elem_of_In. apply (get_user_attempts_keeps _ _ _ _ _ _ _ _ _ Hip Hl Hin).
    intros c [Hc Hc0]%cooloff_enabled_Some. apply Z.ltb_ge.
    specialize (Hfresh c Hc Hc0). lia.
  - cbn [snd]. rewrite Hlock, Huser. by apply Z.leb_le in Hlimit as ->.
Qed.

Lemma lockout_is_by_address_witness :
  exists s', is_already_locked default_settings ∅ 10 carol_request stale_store = (inr true, s').
Proof.
  apply (lockout_is_by_address default_settings ∅ 10 carol_request "198.51.100.4"
           1%positive stale_record stale_store); try reflexivity.
  - split; [discriminate|reflexivity].
  - intros c Hc. discriminate Hc.
  - intros k' a' Hk' (Ht & _).
    destruct (decide (k' = 1%positive)) as [->|Hne].
    + unfold stale_store in Hk'. simpl in Hk'. rewrite lookup_insert_eq in Hk'.
      injection Hk' as <-. discriminate Ht.
    + unfold stale_store in Hk'. simpl in Hk'.
      rewrite lookup_insert_ne, lookup_empty in Hk' by done. discriminate Hk'.
Defined.

(** X25. Only rows under the request's identity key count: rows of
    the request's address, carrying the submitted name when lockout is
    by user and address together, and the request's user agent when
    user agents are tracked.  If each such row is below a positive
    failure limit, the gate lets the request through, whatever the
    other rows hold. *)
Theorem lockout_is_confined_to_the_identity_key cfg users now request ip s :
  get_ip cfg request = inr ip ->
  passes_lists cfg ip ->
  0 < FAILURE_LIMIT cfg ->
  (forall k a, attempts s !! k = Some a ->
     ip_address a = ip ->
     (should_lock_out_by_combination_user_and_ip cfg = true ->
      username a = POST_get request (USERNAME_FORM_FIELD cfg)) ->
     (USE_USER_AGENT cfg = true -> user_agent a = request_user_agent request) ->
     failures_since_start a < FAILURE_LIMIT cfg) ->
  exists s', is_already_locked cfg users now request s = (inr false, s').
Proof.
  intros Hip Hpass Hlimit Hbelow.
  destruct (get_user_attempts_consistent cfg now request ip s Hip) as (l & s1 & Hl & _).
  exists s1. rewrite (is_already_locked_run _ _ _ _ _ _ _ _ Hip Hpass Hl). do 2 f_equal.
  apply existsb_false_iff. intros [k b] Hin.
  destruct (get_user_attempts_rows_from _ _ _ _ _ _ _ Hip Hl k b Hin) as (a & Ha & Hb).
  assert (Hlt : failures_since_start a < FAILURE_LIMIT cfg).
  { apply (Hbelow k a (elem_of_found_lookup _ _ _ _ _ _ Ha));
      destruct (found_cases cfg request ip (attempts s)) as [[_ E] | [_ E]];
      rewrite E in Ha; apply elem_of_rows in Ha as [_ Hq];
      (apply trusted_query_match in Hq as (_ & Haddr & Hname & Hua)
       || apply untrusted_query_match in Hq as (_ & Haddr & Hua & Hname)); auto. }
  cbn [snd].
  assert ((FAILURE_LIMIT cfg <=? failures_since_start b) = false) as ->; [|done].
  apply Z.leb_gt. destruct Hb as [-> | ->]; [done|]. simpl. lia.
Qed.

Lemma lockout_is_confined_to_the_identity_key_witness :
  exists s', is_already_locked combination_settings ∅ 10 carol_request stale_store
             = (inr false, s').
Proof.
  apply (lockout_is_confined_to_the_identity_key combination_settings ∅ 10 carol_request
           "198.51.100.4" stale_store); try reflexivity.
  - split; [discriminate|reflexivity].
  - intros k a Hk _ Hname _. specialize (Hname eq_refl).
    destruct (decide (k = 1%positive)) as [->|Hne].
    + unfold stale_store in Hk. simpl in Hk. rewrite lookup_insert_eq in Hk.
      injection Hk as <-. discriminate Hname.
    + unfold stale_store in Hk. simpl in Hk.
      rewrite lookup_insert_ne, lookup_empty in Hk by done. discriminate Hk.
Defined.

(** ** The decorator and a view that returns nothing *)

(** C9.  For a POST request that the gate lets through and a wrapped
    view (other than [decorated_login] itself) that returns [None], the
    attempt counts as a successful login.  [decorated_login] writes one
    audit entry, with [trusted = True], and evaluates the request with
    [login_unsuccessful] false on the store that holds the entry; it
    ends with the view's [None] if the evaluation allows it.  The
    cleanup of a successful login runs: every untrusted row found for
    the request is deleted, and with a positive failure limit the
    evaluation allows, [None] is returned, and every trusted row found
    is kept with its count reset to zero. *)
Theorem falsy_response_is_a_successful_login cfg users func now request s s1 s2 :
  is_already_locked cfg users now request s = (inr false, s1) ->
  view_call func request s1 = (inr None, s2) ->
  view_name func <> "decorated_login" ->
  method request = "POST" ->
  exists ip matched s3 r s',
    get_ip cfg request = inr ip
    /\ get_user_attempts cfg now request (logged (audit_entry cfg request ip true) s2)
       = (inr matched, s3)
    /\ check_request cfg users now request false
         (logged (audit_entry cfg request ip true) s2) = (r, s')
    /\ decorated_login cfg users func now request s = (answer cfg request None r, s')
    /\ access_log s' = audit_entry cfg request ip true :: access_log s2
    /\ (forall k a, (k, a) ∈ matched -> trusted a = false -> attempts s' !! k = None)
    /\ (0 < FAILURE_LIMIT cfg ->
        r = inr true
        /\ decorated_login cfg users func now request s = (inr (FromView None), s')
        /\ forall k a, (k, a) ∈ matched -> trusted a = true ->
                       attempts s' !! k = Some (set_failures_since_start 0 a)).
Proof.
  intros Hgate Hview Hname Hpost.
  destruct (get_ip cfg request) as [e|ip] eqn:Hip.
  { destruct (get_ip_raises_everywhere cfg users request e Hip now s) as (_ & _ & H & _).
    rewrite H in Hgate. discriminate. }
  set (sL := logged (audit_entry cfg request ip true) s2).
  destruct (get_user_attempts_consistent cfg now request ip sL Hip)
    as (matched & s3 & Hl & _ & Hnd).
  destruct (check_request_tells cfg users now request ip false sL Hip)
    as (r & s' & Hc & Hlog & _).
  pose proof (decorated_login_evaluates cfg users func now request ip s s1 None s2 r s'
                Hip Hgate Hview Hname Hpost Hc) as Hd.
  pose proof (check_request_success_run cfg users now request ip sL matched s3 Hip Hl) as Hrun.
  cbv zeta in Hrun. rewrite Hc in Hrun.
  set (s2f := fold_left forget_store matched s3) in *.
  set (s3' := if existsb (fun ka => trusted ka.2) matched then s2f
              else with_trusted_record cfg now request ip s2f) in *.
  exists ip, matched, s3, r, s'.
  split; [done|]. split; [done|]. split; [done|]. split; [done|]. split; [done|]. split.
  - intros k a Hin Ht.
    assert (Hk2 : attempts s2f !! k = None).
    { unfold s2f. rewrite (fold_forget_store_in matched k a s3 Hnd Hin). by rewrite Ht. }
    assert (Hknown2 : k ∈ known s2f).
    { apply fold_forget_store_known. right. apply list_elem_of_fmap. by exists (k, a). }
    assert (Hk3 : attempts s3' !! k = None /\ k ∈ known s3').
    { unfold s3'. destruct (existsb _ matched); [done|]. unfold with_trusted_record.
      destruct (POST_get request (USERNAME_FORM_FIELD cfg)) as [name|]; [|done].
      destruct (Py.truthy name); [|done]. split; [|by apply known_with_new_row].
      unfold with_new_row. simpl. rewrite lookup_insert_ne; [done|].
      intros E. apply (next_pk_fresh s2f). by rewrite E. }
    destruct Hk3 as [Hk3 Hknown3].
    destruct (trips cfg users request 0); [|by injection Hrun as _ ->].
    destruct (user_is_authenticated request); injection Hrun as _ ->; [done|].
    apply fold_revoke_store_gone; [done|by left].
  - intros Hlimit. rewrite (trips_zero _ _ _ Hlimit) in Hrun. injection Hrun as -> ->.
    split; [done|]. split; [done|].
    intros k a Hin Ht.
    assert (existsb (fun ka => trusted ka.2) matched = true) as Hex
      by (apply existsb_trusted_true; eauto).
    unfold s3'. rewrite Hex. unfold s2f.
    rewrite (fold_forget_store_in matched k a s3 Hnd Hin). by rewrite Ht.
Qed.

Lemma falsy_response_is_a_successful_login_witness :
  exists s',
    decorated_login default_settings ∅ silent_view 10 bob_request two_failures_store
    = (inr (FromView None), s')
    /\ access_log s' = [audit_entry default_settings bob_request "198.51.100.4" true]
    /\ attempts s' !! 1%positive = None.
Proof.
  destruct (falsy_response_is_a_successful_login default_settings ∅ silent_view 10
              bob_request two_failures_store
              (is_already_locked default_settings ∅ 10 bob_request two_failures_store).2
              (is_already_locked default_settings ∅ 10 bob_request two_failures_store).2)
    as (ip & matched & s3 & r & s' & Hip & Hl & _ & _ & Hlog & Hun & Hpos);
    [by vm_compute|reflexivity|discriminate|reflexivity|].
  vm_compute in Hip. injection Hip as <-.
  vm_compute in Hl. injection Hl as <- _.
  destruct (Hpos eq_refl) as (_ & Hd & _).
  exists s'. split; [exact Hd|]. split; [exact Hlog|].
  apply (Hun 1%positive two_failures_record); [left|reflexivity].
Defined.
